(** * Value inference for callables and container literals (jedi)

    A shallow embedding of
      - [jedi/inference/value/iterable.py]  (container values, the dynamic
        array-addition scanner),
      - [jedi/inference/value/function.py]  (function values, overloads,
        return and yield inference) and
      - [jedi/api/helpers.py]  (the text before the cursor, import
        statements that failed to parse),
    together with the properties of the specification that concern them.

    Python objects become records and inductive types, exceptions become
    the [Raise] constructor of [result], generators become the list of the
    items they produce together with the exception that ended them (if
    any), and the mutable module [jedi.settings] is threaded explicitly. *)

From Stdlib Require Import ZArith Lia Ascii.
From stdpp Require Import base option list gmap sets strings.

Set Warnings "-register-all,-clear-no-such-hyp".

Local Open Scope string_scope.
Local Open Scope list_scope.

(** ** Python results *)

Inductive exn :=
| AttributeError | IndexError | KeyError | TypeError | ValueError
| AssertionError | StopIteration | NotImplementedError | SimpleGetItemNotFound.

#[global] Instance exn_eq_dec : EqDecision exn.
Proof. solve_decision. Defined.

Inductive result (A : Type) :=
| Ok (a : A)
| Raise (e : exn).
Arguments Ok {A} a.
Arguments Raise {A} e.

#[global] Instance result_eq_dec {A} `{EqDecision A} : EqDecision (result A).
Proof. solve_decision. Defined.

#[global] Instance result_ret : MRet result := λ A a, Ok a.
#[global] Instance result_bind : MBind result := λ A B k r,
  match r with
  | Ok a => k a
  | Raise e => Raise e
  end.
#[global] Instance result_fmap : FMap result := λ A B f r,
  match r with
  | Ok a => Ok (f a)
  | Raise e => Raise e
  end.

(** [l[i]] for a non-negative index. *)
Definition getitem {A} (l : list A) (i : nat) : result A :=
  match l !! i with
  | Some a => Ok a
  | None => Raise IndexError
  end.

(** [l[-1]]. *)
Definition getitem_last {A} (l : list A) : result A :=
  match last l with
  | Some a => Ok a
  | None => Raise IndexError
  end.

(** [l[::2]]. *)
Fixpoint every_second {A} (l : list A) : list A :=
  match l with
  | [] => []
  | a :: rest =>
      a :: match rest with
           | [] => []
           | _ :: rest' => every_second rest'
           end
  end.

(** A generator that was run to its end: what it yielded, and the
    exception that stopped it when it did not finish normally. *)
Record generated (A : Type) := Generated {
  items : list A;
  failure : option exn
}.
Arguments Generated {A} items failure.
Arguments items {A} g.
Arguments failure {A} g.

Definition finished {A} (l : list A) : generated A := Generated l None.
Definition failed {A} (e : exn) : generated A := Generated [] (Some e).

(** Running [g] and then, if it finished, the generator [k]. *)
Definition gen_then {A} (g k : generated A) : generated A :=
  match failure g with
  | None => Generated (items g ++ items k) (failure k)
  | Some e => g
  end.

Definition gen_of_result {A} (r : result (list A)) : generated A :=
  match r with
  | Ok l => finished l
  | Raise e => failed e
  end.

(** ** The syntax tree (parso)

    A node is a leaf carrying its token text and span, or an inner node
    with children. A [Node] handle is a position in a tree: the root, the
    path of child indices from the root and the subtree found there; two
    handles into one tree are the same node when their paths agree. *)

Definition Pos : Type := nat * nat.

(** Tuple comparison [p < q] on [(line, column)]. *)
Definition pos_lt (p q : Pos) : bool :=
  (p.1 <? q.1)%nat || ((p.1 =? q.1)%nat && (p.2 <? q.2)%nat).

Inductive Tree :=
| Leaf (type : string) (value : string) (start_pos end_pos : Pos)
| BaseNode (type : string) (children : list Tree).

Definition Path : Type := list nat.

Fixpoint subtree (t : Tree) (p : Path) : option Tree :=
  match p with
  | [] => Some t
  | i :: p' =>
      match t with
      | Leaf _ _ _ _ => None
      | BaseNode _ cs =>
          match cs !! i with
          | Some c => subtree c p'
          | None => None
          end
      end
  end.

Record Node := mkNode {
  root : Tree;
  path : Path;
  here : Tree
}.

Definition root_node (t : Tree) : Node := mkNode t [] t.

Definition node_at (t : Tree) (p : Path) : option Node :=
  mkNode t p <$> subtree t p.

Definition type (n : Node) : string :=
  match here n with
  | Leaf ty _ _ _ => ty
  | BaseNode ty _ => ty
  end.

(** [n.value]: only leaves have the attribute. *)
Definition value (n : Node) : result string :=
  match here n with
  | Leaf _ v _ _ => Ok v
  | BaseNode _ _ => Raise AttributeError
  end.

(** [n.children]: only inner nodes have the attribute. *)
Definition children (n : Node) : result (list Node) :=
  match here n with
  | Leaf _ _ _ _ => Raise AttributeError
  | BaseNode _ cs => Ok (imap (λ i c, mkNode (root n) (path n ++ [i]) c) cs)
  end.

(** [n.parent], [None] at the root. *)
Definition parent (n : Node) : option Node :=
  match path n with
  | [] => None
  | _ => node_at (root n) (removelast (path n))
  end.

Fixpoint tree_start_pos (t : Tree) : Pos :=
  match t with
  | Leaf _ _ s _ => s
  | BaseNode _ cs =>
      match cs with
      | c :: _ => tree_start_pos c
      | [] => (0, 0)%nat
      end
  end.

Fixpoint tree_end_pos (t : Tree) : Pos :=
  match t with
  | Leaf _ _ _ e => e
  | BaseNode _ cs =>
      (fix last_end (l : list Tree) : Pos :=
         match l with
         | [] => (0, 0)%nat
         | [c] => tree_end_pos c
         | _ :: l' => last_end l'
         end) cs
  end.

Definition start_pos (n : Node) : Pos := tree_start_pos (here n).
Definition end_pos (n : Node) : Pos := tree_end_pos (here n).

(** [a == b] on nodes is identity. *)
Definition node_eqb (a b : Node) : bool := bool_decide (path a = path b).

(** [n == s] for a string [s]: operator and keyword leaves compare by
    their text, every other node is different from every string. *)
Definition is_token (n : Node) (s : string) : bool :=
  match here n with
  | Leaf ty v _ _ =>
      (String.eqb ty "operator" || String.eqb ty "keyword") && String.eqb v s
  | BaseNode _ _ => false
  end.

(** [parso.tree.search_ancestor(node, *node_types)]: the nearest proper
    ancestor whose type is listed. *)
Fixpoint search_ancestor_from (t : Tree) (p : Path) (fuel : nat)
    (node_types : list string) : option Node :=
  match fuel with
  | O => None
  | S fuel' =>
      match p with
      | [] => None
      | _ =>
          let p' := removelast p in
          match node_at t p' with
          | None => None
          | Some n =>
              if bool_decide (type n ∈ node_types) then Some n
              else search_ancestor_from t p' fuel' node_types
          end
      end
  end.

Definition search_ancestor (n : Node) (node_types : list string) : option Node :=
  search_ancestor_from (root n) (path n) (length (path n)) node_types.

(** [Module.get_used_names()[name]]: the name leaves with that text, in
    source order; [KeyError] when there is none. *)
Fixpoint name_leaves (t : Tree) (rt : Tree) (p : Path) : list Node :=
  match t with
  | Leaf ty _ _ _ => if String.eqb ty "name" then [mkNode rt p t] else []
  | BaseNode _ cs =>
      (fix scan (l : list Tree) (i : nat) : list Node :=
         match l with
         | [] => []
         | c :: l' => name_leaves c rt (p ++ [i]) ++ scan l' (S i)
         end) cs 0%nat
  end.

Definition has_value (n : Node) (s : string) : bool :=
  match here n with
  | Leaf _ v _ _ => String.eqb v s
  | BaseNode _ _ => false
  end.

Definition get_used_names (module_node : Node) (name : string) : result (list Node) :=
  match List.filter (λ n, has_value n name)
          (name_leaves (here module_node) (root module_node) (path module_node)) with
  | [] => Raise KeyError
  | l => Ok l
  end.

(** ** Values, value sets and lazy values *)

(** The Python objects a compiled value can wrap here. *)
Inductive PyObj :=
| PyInt (z : Z)
| PyStr (s : string)
| PyBool (b : bool)
| PyNone
| PySlice.

(** Python's [a == b] on these objects ([bool] is a subtype of [int]). *)
Definition py_eq (a b : PyObj) : bool :=
  match a, b with
  | PyInt x, PyInt y => (x =? y)%Z
  | PyInt x, PyBool y => (x =? Z.b2z y)%Z
  | PyBool x, PyInt y => (Z.b2z x =? y)%Z
  | PyBool x, PyBool y => Bool.eqb x y
  | PyStr x, PyStr y => String.eqb x y
  | PyNone, PyNone => true
  | PySlice, PySlice => true
  | _, _ => false
  end.

(** Truth value of an object, as [if obj:] tests it. *)
Definition py_truth (a : PyObj) : bool :=
  match a with
  | PyInt z => negb (z =? 0)%Z
  | PyStr s => negb (String.eqb s "")
  | PyBool b => b
  | PyNone => false
  | PySlice => true
  end.

Inductive Value :=
| CompiledObject (obj : PyObj)     (* native value of the host process *)
| TreeValue (definition : Path)    (* value backed by a syntax-tree node *)
| Generator (execution : Path)     (* [Generator(inference_state, execution)] *)
| Slice.                           (* [Slice(context, None, None, None)] *)

#[global] Instance PyObj_eq_dec : EqDecision PyObj.
Proof. solve_decision. Defined.

#[global] Instance PyObj_countable : Countable PyObj.
Proof.
  refine (inj_countable'
    (λ o, match o with
          | PyInt z => inl (inl z)
          | PyStr s => inl (inr s)
          | PyBool b => inr (inl b)
          | PyNone => inr (inr true)
          | PySlice => inr (inr false)
          end)
    (λ c, match c with
          | inl (inl z) => PyInt z
          | inl (inr s) => PyStr s
          | inr (inl b) => PyBool b
          | inr (inr true) => PyNone
          | inr (inr false) => PySlice
          end) _).
  by intros [].
Defined.

#[global] Instance Value_eq_dec : EqDecision Value.
Proof. solve_decision. Defined.

#[global] Instance Value_countable : Countable Value.
Proof.
  refine (inj_countable'
    (λ v, match v with
          | CompiledObject o => inl o
          | TreeValue p => inr (Some (inl p))
          | Generator p => inr (Some (inr p))
          | Slice => inr None
          end)
    (λ c, match c with
          | inl o => CompiledObject o
          | inr (Some (inl p)) => TreeValue p
          | inr (Some (inr p)) => Generator p
          | inr None => Slice
          end) _).
  by intros [].
Defined.

Abbreviation ValueSet := (gset Value).
Abbreviation NO_VALUES := (∅ : gset Value).

(** [compiled.create_simple_object] and [compiled.builtin_from_name]. *)
Definition create_simple_object (obj : PyObj) : Value := CompiledObject obj.
Definition builtin_None : Value := CompiledObject PyNone.

(** A context: the scope node it stands for, what kind of scope that is,
    whether it is a compiled (native) object, the names predefined for
    flow scopes, and the context it was created in. *)
Inductive ContextKind :=
| ModuleContext | ClassContext | InstanceContext | FunctionContext | CompForContext.

#[global] Instance ContextKind_eq_dec : EqDecision ContextKind.
Proof. solve_decision. Defined.

Inductive Context := mkContext {
  tree_node : Node;
  kind : ContextKind;
  is_compiled : bool;
  predefined_names : gmap Path (gmap string ValueSet);
  parent_context : option Context
}.

Definition is_class (c : Context) : bool := bool_decide (kind c = ClassContext).
Definition is_instance (c : Context) : bool := bool_decide (kind c = InstanceContext).

(** [context.get_root_context()]: the outermost enclosing context. *)
Fixpoint get_root_context (c : Context) : Context :=
  match parent_context c with
  | None => c
  | Some p => get_root_context p
  end.

(** [helpers.predefine_names(context, flow_scope, dct)]: the context as
    seen inside the [with] block; the entry is removed on leaving it. *)
Definition predefine_names (c : Context) (flow_scope : Node)
    (dct : gmap string ValueSet) : Context :=
  mkContext (tree_node c) (kind c) (is_compiled c)
            (<[path flow_scope := dct]> (predefined_names c))
            (parent_context c).

Inductive LazyValue :=
| LazyKnownValue (v : Value)
| LazyKnownValues (vs : ValueSet)
| LazyTreeValue (context : Context) (node : Node).
  (* a [LazyTreeValue] keeps the predefined names of its context as they
     were when it was built *)

(** ** The collaborators of this module

    What the inference state gives access to and this module only calls:
    inference of a node in a context, iteration of a value set, argument
    unpacking, context creation, the call-site recursion guard and the
    analysis flag. *)
Record InferenceState := {
  infer_node : Context → Node → ValueSet;
  iterate_values : ValueSet → list LazyValue;
  create_context : Context → Node → Context;
  execution_allowed : Node → bool;
  infer_call_of_leaf : Context → Node → ValueSet;
  unpack_arguments : Context → Node → list (option string * LazyValue);
  is_analysis : bool
}.

(** [jedi.settings], the two flags this module reads or writes. *)
Record Settings := mkSettings {
  dynamic_array_additions : bool;
  dynamic_params_for_other_modules : bool
}.

(** ** Container values ([iterable.py]) *)

(** What [get_tree_entries] returns: nodes for sequences and sets,
    [(key, value)] pairs for dicts. *)
Inductive Entry :=
| Elem (node : Node)
| KeyValue (key value : Node).

Inductive Sequence :=
| SequenceLiteralValue (defining_context : Context) (atom : Node) (array_type : string)
| FakeSequence (array_type : string) (lazy_value_list : list LazyValue)
| MergedArray (arrays : list Sequence) (array_type : string).

Definition array_type (s : Sequence) : string :=
  match s with
  | SequenceLiteralValue _ _ ty => ty
  | FakeSequence ty _ => ty
  | MergedArray _ ty => ty
  end.

Definition _TUPLE_LIKE : list string :=
  ["testlist_star_expr"; "testlist"; "subscriptlist"].

(** [SequenceLiteralValue.mapping[bracket]]. *)
Definition mapping (bracket : Node) : result string :=
  if is_token bracket "(" then Ok "tuple"
  else if is_token bracket "[" then Ok "list"
  else if is_token bracket "{" then Ok "set"
  else Raise KeyError.

(** [SequenceLiteralValue.__init__]. *)
Definition SequenceLiteralValue__init__ (defining_context : Context) (atom : Node)
    : result Sequence :=
  if bool_decide (type atom ∈ _TUPLE_LIKE) then
    Ok (SequenceLiteralValue defining_context atom "tuple")
  else
    c ← children atom;
    bracket ← getitem c 0;
    ty ← mapping bracket;
    Ok (SequenceLiteralValue defining_context atom ty).

(** [DictLiteralValue.__init__]: the class attribute fixes the type. *)
Definition DictLiteralValue (defining_context : Context) (atom : Node) : Sequence :=
  SequenceLiteralValue defining_context atom "dict".

(** [MergedArray.__init__]: the type of the last array. *)
Definition MergedArray__init__ (arrays : list Sequence) : result Sequence :=
  a ← getitem_last arrays;
  Ok (MergedArray arrays (array_type a)).

(** The [dictorsetmaker] loop of [get_tree_entries]; the iterator is the
    list of children still to be consumed. *)
Fixpoint dictorsetmaker_entries (iterator : list Node) : result (list Entry) :=
  match iterator with
  | [] => Ok []
  | key :: rest =>
      if is_token key "**" then
        match rest with
        | [] => Raise StopIteration                (* next(iterator) *)
        | _ :: rest1 =>
            kv ← dictorsetmaker_entries
                   (match rest1 with [] => rest1 | _ :: rest2 => rest2 end);
            Ok kv
        end
      else
        match rest with
        | [] =>                                    (* op is None *)
            if String.eqb (type key) "star_expr" then Ok []
            else Ok [Elem key]
        | op :: rest1 =>
            if is_token op "," then
              kv ← dictorsetmaker_entries rest1;
              if String.eqb (type key) "star_expr" then Ok kv
              else Ok (Elem key :: kv)
            else if is_token op ":" then
              match rest1 with
              | [] => Raise StopIteration          (* next(iterator) *)
              | v :: rest2 =>
                  kv ← dictorsetmaker_entries
                         (match rest2 with [] => rest2 | _ :: rest3 => rest3 end);
                  Ok (KeyValue key v :: kv)
              end
            else Raise AssertionError
        end
  end.

Definition get_tree_entries_of_atom (atom : Node) : result (list Entry) :=
  c ← children atom;
  if bool_decide (type atom ∈ _TUPLE_LIKE) then
    Ok (Elem <$> every_second c)
  else
    array_node ← getitem c 1;
    if is_token array_node "]" || is_token array_node "}" || is_token array_node ")"
    then Ok []
    else if String.eqb (type array_node) "testlist_comp" then
      cs ← children array_node;
      Ok (Elem <$> List.filter (λ v, negb (String.eqb (type v) "star_expr"))
                               (every_second cs))
    else if String.eqb (type array_node) "dictorsetmaker" then
      cs ← children array_node;
      dictorsetmaker_entries cs
    else if String.eqb (type array_node) "star_expr" then Ok []
    else Ok [Elem array_node].

(** [get_tree_entries]; [MergedArray] overrides it, a [FakeSequence] has
    no atom to read children from. *)
Fixpoint get_tree_entries (self : Sequence) : result (list Entry) :=
  match self with
  | SequenceLiteralValue _ atom _ => get_tree_entries_of_atom atom
  | FakeSequence _ _ => Raise AttributeError
  | MergedArray arrays _ =>
      (fix each (l : list Sequence) : result (list Entry) :=
         match l with
         | [] => Ok []
         | array :: l' =>
             a ← get_tree_entries array;
             rest ← each l';
             Ok (a ++ rest)
         end) arrays
  end.

(** [with reraise_getitem_errors(classes...): ...]: the listed exceptions
    become [SimpleGetItemNotFound]. *)
Definition reraise_getitem_errors {A} (classes : list exn) (r : result A) : result A :=
  match r with
  | Ok a => Ok a
  | Raise e =>
      if existsb (λ c, bool_decide (c = e)) classes then Raise SimpleGetItemNotFound
      else Raise e
  end.

(** Attribute access on a value that may be [None]. *)
Definition not_None {A} (o : option A) : result A :=
  match o with
  | Some a => Ok a
  | None => Raise AttributeError
  end.

(** [l.index(x)] on a list of nodes. *)
Fixpoint index_of (l : list Node) (x : Node) : result nat :=
  match l with
  | [] => Raise ValueError
  | y :: l' => if node_eqb y x then Ok 0%nat else i ← index_of l' x; Ok (S i)
  end.

(** [k.execute_operation], already applied to the operator [u'==']: only
    compiled values have the attribute; the bound method answers with the
    compiled result of comparing the two wrapped objects. *)
Definition execute_operation_eq (k : Value) : result (Value → Value) :=
  match k with
  | CompiledObject a =>
      Ok (λ other,
            match other with
            | CompiledObject b => CompiledObject (PyBool (py_eq a b))
            | _ => CompiledObject (PyBool false)
            end)
  | _ => Raise AttributeError
  end.

(** [v.get_safe_value()]. *)
Definition get_safe_value (v : Value) : result PyObj :=
  match v with
  | CompiledObject o => Ok o
  | _ => Raise ValueError
  end.

(** The position [l[index]] reads for a Python index. *)
Definition list_index (len : nat) (index : PyObj) : result nat :=
  let at_int (z : Z) :=
    if bool_decide (0 ≤ z < Z.of_nat len)%Z then Ok (Z.to_nat z)
    else if bool_decide (- Z.of_nat len ≤ z < 0)%Z then Ok (Z.to_nat (Z.of_nat len + z))
    else Raise IndexError in
  match index with
  | PyInt z => at_int z
  | PyBool b => at_int (Z.b2z b)
  | _ => Raise TypeError
  end.

Section Containers.
Variable inference_state : InferenceState.

(** [lazy_value.infer()]. *)
Definition lazy_infer (l : LazyValue) : ValueSet :=
  match l with
  | LazyKnownValue v => {[ v ]}
  | LazyKnownValues vs => vs
  | LazyTreeValue context node => infer_node inference_state context node
  end.

(** The inner loop of the dict branch of [py__simple_getitem__]:
    [for k in infer_node(key)], answering whether it returned. *)
Fixpoint key_equals_index (ks : list Value) (compiled_obj_index : Value) : result bool :=
  match ks with
  | [] => Ok false
  | k :: ks' =>
      match execute_operation_eq k with
      | Raise AttributeError => key_equals_index ks' compiled_obj_index
      | Raise e => Raise e
      | Ok method =>
          safe ← get_safe_value (method compiled_obj_index);
          if py_truth safe : bool then Ok true
          else key_equals_index ks' compiled_obj_index
      end
  end.

(** The outer loop: [for key, value in self.get_tree_entries()]. *)
Fixpoint dict_getitem (context : Context) (entries : list Entry)
    (compiled_obj_index : Value) : result ValueSet :=
  match entries with
  | [] => Raise SimpleGetItemNotFound
  | Elem _ :: _ => Raise TypeError         (* a node does not unpack *)
  | KeyValue key value :: rest =>
      found ← key_equals_index
                (elements (infer_node inference_state context key)) compiled_obj_index;
      if found : bool then Ok (infer_node inference_state context value)
      else dict_getitem context rest compiled_obj_index
  end.

(** [SequenceLiteralValue.py__simple_getitem__]. *)
Definition SequenceLiteralValue_py__simple_getitem__
    (defining_context : Context) (atom : Node) (array_type : string)
    (index : PyObj) : result ValueSet :=
  if String.eqb array_type "dict" then
    let compiled_obj_index := create_simple_object index in
    entries ← get_tree_entries_of_atom atom;
    dict_getitem defining_context entries compiled_obj_index
  else if bool_decide (index = PySlice) then
    Ok {[ TreeValue (path atom) ]}
  else
    node ← reraise_getitem_errors [TypeError; KeyError; IndexError]
              (entries ← get_tree_entries_of_atom atom;
               i ← list_index (length entries) index;
               getitem entries i);
    match node with
    | Elem node => Ok (infer_node inference_state defining_context node)
    | KeyValue _ _ => Raise AttributeError
    end.

(** [DictComprehension.py__simple_getitem__], over the pairs of key and
    value sets that [self._iterate()] gives: the values of the first pair
    one of whose keys is a compiled object with a safe value equal to
    the index. *)
Fixpoint DictComprehension_py__simple_getitem__
    (iterated : list (ValueSet * ValueSet)) (index : PyObj) : result ValueSet :=
  match iterated with
  | [] => Raise SimpleGetItemNotFound
  | (keys, values) :: rest =>
      if existsb (λ k, match k with
                       | CompiledObject safe_value => py_eq safe_value index
                       | _ => false
                       end) (elements keys)
      then Ok values
      else DictComprehension_py__simple_getitem__ rest index
  end.

(** *** The dynamic array-addition scanner *)

(** The value a sequence is when it is looked for in a value set. *)
Definition sequence_value (sequence : Sequence) : option Value :=
  match sequence with
  | SequenceLiteralValue _ atom _ => Some (TreeValue (path atom))
  | _ => None
  end.

Definition find_additions (value : Context) (arglist : Node) (add_name : string)
    : list LazyValue :=
  let params := unpack_arguments inference_state value arglist in
  let params := if bool_decide (add_name ∈ ["insert"]) then drop 1 params else params in
  if bool_decide (add_name ∈ ["append"; "add"; "insert"]) then
    params.*2
  else if bool_decide (add_name ∈ ["extend"; "update"]) then
    flat_map (λ p, iterate_values inference_state (lazy_infer p.2)) params
  else [].

(** The body of [for name in possible_names]: what this name adds to
    [added_types]; [Ok []] is [continue]. *)
Definition check_name (context : Context) (sequence : Sequence)
    (add_name : string) (name : Node) : result (list LazyValue) :=
  let value_node := tree_node context in
  if negb (pos_lt (start_pos value_node) (start_pos name)
           && pos_lt (start_pos name) (end_pos value_node)) then Ok []
  else
    trailer ← not_None (parent name);
    power ← not_None (parent trailer);
    power_children ← children power;
    trailer_pos ← index_of power_children trailer;
    match getitem power_children (trailer_pos + 1) with
    | Raise IndexError => Ok []
    | Raise e => Raise e
    | Ok execution_trailer =>
        skip ← (if negb (String.eqb (type execution_trailer) "trailer") then Ok true
                else
                  c ← children execution_trailer;
                  c0 ← getitem c 0;
                  if negb (is_token c0 "(") then Ok true
                  else c1 ← getitem c 1; Ok (is_token c1 ")"));
        if skip : bool then Ok []
        else
          _ ← (Raise NotImplementedError : result unit);
          (* never reached: the statements below follow the raise *)
          let random_context := create_context inference_state context name in
          if execution_allowed inference_state power then
            let found := infer_call_of_leaf inference_state random_context name in
            match sequence_value sequence with
            | Some v =>
                if bool_decide (v ∈ found) then
                  c ← children execution_trailer;
                  arglist ← getitem c 1;
                  Ok (find_additions random_context arglist add_name)
                else Ok []
            | None => Ok []
            end
          else Ok []
    end.

Fixpoint check_names (context : Context) (sequence : Sequence)
    (add_name : string) (possible_names : list Node) (added_types : list LazyValue)
    : result (list LazyValue) :=
  match possible_names with
  | [] => Ok added_types
  | name :: rest =>
      added ← check_name context sequence add_name name;
      check_names context sequence add_name rest (added_types ++ added)
  end.

(** [for add_name in search_names]. *)
Fixpoint search_additions (context module_context : Context) (sequence : Sequence)
    (search_names : list string) (added_types : list LazyValue)
    : result (list LazyValue) :=
  match search_names with
  | [] => Ok added_types
  | add_name :: rest =>
      match get_used_names (tree_node module_context) add_name with
      | Raise KeyError => search_additions context module_context sequence rest added_types
      | Raise e => Raise e
      | Ok possible_names =>
          added_types ← check_names context sequence add_name possible_names added_types;
          search_additions context module_context sequence rest added_types
      end
  end.

(** [_check_array_additions]; the settings are the state it runs in.
    [sequence.name.string_name] is the array type of the sequence, as
    [Sequence.name] is [CompiledValueName(self, self.array_type)]. *)
Definition _check_array_additions (context : Context) (sequence : Sequence)
    (settings : Settings) : result (list LazyValue) * Settings :=
  let module_context := get_root_context context in
  if negb (dynamic_array_additions settings) || is_compiled module_context then
    (Ok [], settings)
  else
    let temp_param_add := dynamic_params_for_other_modules settings in
    let settings := mkSettings (dynamic_array_additions settings) false in
    let is_list := String.eqb (array_type sequence) "list" in
    let search_names :=
      if is_list then ["append"; "extend"; "insert"] else ["add"; "update"] in
    match search_additions context module_context sequence search_names [] with
    | Raise e => (Raise e, settings)
    | Ok added_types =>
        (* reset settings *)
        (Ok added_types, mkSettings (dynamic_array_additions settings) temp_param_add)
    end.

Definition check_array_additions (context : Context) (sequence : Sequence)
    (settings : Settings) : result (list LazyValue) * Settings :=
  if negb (bool_decide (array_type sequence ∈ ["list"; "set"])) then (Ok [], settings)
  else _check_array_additions context sequence settings.

(** *** Iteration *)

(** The loop over the entries of a list, set or tuple literal. *)
Fixpoint literal_items (defining_context : Context) (entries : list Entry)
    : generated LazyValue :=
  match entries with
  | [] => finished []
  | Elem node :: rest =>
      let item :=
        if is_token node ":" || String.eqb (type node) "subscript"
        then LazyKnownValue Slice
        else LazyTreeValue defining_context node in
      gen_then (finished [item]) (literal_items defining_context rest)
  | KeyValue _ _ :: _ => failed AttributeError   (* a pair has no [type] *)
  end.

(** [for k, _ in self.get_tree_entries(): types |= infer_node(k)]. *)
Fixpoint dict_key_types (defining_context : Context) (entries : list Entry)
    (types : ValueSet) : result ValueSet :=
  match entries with
  | [] => Ok types
  | Elem _ :: _ => Raise TypeError
  | KeyValue k _ :: rest =>
      dict_key_types defining_context rest
        (types ∪ infer_node inference_state defining_context k)
  end.

(** [py__iter__] of the three container classes. *)
Fixpoint py__iter__ (self : Sequence) (settings : Settings)
    : generated LazyValue * Settings :=
  match self with
  | SequenceLiteralValue defining_context atom array_type =>
      if String.eqb array_type "dict" then
        (gen_of_result
           (entries ← get_tree_entries_of_atom atom;
            types ← dict_key_types defining_context entries NO_VALUES;
            Ok ((λ _, LazyKnownValues types) <$> elements types)),
         settings)
      else
        match get_tree_entries_of_atom atom with
        | Raise e => (failed e, settings)
        | Ok entries =>
            let literal := literal_items defining_context entries in
            match failure literal with
            | Some _ => (literal, settings)
            | None =>
                let (additions, settings) :=
                  check_array_additions defining_context self settings in
                (gen_then literal (gen_of_result additions), settings)
            end
        end
  | FakeSequence _ lazy_value_list => (finished lazy_value_list, settings)
  | MergedArray arrays _ =>
      (fix each (l : list Sequence) (settings : Settings) :=
         match l with
         | [] => (finished [], settings)
         | array :: l' =>
             let (g, settings) := py__iter__ array settings in
             match failure g with
             | Some _ => (g, settings)
             | None =>
                 let (g', settings) := each l' settings in
                 (gen_then g g', settings)
             end
         end) arrays settings
  end.
End Containers.

(** ** Function values and executions ([function.py]) *)

(** A [FunctionValue]; a [MethodValue] is one with a class context. *)
Record FunctionValue := mkFunctionValue {
  fv_parent_context : Context;
  fv_tree_node : Node;
  fv_class_context : option Context
}.

Definition Arguments : Type := list (option string * LazyValue).

(** [FunctionExecutionContext(function_value, var_args)]; it is itself a
    context, whose node is the function's and whose predefined names
    start empty. *)
Record FunctionExecutionContext := mkExecution {
  function_value : FunctionValue;
  var_args : Arguments;
  execution_predefined_names : gmap Path (gmap string ValueSet)
}.

Definition FunctionExecutionContext__init__ (function_value : FunctionValue)
    (var_args : Arguments) : FunctionExecutionContext :=
  mkExecution function_value var_args ∅.

Definition as_context (self : FunctionExecutionContext) : Context :=
  mkContext (fv_tree_node (function_value self)) FunctionContext false
            (execution_predefined_names self)
            (Some (fv_parent_context (function_value self))).

(** [with helpers.predefine_names(self, flow_scope, dct)] on an execution. *)
Definition execution_predefine_names (self : FunctionExecutionContext)
    (flow_scope : Node) (dct : gmap string ValueSet) : FunctionExecutionContext :=
  mkExecution (function_value self) (var_args self)
              (<[path flow_scope := dct]> (execution_predefined_names self)).

Record OverloadedFunctionValue := mkOverloaded {
  _wrapped_value : FunctionValue;
  _overloaded_functions : list FunctionValue
}.

Inductive Reachability := REACHABLE | UNREACHABLE | UNSURE.

#[global] Instance Reachability_eq_dec : EqDecision Reachability.
Proof. solve_decision. Defined.

Record ExecutedParam := mkExecutedParam {
  param_name : string;
  param_matches_signature : bool      (* [executed_param.matches_signature()] *)
}.

(** The collaborators [function.py] calls: argument binding, the
    annotation and docstring subsystems, flow analysis, the parser's
    lists of yield expressions and return statements, the name filter of
    a scope, the language version, and the typing module's wrappers for
    coroutines and asynchronous generators. *)
Record Collaborators := {
  get_executed_params_and_issues :
    FunctionExecutionContext → list ExecutedParam * list string;
  annotation_infer_return_types : FunctionExecutionContext → ValueSet;
  docstrings_infer_return_types : FunctionValue → ValueSet;
  reachability_check : FunctionExecutionContext → Node → Node → Reachability;
  get_yield_exprs : Node → list Node;
  iter_return_stmts : Node → list Node;
  filter_get : Context → Pos → string → list Node;
  version_info : nat * nat;
  async_generator_of : ValueSet → ValueSet;
  coroutine_of : ValueSet → ValueSet
}.

(** [FunctionMixin.get_function_execution(arguments)]. *)
Definition get_function_execution (f : FunctionValue) (arguments : Arguments)
    : FunctionExecutionContext :=
  FunctionExecutionContext__init__ f arguments.

(** [ValueSet.from_sets]. *)
Definition from_sets (sets : list ValueSet) : ValueSet := ⋃ sets.

Section Functions.
Variable inference_state : InferenceState.
Variable collaborators : Collaborators.

Definition self_infer_node (self : FunctionExecutionContext) (node : Node) : ValueSet :=
  infer_node inference_state (as_context self) node.

(** [_get_yield_lazy_value]. *)
Definition _get_yield_lazy_value (self : FunctionExecutionContext)
    (yield_expr : Node) : result (list LazyValue) :=
  if String.eqb (type yield_expr) "keyword" then
    Ok [LazyKnownValue builtin_None]
  else
    c ← children yield_expr;
    node ← getitem c 1;
    if String.eqb (type node) "yield_arg" then
      nc ← children node;
      n1 ← getitem nc 1;
      Ok (iterate_values inference_state (self_infer_node self n1))
    else Ok [LazyTreeValue (as_context self) node].

(** What a statement that is not unreachable adds in the loop of
    [get_return_values]. *)
Definition return_contribution (self : FunctionExecutionContext)
    (check_yields : bool) (r : Node) : result ValueSet :=
  if check_yields then
    lazies ← _get_yield_lazy_value self r;
    Ok (from_sets (lazy_infer inference_state <$> lazies))
  else
    match children r with
    | Raise AttributeError => Ok {[ builtin_None ]}
    | Raise e => Raise e
    | Ok children => c1 ← getitem children 1; Ok (self_infer_node self c1)
    end.

(** [for r in returns: ...] with its [break]. *)
Fixpoint scan_returns (self : FunctionExecutionContext) (funcdef : Node)
    (check_yields : bool) (returns : list Node) (value_set : ValueSet)
    : result ValueSet :=
  match returns with
  | [] => Ok value_set
  | r :: rest =>
      let check := reachability_check collaborators self funcdef r in
      value_set ←
        (if bool_decide (check = UNREACHABLE) then Ok value_set
         else
           vs ← return_contribution self check_yields r;
           Ok (value_set ∪ vs));
      if bool_decide (check = REACHABLE) then Ok value_set
      else scan_returns self funcdef check_yields rest value_set
  end.

(** [get_return_values], the decorated body. *)
Definition get_return_values (self : FunctionExecutionContext)
    (check_yields : bool) : result ValueSet :=
  let funcdef := fv_tree_node (function_value self) in
  if String.eqb (type funcdef) "lambdef" then
    c ← children funcdef;
    body ← getitem_last c;
    Ok (self_infer_node self body)
  else if check_yields then
    scan_returns self funcdef true (get_yield_exprs collaborators funcdef) NO_VALUES
  else
    let returns := iter_return_stmts collaborators funcdef in
    let value_set := annotation_infer_return_types collaborators self in
    if negb (bool_decide (value_set = ∅)) then
      (* If there are annotations, prefer them over anything else. *)
      Ok value_set
    else
      scan_returns self funcdef false returns
        (value_set ∪ docstrings_infer_return_types collaborators (function_value self)).

(** *** Yields *)

(** Modelled from the spec: [parser_utils.for_stmt_defines_one_name] is
    not among the sources; the specification describes it as "a for-loop
    with exactly one bound loop variable", that is, the target of the
    loop (child 1 of the statement) is a single name. *)
Definition for_stmt_defines_one_name (for_stmt : Node) : result bool :=
  c ← children for_stmt;
  target ← getitem c 1;
  Ok (String.eqb (type target) "name").

(** [ForStmt.get_testlist()]: the expression iterated over. *)
Definition get_testlist (for_stmt : Node) : result Node :=
  c ← children for_stmt;
  getitem c 3.

(** [yields_order[-1][1].append(yield_)]. *)
Definition append_to_last (yields_order : list (option Node * list Node))
    (yield_ : Node) : result (list (option Node * list Node)) :=
  match last yields_order with
  | None => Raise IndexError
  | Some (for_stmt, yields) =>
      Ok (removelast yields_order ++ [(for_stmt, yields ++ [yield_])])
  end.

(** Where a yield sits, as the first loop of [get_yield_lazy_values]
    tells the cases apart from the ancestor [for_stmt] found for it: in a
    simple loop of the function body, in the function body itself, or
    anywhere else. *)
Inductive YieldPosition := InLoop | InBody | Elsewhere.

Definition yield_position (self : FunctionExecutionContext) (for_stmt : Node)
    : result YieldPosition :=
  parent0 ← not_None (parent for_stmt);
  let parent1 :=
    if String.eqb (type parent0) "suite" then parent parent0 else Some parent0 in
  simple ←
    (if String.eqb (type for_stmt) "for_stmt"
        && from_option (λ p, node_eqb p (fv_tree_node (function_value self)))
                       false parent1
     then for_stmt_defines_one_name for_stmt
     else Ok false);
  if simple : bool then Ok InLoop
  else if node_eqb for_stmt (fv_tree_node (function_value self)) then Ok InBody
  else Ok Elsewhere.

(** The first loop of [get_yield_lazy_values]: the yields grouped by
    loop, or [None] when a yield sits where the order is not tracked
    and the function returns through the fallback. *)
Fixpoint order_yields (self : FunctionExecutionContext)
    (for_parents : list (Node * option Node))
    (yields_order : list (option Node * list Node))
    (last_for_stmt : option Node)
    : result (option (list (option Node * list Node))) :=
  match for_parents with
  | [] => Ok (Some yields_order)
  | (yield_, for_stmt) :: rest =>
      for_stmt ← not_None for_stmt;
      position ← yield_position self for_stmt;
      match position with
      | InLoop =>
          yields_order ←
            (if from_option (node_eqb for_stmt) false last_for_stmt
             then append_to_last yields_order yield_
             else Ok (yields_order ++ [(Some for_stmt, [yield_])]));
          order_yields self rest yields_order (Some for_stmt)
      | InBody =>
          order_yields self rest (yields_order ++ [(None, [yield_])]) (Some for_stmt)
      | Elsewhere => Ok None
      end
  end.

(** [for yield_ in yields: for result in self._get_yield_lazy_value(yield_)]. *)
Fixpoint yield_values_of (self : FunctionExecutionContext) (yields : list Node)
    : generated LazyValue :=
  match yields with
  | [] => finished []
  | yield_ :: rest =>
      gen_then (gen_of_result (_get_yield_lazy_value self yield_))
               (yield_values_of self rest)
  end.

(** The execution after a [with predefine_names(self, for_stmt, _)]
    block: the entry of the loop is deleted again. *)
Definition leave_predefine_names (self : FunctionExecutionContext) (for_stmt : Node)
    : FunctionExecutionContext :=
  mkExecution (function_value self) (var_args self)
              (delete (path for_stmt) (execution_predefined_names self)).

(** [str(for_stmt.children[1].value)]. *)
Definition loop_variable (for_stmt : Node) : result string :=
  c ← children for_stmt;
  target ← getitem c 1;
  value target.

(** [for lazy_value in ordered: ...], one turn per element of the
    iterable: the loop variable is predefined, then every yield of the
    loop is evaluated. *)
Fixpoint loop_iterations (self : FunctionExecutionContext) (for_stmt : Node)
    (yields : list Node) (ordered : list LazyValue) : generated LazyValue :=
  match ordered with
  | [] => finished []
  | lazy_value :: rest =>
      match loop_variable for_stmt with
      | Raise e => failed e
      | Ok name =>
          let dct : gmap string ValueSet :=
            {[ name := lazy_infer inference_state lazy_value ]} in
          gen_then
            (yield_values_of (execution_predefine_names self for_stmt dct) yields)
            (loop_iterations (leave_predefine_names self for_stmt) for_stmt yields rest)
      end
  end.

(** The second loop: [for for_stmt, yields in yields_order]. *)
Fixpoint yield_groups (self : FunctionExecutionContext)
    (yields_order : list (option Node * list Node)) : generated LazyValue :=
  match yields_order with
  | [] => finished []
  | (None, yields) :: rest =>
      gen_then (yield_values_of self yields) (yield_groups self rest)
  | (Some for_stmt, yields) :: rest =>
      match get_testlist for_stmt with
      | Raise e => failed e
      | Ok input_node =>
          let ordered :=
            iterate_values inference_state (self_infer_node self input_node) in
          gen_then
            (loop_iterations self for_stmt yields ordered)
            (yield_groups
               (match ordered with
                | [] => self
                | _ => leave_predefine_names self for_stmt
                end) rest)
      end
  end.

(** [get_yield_lazy_values], the decorated body. *)
Definition get_yield_lazy_values (self : FunctionExecutionContext)
    : generated LazyValue :=
  let tree_node := fv_tree_node (function_value self) in
  let for_parents :=
    (λ y, (y, search_ancestor y ["for_stmt"; "funcdef"; "while_stmt"; "if_stmt"]))
      <$> get_yield_exprs collaborators tree_node in
  match order_yields self for_parents [] None with
  | Raise e => failed e
  | Ok None =>
      match get_return_values self true with
      | Raise e => failed e
      | Ok types =>
          if negb (bool_decide (types = ∅)) then finished [LazyKnownValues types]
          else finished []
      end
  | Ok (Some yields_order) => yield_groups self yields_order
  end.

Definition merge_yield_values (self : FunctionExecutionContext) : result ValueSet :=
  let g := get_yield_lazy_values self in
  match failure g with
  | Some e => Raise e
  | None => Ok (from_sets (lazy_infer inference_state <$> items g))
  end.

(** *** Calls *)








(** *** Overload discovery *)

(** [for decorator in decorators: ...] of [_is_overload_decorated]. *)
Fixpoint any_overload_decorator (decorators : list Node) : result bool :=
  match decorators with
  | [] => Ok false
  | decorator :: rest =>
      dc ← children decorator;
      dotted_name ← getitem dc 1;
      if String.eqb (type dotted_name) "name" then
        v ← value dotted_name;
        if String.eqb v "overload" then Ok true
        else any_overload_decorator rest
      else any_overload_decorator rest
  end.

Definition _is_overload_decorated (funcdef : Node) : result bool :=
  p ← not_None (parent funcdef);
  if String.eqb (type p) "decorated" then
    pc ← children p;
    decorators ← getitem pc 0;
    decorators ←
      (if String.eqb (type decorators) "decorator" then Ok [decorators]
       else children decorators);
    any_overload_decorator decorators
  else Ok false.

(** [for name in names: ...]: the definition the search continues from,
    whether an overload was found, and the definitions yielded. *)
Fixpoint overloads_among (names : list Node) (tree_node : Node) (found : bool)
    (yielded : list Node) : result (Node * bool * list Node) :=
  match names with
  | [] => Ok (tree_node, found, yielded)
  | name :: rest =>
      funcdef ← not_None (parent name);
      decorated ←
        (if String.eqb (type funcdef) "funcdef" then _is_overload_decorated funcdef
         else Ok false);
      if decorated : bool then overloads_among rest funcdef true (yielded ++ [funcdef])
      else overloads_among rest tree_node found yielded
  end.

(** [tree_node.name.value] of a function definition. *)
Definition funcdef_name (tree_node : Node) : result string :=
  c ← children tree_node;
  name ← getitem c 1;
  value name.

(** The [while True] loop of [_find_overload_functions]; [None] when
    the fuel does not suffice to leave it. *)
Fixpoint find_overloads_loop (fuel : nat) (value : Context) (tree_node : Node)
    : option (result (list Node)) :=
  match fuel with
  | O => None
  | S fuel' =>
      match funcdef_name tree_node with
      | Raise e => Some (Raise e)
      | Ok name =>
          let names := filter_get collaborators value (start_pos tree_node) name in
          match names with
          | [] => Some (Ok [])
          | _ =>
              match overloads_among names tree_node false [] with
              | Raise e => Some (Raise e)
              | Ok (tree_node', found, yielded) =>
                  if negb found then Some (Ok yielded)
                  else
                    match find_overloads_loop fuel' value tree_node' with
                    | None => None
                    | Some (Raise e) => Some (Raise e)
                    | Some (Ok more) => Some (Ok (yielded ++ more))
                    end
              end
          end
      end
  end.

(** [list(_find_overload_functions(value, tree_node))]. *)
Definition _find_overload_functions (fuel : nat) (value : Context) (tree_node : Node)
    : option (result (list Node)) :=
  if String.eqb (type tree_node) "lambdef" then Some (Ok [])
  else
    match _is_overload_decorated tree_node with
    | Raise e => Some (Raise e)
    | Ok decorated =>
        match find_overloads_loop fuel value tree_node with
        | None => None
        | Some (Raise e) => Some (Raise e)
        | Some (Ok more) =>
            Some (Ok ((if decorated : bool then [tree_node] else []) ++ more))
        end
    end.

Inductive Callable :=
| PlainFunction (f : FunctionValue)
| Overloaded (o : OverloadedFunctionValue).

(** [while parent_context.is_class() or parent_context.is_instance()]. *)
Fixpoint lexical_parent (parent_context0 : Context) : result Context :=
  if is_class parent_context0 || is_instance parent_context0 then
    match parent_context parent_context0 with
    | None => Raise AttributeError
    | Some p => lexical_parent p
    end
  else Ok parent_context0.

(** The local function [create] of [from_context]. *)
Definition create (context parent_context : Context) (tree_node : Node)
    : FunctionValue :=
  if is_class context then mkFunctionValue parent_context tree_node (Some context)
  else mkFunctionValue parent_context tree_node None.

(** [FunctionValue.from_context]. *)
Definition from_context (fuel : nat) (context : Context) (tree_node : Node)
    : option (result Callable) :=
  match _find_overload_functions fuel context tree_node with
  | None => None
  | Some (Raise e) => Some (Raise e)
  | Some (Ok overloaded_funcs) =>
      Some (parent_context ← lexical_parent context;
            let function := create context parent_context tree_node in
            match overloaded_funcs with
            | [] => Ok (PlainFunction function)
            | _ =>
                Ok (Overloaded
                      (mkOverloaded function
                         (create context parent_context <$> overloaded_funcs)))
            end)
  end.

End Functions.

(** ** Concrete trees and collaborators for the examples *)

Module Fixture.
Definition leaf (ty v : string) (line col : nat) : Tree :=
  Leaf ty v (line, col) (line, col + String.length v)%nat.
Definition name_ := leaf "name".
Definition op_ := leaf "operator".
Definition kw_ := leaf "keyword".
Definition number_ := leaf "number".
Definition string_ := leaf "string".
Definition newline_ (line col : nat) : Tree :=
  Leaf "newline" "" (line, col) (S line, 0)%nat.
Definition endmarker_ (line : nat) : Tree :=
  Leaf "endmarker" "" (line, 0)%nat (line, 0)%nat.

Definition lookup_text (table : list (string * ValueSet)) (v : string) : ValueSet :=
  default ∅ (snd <$> List.find (λ p, String.eqb p.1 v) table).

(** Inference of a node: a name is looked up in the predefined names of
    the context and then in [names]; a literal in [literals]; an inner
    node in [nodes], by its path. *)
Definition infer_leaf (names literals : list (string * ValueSet))
    (nodes : list (Path * ValueSet)) (c : Context) (n : Node) : ValueSet :=
  match here n with
  | Leaf ty v _ _ =>
      if String.eqb ty "name" then
        match omap (λ dct : gmap string ValueSet, dct !! v)
                   (map_to_list (predefined_names c)).*2 with
        | vs :: _ => vs
        | [] => lookup_text names v
        end
      else lookup_text literals v
  | BaseNode _ _ =>
      default ∅ (snd <$> List.find (λ p, bool_decide (p.1 = path n)) nodes)
  end.

Definition int_ (z : Z) : Value := CompiledObject (PyInt z).
Definition str_ (s : string) : Value := CompiledObject (PyStr s).

Definition literals : list (string * ValueSet) :=
  [("1", {[ int_ 1 ]}); ("2", {[ int_ 2 ]});
   ("'a'", {[ str_ "a" ]}); ("'x'", {[ str_ "x" ]})].

Definition state (names : list (string * ValueSet))
    (nodes : list (Path * ValueSet))
    (iterated : ValueSet → list LazyValue) : InferenceState :=
  {| infer_node := infer_leaf names literals nodes;
     iterate_values := iterated;
     create_context := λ c _, c;
     execution_allowed := λ _, true;
     infer_call_of_leaf := λ _ _, ∅;
     unpack_arguments := λ _ _, [];
     is_analysis := false |}.

Definition module_context (module_node : Tree) : Context :=
  mkContext (root_node module_node) ModuleContext false ∅ None.

Definition the_node (t : Tree) (p : Path) : Node :=
  mkNode t p (default t (subtree t p)).

Definition enabled : Settings := mkSettings true true.
Definition disabled : Settings := mkSettings false true.

(** Modelled from the spec: the name filter of a scope
    ([filters.ParserTreeFilter], not among the sources) as overload
    discovery uses it, "scan backward through same-named prior definitions
    ... collecting every immediately-preceding definition": asked for a
    name with an [until_position], it answers with the definition of that
    name nearest before the position, if there is one. *)
Definition preceding_definition (module_node : Tree) (until_position : Pos)
    (name : string) : list Node :=
  match last (List.filter
                (λ n, has_value n name
                      && from_option (λ p, String.eqb (type p) "funcdef") false (parent n)
                      && pos_lt (start_pos n) until_position)
                (name_leaves module_node module_node [])) with
  | Some n => [n]
  | None => []
  end.

Definition collaborators (module_node : Tree)
    (params : FunctionExecutionContext → list ExecutedParam * list string)
    (annotations : FunctionExecutionContext → ValueSet)
    (reachability : Node → Reachability)
    (yields returns : Node → list Node) : Collaborators :=
  {| get_executed_params_and_issues := params;
     annotation_infer_return_types := annotations;
     docstrings_infer_return_types := λ _, ∅;
     reachability_check := λ _ _ r, reachability r;
     get_yield_exprs := yields;
     iter_return_stmts := returns;
     filter_get := λ _, preceding_definition module_node;
     version_info := (3, 8)%nat;
     async_generator_of := id;
     coroutine_of := id |}.
End Fixture.

(** [a = []; a.append(1); a.append('x'); a] *)
Module AppendModule.
Import Fixture.

Definition call (line : nat) (arg : Tree) : Tree :=
  let close := (tree_end_pos arg).2 in
  BaseNode "simple_stmt"
    [BaseNode "atom_expr"
       [name_ "a" line 0;
        BaseNode "trailer" [op_ "." line 1; name_ "append" line 2];
        BaseNode "trailer" [op_ "(" line 8; arg; op_ ")" line close]];
     newline_ line (S close)].

Definition assignment : Tree :=
  BaseNode "simple_stmt"
    [BaseNode "expr_stmt"
       [name_ "a" 1 0; op_ "=" 1 2;
        BaseNode "atom" [op_ "[" 1 4; op_ "]" 1 5]];
     newline_ 1 6].

Definition module_node : Tree :=
  BaseNode "file_input"
    [assignment;
     call 2 (number_ "1" 2 9);
     call 3 (string_ "'x'" 3 9);
     BaseNode "simple_stmt" [name_ "a" 4 0; newline_ 4 1];
     endmarker_ 5].

Definition context : Context := module_context module_node.
Definition atom : Node := the_node module_node [0; 0; 2]%nat.
Definition a : Sequence := SequenceLiteralValue context atom "list".
Definition inference_state : InferenceState := state [] [] (λ _, []).
End AppendModule.

(** [a = []; a.append(a)] *)
Module SelfAppendModule.
Import Fixture.

Definition module_node : Tree :=
  BaseNode "file_input"
    [AppendModule.assignment;
     AppendModule.call 2 (name_ "a" 2 9);
     endmarker_ 3].

Definition context : Context := module_context module_node.
Definition atom : Node := the_node module_node [0; 0; 2]%nat.
Definition a : Sequence := SequenceLiteralValue context atom "list".
Definition inference_state : InferenceState :=
  state [("a", {[ TreeValue (path atom) ]})] [] (λ _, []).
End SelfAppendModule.

(** [{'a': 1, 'a': 2}] and [{x: 1}] *)
Module DictModule.
Import Fixture.

Definition module_node : Tree :=
  BaseNode "file_input"
    [BaseNode "simple_stmt"
       [BaseNode "atom"
          [op_ "{" 1 0;
           BaseNode "dictorsetmaker"
             [string_ "'a'" 1 1; op_ ":" 1 4; number_ "1" 1 6; op_ "," 1 7;
              string_ "'a'" 1 9; op_ ":" 1 12; number_ "2" 1 14];
           op_ "}" 1 15];
        newline_ 1 16];
     BaseNode "simple_stmt"
       [BaseNode "atom"
          [op_ "{" 2 0;
           BaseNode "dictorsetmaker"
             [name_ "x" 2 1; op_ ":" 2 2; number_ "1" 2 4];
           op_ "}" 2 5];
        newline_ 2 6];
     endmarker_ 3].

Definition context : Context := module_context module_node.
Definition duplicate_keys : Node := the_node module_node [0; 0]%nat.
(** [x] is not defined anywhere: nothing is inferred for it. *)
Definition inference_state : InferenceState := state [] [] (λ _, []).
End DictModule.

(** Two overloads of [f], the first declared to return an int, the second
    a string, optionally followed by the implementation:
[[
    @overload
    def f(x): ...
    @overload
    def f(x): ...
    def f(x): ...
]] *)
Module OverloadModule.
Import Fixture.

Definition funcdef (line : nat) : Tree :=
  BaseNode "funcdef"
    [kw_ "def" line 0; name_ "f" line 4;
     BaseNode "parameters" [op_ "(" line 5; name_ "x" line 6; op_ ")" line 7];
     op_ ":" line 8;
     BaseNode "simple_stmt" [op_ "..." line 10; newline_ line 13]].

Definition decorated (line : nat) : Tree :=
  BaseNode "decorated"
    [BaseNode "decorator" [op_ "@" line 0; name_ "overload" line 1; newline_ line 9];
     funcdef (S line)].


(** The two overloads and the implementation. *)
Definition module_node : Tree :=
  BaseNode "file_input" [decorated 1; decorated 3; funcdef 5; endmarker_ 6].

Definition first_overload : Path := [0; 1]%nat.
Definition second_overload : Path := [1; 1]%nat.
Definition implementation : Path := [2]%nat.

Definition an_int : Value := int_ 0.
Definition a_str : Value := str_ "".

(** The declared return types. *)
Definition annotations (e : FunctionExecutionContext) : ValueSet :=
  let p := path (fv_tree_node (function_value e)) in
  if bool_decide (p = first_overload) then {[ an_int ]}
  else if bool_decide (p = second_overload) then {[ a_str ]}
  else ∅.

(** Every candidate binds the argument without issues. *)
Definition all_match (e : FunctionExecutionContext) : list ExecutedParam * list string :=
  ([mkExecutedParam "x" true], []).

(** Only the first overload binds the argument. *)
Definition first_matches (e : FunctionExecutionContext)
    : list ExecutedParam * list string :=
  ([mkExecutedParam "x"
      (bool_decide (path (fv_tree_node (function_value e)) = first_overload))], []).

Definition inference_state : InferenceState := state [] [] (λ _, []).
Definition the_collaborators (t : Tree) params : Collaborators :=
  collaborators t params annotations (λ _, UNSURE) (λ _, []) (λ _, []).

Definition arguments : Arguments := [(None, LazyKnownValue (int_ 1))].
End OverloadModule.

(** [[
    def f():
        return 1      # reachability unknown
        return        # reachable
        return 2
]] *)
Module ReturnModule.
Import Fixture.

Definition module_node : Tree :=
  BaseNode "file_input"
    [BaseNode "funcdef"
       [kw_ "def" 1 0; name_ "f" 1 4;
        BaseNode "parameters" [op_ "(" 1 5; op_ ")" 1 6];
        op_ ":" 1 7;
        BaseNode "suite"
          [newline_ 1 8;
           BaseNode "simple_stmt"
             [BaseNode "return_stmt" [kw_ "return" 2 4; number_ "1" 2 11];
              newline_ 2 12];
           BaseNode "simple_stmt" [kw_ "return" 3 4; newline_ 3 10];
           BaseNode "simple_stmt"
             [BaseNode "return_stmt" [kw_ "return" 4 4; number_ "2" 4 11];
              newline_ 4 12]]];
     endmarker_ 5].

Definition funcdef : Node := the_node module_node [0]%nat.
Definition return_1 : Node := the_node module_node [0; 4; 1; 0]%nat.
Definition bare_return : Node := the_node module_node [0; 4; 2; 0]%nat.
Definition return_2 : Node := the_node module_node [0; 4; 3; 0]%nat.

Definition reachability (r : Node) : Reachability :=
  if node_eqb r bare_return then REACHABLE else UNSURE.

Definition inference_state : InferenceState := state [] [] (λ _, []).
Definition the_collaborators (annotations : FunctionExecutionContext → ValueSet)
    : Collaborators :=
  collaborators module_node (λ _, ([], [])) annotations reachability
    (λ _, []) (λ _, [return_1; bare_return; return_2]).

Definition f : FunctionValue :=
  mkFunctionValue (module_context module_node) funcdef None.
Definition execution : FunctionExecutionContext := get_function_execution f [].
End ReturnModule.

(** [[
    def g():
        for x in (1, 2):
            yield x
]] *)
Module YieldModule.
Import Fixture.

Definition module_node : Tree :=
  BaseNode "file_input"
    [BaseNode "funcdef"
       [kw_ "def" 1 0; name_ "g" 1 4;
        BaseNode "parameters" [op_ "(" 1 5; op_ ")" 1 6];
        op_ ":" 1 7;
        BaseNode "suite"
          [newline_ 1 8;
           BaseNode "for_stmt"
             [kw_ "for" 2 4; name_ "x" 2 8; kw_ "in" 2 10;
              BaseNode "atom"
                [op_ "(" 2 13;
                 BaseNode "testlist_comp"
                   [number_ "1" 2 14; op_ "," 2 15; number_ "2" 2 17];
                 op_ ")" 2 18];
              op_ ":" 2 19;
              BaseNode "suite"
                [newline_ 2 20;
                 BaseNode "simple_stmt"
                   [BaseNode "yield_expr" [kw_ "yield" 3 8; name_ "x" 3 14];
                    newline_ 3 15]]]]];
     endmarker_ 4].

Definition funcdef : Node := the_node module_node [0]%nat.
Definition for_stmt : Node := the_node module_node [0; 4; 1]%nat.
Definition iterable : Node := the_node module_node [0; 4; 1; 3]%nat.
Definition yield_expr : Node := the_node module_node [0; 4; 1; 5; 1; 0]%nat.

Definition g : FunctionValue :=
  mkFunctionValue (module_context module_node) funcdef None.
Definition execution : FunctionExecutionContext := get_function_execution g [].

(** The tuple is a tree value; iterating it gives its two entries. *)
Definition the_tuple : Value := TreeValue (path iterable).
Definition tuple_entries : list LazyValue :=
  [LazyTreeValue (as_context execution) (the_node module_node [0; 4; 1; 3; 1; 0]%nat);
   LazyTreeValue (as_context execution) (the_node module_node [0; 4; 1; 3; 1; 2]%nat)].

Definition inference_state : InferenceState :=
  state [] [(path iterable, {[ the_tuple ]})]
        (λ vs, if bool_decide (vs = {[ the_tuple ]}) then tuple_entries else []).
Definition the_collaborators : Collaborators :=
  collaborators module_node (λ _, ([], [])) (λ _, ∅) (λ _, UNSURE)
    (λ _, [yield_expr]) (λ _, []).
End YieldModule.

(** ** Notions used to state the properties *)

(** [k] has the native equality and compares equal to [index]. *)
Definition equals_index (k : Value) (index : PyObj) : bool :=
  match k with
  | CompiledObject a => py_eq a index
  | _ => false
  end.

(** Some value inferred for the key expression equals the index. *)
Definition key_matches (inference_state : InferenceState) (context : Context)
    (index : PyObj) (key : Node) : Prop :=
  ∃ k, k ∈ infer_node inference_state context key ∧ equals_index k index = true.

(** The children of a dict display, one key, colon, value and comma per
    entry, in source order. *)
Definition display_children (es : list (Node * Node * Node * Node)) : list Node :=
  flat_map (λ e, [e.1.1.1; e.1.1.2; e.1.2; e.2]) es.

Definition display_pairs (es : list (Node * Node * Node * Node)) : list Entry :=
  (λ e, KeyValue e.1.1.1 e.1.2) <$> es.

(** The union of what is inferred for the key expressions. *)
Definition key_types (inference_state : InferenceState) (context : Context)
    (kvs : list (Node * Node)) : ValueSet :=
  ⋃ ((λ kv, infer_node inference_state context kv.1) <$> kvs).

(** The return statements the specification has the scan look at: those
    up to and including the first one classified reachable. *)
Fixpoint spec_scanned_returns (check : Node → Reachability) (returns : list Node)
    : list Node :=
  match returns with
  | [] => []
  | r :: rest =>
      if bool_decide (check r = REACHABLE) then [r]
      else r :: spec_scanned_returns check rest
  end.

(** Those among them that contribute: the ones not classified
    unreachable. *)
Definition spec_contributing_returns (check : Node → Reachability)
    (returns : list Node) : list Node :=
  List.filter (λ r, negb (bool_decide (check r = UNREACHABLE)))
              (spec_scanned_returns check returns).

(** The ancestor [get_yield_lazy_values] looks up for a yield. *)
Definition nearest_scope (yield_ : Node) : option Node :=
  search_ancestor yield_ ["for_stmt"; "funcdef"; "while_stmt"; "if_stmt"].


(** The expression of a [yield expr]. *)
Definition yielded_expression (yield_ : Node) : result Node :=
  c ← children yield_;
  getitem c 1.


(** [[
    def g():
        if c:
            yield 1
]] *)
Module ConditionalYieldModule.
Import Fixture.

Definition module_node : Tree :=
  BaseNode "file_input"
    [BaseNode "funcdef"
       [kw_ "def" 1 0; name_ "g" 1 4;
        BaseNode "parameters" [op_ "(" 1 5; op_ ")" 1 6];
        op_ ":" 1 7;
        BaseNode "suite"
          [newline_ 1 8;
           BaseNode "if_stmt"
             [kw_ "if" 2 4; name_ "c" 2 7; op_ ":" 2 8;
              BaseNode "suite"
                [newline_ 2 9;
                 BaseNode "simple_stmt"
                   [BaseNode "yield_expr" [kw_ "yield" 3 8; number_ "1" 3 14];
                    newline_ 3 15]]]]];
     endmarker_ 4].

Definition funcdef : Node := the_node module_node [0]%nat.
Definition yield_expr : Node := the_node module_node [0; 4; 1; 3; 1; 0]%nat.
Definition g : FunctionValue :=
  mkFunctionValue (module_context module_node) funcdef None.
Definition execution : FunctionExecutionContext := get_function_execution g [].
Definition inference_state : InferenceState := state [] [] (λ _, []).
Definition the_collaborators : Collaborators :=
  collaborators module_node (λ _, ([], [])) (λ _, ∅) (λ _, UNSURE)
    (λ _, [yield_expr]) (λ _, []).
End ConditionalYieldModule.

(** ** Further functions of [iterable.py] *)



(** An item of a dict display: [key: value] or a [**mapping]. *)
Inductive DisplayItem :=
| PairItem (key colon value : Node)
| UnpackItem (stars mapping : Node).

Definition item_children (item : DisplayItem) : list Node :=
  match item with
  | PairItem key colon value => [key; colon; value]
  | UnpackItem stars mapping => [stars; mapping]
  end.

Definition item_entries (item : DisplayItem) : list Entry :=
  match item with
  | PairItem key _ value => [KeyValue key value]
  | UnpackItem _ _ => []
  end.

Definition well_formed_item (item : DisplayItem) : Prop :=
  match item with
  | PairItem key colon _ => is_token key "**" = false ∧ is_token colon ":" = true
  | UnpackItem stars _ => is_token stars "**" = true
  end.

(** The children of a dict display whose items are each followed by a
    separator. *)
Definition separated_children (items : list (DisplayItem * Node)) : list Node :=
  flat_map (λ i, item_children i.1 ++ [i.2]) items.

Section MoreContainers.
Variable inference_state : InferenceState.

(** [(infer_node(k), infer_node(v)) for k, v in entries]. *)
Fixpoint inferred_pairs (defining_context : Context) (entries : list Entry)
    : result (list (ValueSet * ValueSet)) :=
  match entries with
  | [] => Ok []
  | Elem _ :: _ => Raise TypeError          (* a node does not unpack *)
  | KeyValue k v :: rest =>
      pairs ← inferred_pairs defining_context rest;
      Ok ((infer_node inference_state defining_context k,
           infer_node inference_state defining_context v) :: pairs)
  end.

(** [SequenceLiteralValue._dict_values]. *)
Definition _dict_values (defining_context : Context) (atom : Node) : result ValueSet :=
  entries ← get_tree_entries_of_atom atom;
  pairs ← inferred_pairs defining_context entries;
  Ok (from_sets pairs.*2).

(** [DictLiteralValue._dict_keys]. *)
Definition _dict_keys (defining_context : Context) (atom : Node) : result ValueSet :=
  entries ← get_tree_entries_of_atom atom;
  pairs ← inferred_pairs defining_context entries;
  Ok (from_sets pairs.*1).

(** [DictLiteralValue.get_mapping_item_values]. *)
Definition get_mapping_item_values (defining_context : Context) (atom : Node)
    : result (ValueSet * ValueSet) :=
  keys ← _dict_keys defining_context atom;
  values ← _dict_values defining_context atom;
  Ok (keys, values).

(** [Sequence.py__getitem__] for a literal: every value of a dict, every
    element of another container. *)
Definition Sequence_py__getitem__ (defining_context : Context) (atom : Node)
    (array_type : string) : result ValueSet :=
  if String.eqb array_type "dict" then _dict_values defining_context atom
  else
    Ok (from_sets (lazy_infer inference_state
                     <$> iterate_values inference_state {[ TreeValue (path atom) ]})).

(** [DictComprehension._dict_keys] and [_dict_values], over the pairs
    that [self._iterate()] gives. *)
Definition DictComprehension__dict_keys (iterated : list (ValueSet * ValueSet))
    : ValueSet := from_sets iterated.*1.
Definition DictComprehension__dict_values (iterated : list (ValueSet * ValueSet))
    : ValueSet := from_sets iterated.*2.

(** [FakeSequence.py__simple_getitem__]; [self_value] is the sequence as
    a value. *)
Definition FakeSequence_py__simple_getitem__ (self_value : Value)
    (lazy_value_list : list LazyValue) (index : PyObj) : result ValueSet :=
  if bool_decide (index = PySlice) then Ok {[ self_value ]}
  else
    lazy_value ← reraise_getitem_errors [IndexError; TypeError]
                   (i ← list_index (length lazy_value_list) index;
                    getitem lazy_value_list i);
    Ok (lazy_infer inference_state lazy_value).

(** [FakeSequence.py__bool__]. *)
Definition FakeSequence_py__bool__ (lazy_value_list : list LazyValue) : bool :=
  negb (length lazy_value_list =? 0)%nat.

(** [MergedArray.py__simple_getitem__]: the index is not looked at. *)
Definition MergedArray_py__simple_getitem__ (arrays : list Sequence)
    (array_type : string) (index : PyObj) (settings : Settings)
    : result ValueSet * Settings :=
  let (g, settings) :=
    py__iter__ inference_state (MergedArray arrays array_type) settings in
  match failure g with
  | Some e => (Raise e, settings)
  | None => (Ok (from_sets (lazy_infer inference_state <$> items g)), settings)
  end.
End MoreContainers.

(** [[
    def g():
        yield 1
        yield 2
]] *)
Module SiblingYieldModule.
Import Fixture.

Definition module_node : Tree :=
  BaseNode "file_input"
    [BaseNode "funcdef"
       [kw_ "def" 1 0; name_ "g" 1 4;
        BaseNode "parameters" [op_ "(" 1 5; op_ ")" 1 6];
        op_ ":" 1 7;
        BaseNode "suite"
          [newline_ 1 8;
           BaseNode "simple_stmt"
             [BaseNode "yield_expr" [kw_ "yield" 2 4; number_ "1" 2 10];
              newline_ 2 11];
           BaseNode "simple_stmt"
             [BaseNode "yield_expr" [kw_ "yield" 3 4; number_ "2" 3 10];
              newline_ 3 11]]];
     endmarker_ 4].

Definition funcdef : Node := the_node module_node [0]%nat.
Definition yield_1 : Node := the_node module_node [0; 4; 1; 0]%nat.
Definition yield_2 : Node := the_node module_node [0; 4; 2; 0]%nat.
Definition g : FunctionValue :=
  mkFunctionValue (module_context module_node) funcdef None.
Definition execution : FunctionExecutionContext := get_function_execution g [].
Definition inference_state : InferenceState := state [] [] (λ _, []).
Definition the_collaborators : Collaborators :=
  collaborators module_node (λ _, ([], [])) (λ _, ∅) (λ _, UNSURE)
    (λ _, [yield_1; yield_2]) (λ _, []).
End SiblingYieldModule.

(** A method [f] of a class nested in a class, with the contexts of the
    two classes and of the module. *)
Module MethodModule.
Import Fixture.

Definition module_node : Tree :=
  BaseNode "file_input"
    [BaseNode "classdef"
       [kw_ "class" 1 0; name_ "A" 1 6; op_ ":" 1 7;
        BaseNode "suite"
          [newline_ 1 8;
           BaseNode "classdef"
             [kw_ "class" 2 4; name_ "B" 2 10; op_ ":" 2 11;
              BaseNode "suite"
                [newline_ 2 12;
                 BaseNode "funcdef"
                   [kw_ "def" 3 8; name_ "f" 3 12;
                    BaseNode "parameters" [op_ "(" 3 13; op_ ")" 3 14];
                    op_ ":" 3 15;
                    BaseNode "simple_stmt" [op_ "..." 3 17; newline_ 3 20]]]]]];
     endmarker_ 4].

Definition module_ctx : Context := module_context module_node.
Definition class_A : Context :=
  mkContext (the_node module_node [0]%nat) ClassContext false ∅ (Some module_ctx).
Definition class_B : Context :=
  mkContext (the_node module_node [0; 3; 1]%nat) ClassContext false ∅ (Some class_A).
Definition method : Node := the_node module_node [0; 3; 1; 3; 1]%nat.
Definition the_collaborators : Collaborators :=
  collaborators module_node (λ _, ([], [])) (λ _, ∅) (λ _, UNSURE)
    (λ _, []) (λ _, []).
End MethodModule.

(** ** [api/helpers.py] *)

(** *** [completion_parts]

    The pattern matched against [path_until_cursor] with [re.S] has
    three groups between [^] and [$]: a lazy run of any characters, a
    full stop or nothing, and an optional word character followed by a
    greedy run of word characters and digits.  The definitions follow
    the backtracking matcher on the characters of the text; the classes
    of word characters and digits are those of the regular-expression
    engine. *)
Section CompletionParts.
Variables (word digit : ascii → bool).

Definition newline : ascii := "010"%char.
Definition full_stop : ascii := "."%char.

(** [$] without [re.M]: at the end of the text, or before a newline that
    ends the text. *)
Definition at_end (rest : list ascii) : bool :=
  match rest with
  | [] => true
  | [c] => Ascii.eqb c newline
  | _ => false
  end.

(** The greedy run before [$]: as many characters of the class as possible, giving
    them back one by one until [$] holds; the characters matched and the
    text left over. *)
Fixpoint class_star_end (rest : list ascii) : option (list ascii * list ascii) :=
  match rest with
  | [] => Some ([], [])
  | c :: rest' =>
      if word c || digit c then
        match class_star_end rest' with
        | Some (m, left_over) => Some (c :: m, left_over)
        | None => if at_end rest then Some ([], rest) else None
        end
      else if at_end rest then Some ([], rest) else None
  end.

(** The third group and [$]: one word character if there is one and the rest
    then matches, none otherwise. *)
Definition like_end (rest : list ascii) : option (list ascii * list ascii) :=
  match rest with
  | c :: rest' =>
      if word c then
        match class_star_end rest' with
        | Some (m, left_over) => Some (c :: m, left_over)
        | None => class_star_end rest
        end
      else class_star_end rest
  | [] => class_star_end rest
  end.

(** The second and third group and [$]: the full stop first, the empty alternative
    second. *)
Definition dot_like_end (rest : list ascii)
    : option (list ascii * list ascii * list ascii) :=
  let without_dot :=
    match like_end rest with
    | Some (like, left_over) => Some ([], like, left_over)
    | None => None
    end in
  match rest with
  | c :: rest' =>
      if Ascii.eqb c full_stop then
        match like_end rest' with
        | Some (like, left_over) => Some ([full_stop], like, left_over)
        | None => without_dot
        end
      else without_dot
  | [] => without_dot
  end.

(** The first group, lazy, with [re.S]: the shortest prefix after which the rest of
    the pattern matches; [consumed] is the prefix tried, reversed. *)
Fixpoint shortest_prefix (consumed rest : list ascii)
    : option (list ascii * list ascii * list ascii) :=
  match dot_like_end rest with
  | Some (dot, like, _) => Some (rev consumed, dot, like)
  | None =>
      match rest with
      | [] => None
      | c :: rest' => shortest_prefix (c :: consumed) rest'
      end
  end.

(** [completion_parts]: [match.groups()], the triple (path, dot, like);
    on [None] the attribute access fails. *)
Definition completion_parts (path_until_cursor : list ascii)
    : result (list ascii * list ascii * list ascii) :=
  not_None (shortest_prefix [] path_until_cursor).
End CompletionParts.

(** The ASCII word characters and digits. *)
Definition ascii_digit (c : ascii) : bool :=
  let n := nat_of_ascii c in (48 <=? n)%nat && (n <=? 57)%nat.
Definition ascii_word (c : ascii) : bool :=
  let n := nat_of_ascii c in
  ascii_digit c || ((65 <=? n)%nat && (n <=? 90)%nat)
  || ((97 <=? n)%nat && (n <=? 122)%nat) || (n =? 95)%nat.

(** *** Import statements that failed to parse

    An error statement of the parser: the stack of (type, nodes) entries
    that were open when parsing failed, the type of the first entry, the
    position of its first node and the start of the token that
    follows. *)
Record ErrorStatement := mkErrorStatement {
  stack : list (string * list Node);
  first_type : string;
  first_pos : Pos;
  next_start_pos : Pos;
}.

(** [isinstance(node, pt.Node)] and [isinstance(node, pt.Name)]. *)
Definition isinstance_Node (n : Node) : bool :=
  match here n with
  | BaseNode _ _ => true
  | Leaf _ _ _ _ => false
  end.

Definition isinstance_Name (n : Node) : bool :=
  match here n with
  | Leaf ty _ _ _ => String.eqb ty "name"
  | BaseNode _ _ => false
  end.

(** The local generator [check_dotted] of
    [importer_from_error_statement]. *)
Definition check_dotted (pos : Pos) (nodes : list Node) : list Node :=
  List.filter (λ name, pos_lt (end_pos name) pos) (every_second nodes).

(** What [importer_from_error_statement] hands to
    [imports.get_importer], together with the flag it returns. *)
Record ImporterRequest := mkImporterRequest {
  import_names : list Node;
  import_level : nat;
  only_modules : bool;
}.

(** One turn of the loop over the nodes of an [import_from] entry. *)
Definition import_from_node (pos : Pos) (request : ImporterRequest)
    (node : Node) : result ImporterRequest :=
  let '(mkImporterRequest names level only) := request in
  if isinstance_Node node && String.eqb (type node) "dotted_name" then
    dotted ← children node;
    Ok (mkImporterRequest (names ++ check_dotted pos (every_second dotted))
          level only)
  else if is_token node "." || is_token node "..." then
    dots ← value node;
    Ok (mkImporterRequest names (level + String.length dots) only)
  else if isinstance_Name node && pos_lt (end_pos node) pos then
    Ok (mkImporterRequest (names ++ [node]) level only)
  else if is_token node "import" && pos_lt (end_pos node) pos then
    Ok (mkImporterRequest names level false)
  else Ok request.

Fixpoint import_from_nodes (pos : Pos) (request : ImporterRequest)
    (nodes : list Node) : result ImporterRequest :=
  match nodes with
  | [] => Ok request
  | node :: rest =>
      request' ← import_from_node pos request node;
      import_from_nodes pos request' rest
  end.

(** The loop over the stack. *)
Fixpoint importer_from_stack (pos : Pos) (request : ImporterRequest)
    (entries : list (string * list Node)) : result ImporterRequest :=
  match entries with
  | [] => Ok request
  | (typ, nodes) :: rest =>
      request' ←
        (if String.eqb typ "dotted_name" then
           Ok (mkImporterRequest
                 (import_names request ++ check_dotted pos nodes)
                 (import_level request) (only_modules request))
         else if String.eqb typ "import_from" then
           import_from_nodes pos request nodes
         else Ok request);
      importer_from_stack pos request' rest
  end.

Definition importer_from_error_statement (error_statement : ErrorStatement)
    (pos : Pos) : result ImporterRequest :=
  importer_from_stack pos (mkImporterRequest [] 0 true)
    (stack error_statement).

(** The test of [check_error_statements]:
    [first_type in ('import_from', 'import_name')
     and first_pos < pos <= next_start_pos]. *)
Definition is_import_at (pos : Pos) (error_statement : ErrorStatement) : bool :=
  (String.eqb (first_type error_statement) "import_from"
   || String.eqb (first_type error_statement) "import_name")
  && pos_lt (first_pos error_statement) pos
  && negb (pos_lt (next_start_pos error_statement) pos).

Fixpoint check_error_statements (error_statement_stacks : list ErrorStatement)
    (pos : Pos) : result (option ImporterRequest) :=
  match error_statement_stacks with
  | [] => Ok None
  | error_statement :: rest =>
      if is_import_at pos error_statement then
        Some <$> importer_from_error_statement error_statement pos
      else check_error_statements rest pos
  end.

(** [from ..pkg.mod imp] with the cursor behind [imp]: the parser stack
    holds one [import_from] entry. *)
Module ImportModule.
Import Fixture.
Definition dotted : Tree :=
  BaseNode "dotted_name"
    [name_ "pkg" 1 7; op_ "." 1 10; name_ "mod" 1 11].
Definition entry_trees : list Tree :=
  [kw_ "from" 1 0; op_ "." 1 5; op_ "." 1 6; dotted; kw_ "import" 1 15].
Definition entry_nodes : list Node :=
  imap (λ i t, mkNode t [] t) entry_trees.
Definition error_statement : ErrorStatement :=
  mkErrorStatement [("import_from", entry_nodes)] "import_from"
    (1, 0)%nat (1, 22)%nat.
Definition cursor : Pos := (1, 22)%nat.
End ImportModule.

(** The dots of a relative import that a node stands for. *)
Definition leading_dots (node : Node) : nat :=
  if is_token node "." then 1
  else if is_token node "..." then 3
  else 0.

(** The dots in the [import_from] entries of a stack. *)
Definition relative_level (entries : list (string * list Node)) : nat :=
  sum_list
    (flat_map
       (λ entry, if String.eqb entry.1 "import_from"
                 then leading_dots <$> entry.2 else [])
       entries).

(** Whether an [import_from] entry of the stack holds the keyword
    [import] before the position. *)
Definition import_keyword_before (pos : Pos)
    (entries : list (string * list Node)) : bool :=
  existsb
    (λ entry, String.eqb entry.1 "import_from"
              && existsb (λ node, is_token node "import"
                                  && pos_lt (end_pos node) pos) entry.2)
    entries.

(** ** Tuple unpacking and comprehensions ([iterable.py]) *)

(** What can end the functions below: an exception of the classes above,
    or the [UnboundLocalError] of a local variable that is read before
    any branch has assigned it. *)
Inductive Thrown :=
| Exception (e : exn)
| UnboundLocalError.

#[global] Instance Thrown_eq_dec : EqDecision Thrown.
Proof. solve_decision. Defined.

Inductive outcome (A : Type) :=
| Done (a : A)
| Threw (e : Thrown).
Arguments Done {A} a.
Arguments Threw {A} e.

#[global] Instance outcome_ret : MRet outcome := λ A a, Done a.
#[global] Instance outcome_bind : MBind outcome := λ A B f m,
  match m with
  | Done a => f a
  | Threw e => Threw e
  end.

(** A call that can only raise one of the exceptions above. *)
Definition lift {A} (r : result A) : outcome A :=
  match r with
  | Ok a => Done a
  | Raise e => Threw (Exception e)
  end.

(** A call of [analysis.add(value, error_name, node, message=...)]; the
    two messages differ in the count [n] they mention. *)
Record Issue := mkIssue {
  issue_context : Context;
  error_name : string;
  issue_node : Node;
  issue_count : nat
}.

Definition tuple_like_target (ty : string) : bool :=
  String.eqb ty "testlist" || String.eqb ty "testlist_comp"
  || String.eqb ty "exprlist" || String.eqb ty "testlist_star_expr".

Definition unsupported_target (ty : string) : bool :=
  String.eqb ty "power" || String.eqb ty "atom_expr"
  || String.eqb ty "star_expr".

Section Unpacking.
Variable inference_state : InferenceState.

(** The turns of the loop of [unpack_tuple_to_dict] after [parts] is
    exhausted: each value left over is reported at [part], the variable
    that holds the last target taken, if any was. *)
Fixpoint too_many_values (value : Context) (part : option Node)
    (left_over : list LazyValue) (n : nat) (issues : list Issue)
    : outcome unit * list Issue :=
  match left_over with
  | [] => (Done (), issues)
  | _ :: left_over' =>
      match part with
      | None => (Threw UnboundLocalError, issues)
      | Some part' =>
          too_many_values value part left_over' (S n)
            (issues ++ [mkIssue value "value-error-too-many-values" part' (S n)])
      end
  end.

(** The loop of [unpack_tuple_to_dict], which pairs the values of
    [types.iterate(exprlist)] with [exprlist.children[::2]]; it is
    written over the children, of which it takes one and skips one.
    [unpack_part] is the recursive call, [part] the variable that holds
    the last target taken, and [n] counts the values. *)
Definition unpack_parts
    (unpack_part : Tree → Path → ValueSet → list Issue
                   → outcome (gmap string ValueSet) * list Issue)
    (value : Context) (rt : Tree) (p : Path) (types : ValueSet)
    : list Tree → nat → option Node → list LazyValue → nat
      → gmap string ValueSet → list Issue
      → outcome (gmap string ValueSet) * list Issue :=
  fix loop parts i part iterated n dct issues {struct parts} :=
    match parts with
    | [] =>
        match too_many_values value part iterated n issues with
        | (Done _, issues') => (Done dct, issues')
        | (Threw e, issues') => (Threw e, issues')
        end
    | next_part :: parts' =>
        let here_part := mkNode rt (p ++ [i]) next_part in
        match iterated with
        | [] =>
            if bool_decide (types ≠ ∅) then
              (Done dct,
               issues ++ [mkIssue value "value-error-too-few-values"
                            here_part n])
            else (Done dct, issues)
        | lazy_value :: iterated' =>
            match unpack_part next_part (p ++ [i])
                    (lazy_infer inference_state lazy_value) issues with
            | (Done update, issues') =>
                loop (match parts' with
                      | [] => parts'
                      | _ :: parts'' => parts''
                      end)
                     (S (S i)) (Some here_part) iterated' (S n)
                     (update ∪ dct) issues'
            | (Threw e, issues') => (Threw e, issues')
            end
        end
    end.

(** [unpack_tuple_to_dict(value, types, exprlist)] for the node
    [exprlist] at [p] in the tree [rt], with the calls of
    [analysis.add] appended to [issues]. *)
Fixpoint unpack_tree (value : Context) (rt : Tree) (t : Tree) (p : Path)
    (types : ValueSet) (issues : list Issue) {struct t}
    : outcome (gmap string ValueSet) * list Issue :=
  let otherwise (ty : string) :=
    if unsupported_target ty then (Done ∅, issues)
    else (Threw (Exception NotImplementedError), issues) in
  match t with
  | Leaf ty v _ _ =>
      if String.eqb ty "name" then (Done {[ v := types ]}, issues)
      else if String.eqb ty "atom" || tuple_like_target ty
      then (Threw (Exception AttributeError), issues)
      else otherwise ty
  | BaseNode ty cs =>
      if String.eqb ty "name" then (Threw (Exception AttributeError), issues)
      else if String.eqb ty "atom" then
        match cs with
        | [] => (Threw (Exception IndexError), issues)
        | bracket :: cs' =>
            if is_token (mkNode rt (p ++ [0%nat]) bracket) "("
               || is_token (mkNode rt (p ++ [0%nat]) bracket) "["
            then
              match cs' with
              | [] => (Threw (Exception IndexError), issues)
              | inner :: _ => unpack_tree value rt inner (p ++ [1%nat]) types issues
              end
            else otherwise ty
        end
      else if tuple_like_target ty then
        unpack_parts (unpack_tree value rt) value rt p types
          cs 0%nat None (iterate_values inference_state types) 0%nat ∅ issues
      else otherwise ty
  end.

Definition unpack_tuple_to_dict (value : Context) (types : ValueSet)
    (exprlist : Node) (issues : list Issue)
    : outcome (gmap string ValueSet) * list Issue :=
  unpack_tree value (root exprlist) (here exprlist) (path exprlist) types issues.
End Unpacking.

(** The calls of [analysis.add] that [unpack_tuple_to_dict] makes for a
    target list [parts] and [count] values, by their number: one report
    at the first target without a value (unless the value set is
    empty), or one report at the last target for each value without a
    target. *)
Definition arity_reports (context : Context) (types : ValueSet)
    (exprlist : Node) (parts : list Node) (count : nat) : list Issue :=
  if (count <? length parts)%nat then
    if bool_decide (types ≠ ∅) then
      [mkIssue context "value-error-too-few-values"
         (default exprlist (parts !! count)) count]
    else []
  else
    (λ n, mkIssue context "value-error-too-many-values"
            (default exprlist (last parts)) n)
    <$> seq (S (length parts)) (count - length parts).

(** The handles of the children [cs] of the node at [p], numbered from
    [i]. *)
Fixpoint handles (rt : Tree) (p : Path) (i : nat) (cs : list Tree) : list Node :=
  match cs with
  | [] => []
  | c :: cs' => mkNode rt (p ++ [i]) c :: handles rt p (S i) cs'
  end.

(** The same calls, turn by turn: [parts] are the targets left, [part]
    the last target taken, [count] the values left and [n] the values
    seen. *)
Fixpoint reports (context : Context) (types : ValueSet) (parts : list Node)
    (part : option Node) (count n : nat) : list Issue :=
  match parts with
  | [] =>
      match part with
      | Some part' =>
          (λ k, mkIssue context "value-error-too-many-values" part' k)
          <$> seq (S n) count
      | None => []
      end
  | next_part :: parts' =>
      match count with
      | O => if bool_decide (types ≠ ∅)
             then [mkIssue context "value-error-too-few-values" next_part n]
             else []
      | S count' => reports context types parts' (Some next_part) count' (S n)
      end
  end.

(** A target that [unpack_tuple_to_dict] handles without looking inside:
    a name, or a node of a type it leaves out ([power], [atom_expr],
    [star_expr]); and the name such a target binds. *)
Definition simple_target (part : Node) : bool :=
  match here part with
  | Leaf ty _ _ _ => String.eqb ty "name" || unsupported_target ty
  | BaseNode ty _ => unsupported_target ty
  end.

Definition bound_name (part : Node) : option string :=
  match here part with
  | Leaf ty v _ _ => if String.eqb ty "name" then Some v else None
  | BaseNode _ _ => None
  end.

(** The targets paired with the values by position, as far as both
    reach; a target that is not a name takes its value and binds
    nothing. *)
Definition bindings (parts : list Node) (values : list ValueSet)
    : list (string * ValueSet) :=
  omap (λ pv, x ← bound_name pv.1; Some (x, pv.2)) (zip parts values).

(** [a, b] as the target list of a [for] loop or an assignment, and
    [a, c[0], b] with a subscript in the middle. *)
Module UnpackModule.
Import Fixture.
Definition exprlist_tree : Tree :=
  BaseNode "exprlist" [name_ "a" 1 4; op_ "," 1 5; name_ "b" 1 7].
Definition exprlist : Node := root_node exprlist_tree.
Definition subscript_tree : Tree :=
  BaseNode "exprlist"
    [name_ "a" 1 4; op_ "," 1 5;
     BaseNode "atom_expr"
       [name_ "c" 1 7;
        BaseNode "trailer" [op_ "[" 1 8; number_ "0" 1 9; op_ "]" 1 10]];
     op_ "," 1 11; name_ "b" 1 13].
Definition subscript : Node := root_node subscript_tree.
Definition context : Context := module_context exprlist_tree.
Definition one : ValueSet := {[ int_ 1 ]}.
Definition text : ValueSet := {[ str_ "x" ]}.
Definition pair : ValueSet := {[ TreeValue [0%nat] ]}.
Definition triple : ValueSet := {[ TreeValue [1%nat] ]}.
Definition inference_state : InferenceState :=
  state [] []
    (λ types, if bool_decide (types = pair)
              then [LazyKnownValues one; LazyKnownValues text]
              else if bool_decide (types = triple)
              then [LazyKnownValues one; LazyKnownValues text;
                    LazyKnownValues one]
              else []).
End UnpackModule.

(** The name leaves below the children [cs] of the node at [p], the
    children numbered from [i]: the inner loop of [name_leaves]. *)
Fixpoint name_leaves_below (rt : Tree) (p : Path) (cs : list Tree) (i : nat)
    : list Node :=
  match cs with
  | [] => []
  | c :: cs' => name_leaves c rt (p ++ [i]) ++ name_leaves_below rt p cs' (S i)
  end.

(** The names that occur in a node. *)
Definition names_in (node : Node) : list Node :=
  name_leaves (here node) (root node) (path node).

(** *** Comprehensions

    The four comprehension classes share [ComprehensionMixin]; only a
    dict comprehension has a value node.  The method caches are not
    modelled: every call computes anew. *)
Inductive ComprehensionClass :=
| ListComprehension
| SetComprehension
| GeneratorComprehension
| DictComprehension (value_node : Node).

Record Comprehension := mkComprehension {
  comprehension_class : ComprehensionClass;
  _defining_context : Context;
  _sync_comp_for_node : Node;
  _entry_node : Node
}.

(** What [_nested] yields: a value set, or for a dict comprehension the
    pair of the value sets of key and value. *)
Inductive Yielded :=
| Values (set_ : ValueSet)
| Item (keys values : ValueSet).

(** A generator run to its end, as [generated], where the end can also
    be an [UnboundLocalError]. *)
Record produced (A : Type) := Produced {
  yielded : list A;
  raised : option Thrown
}.
Arguments Produced {A} yielded raised.
Arguments yielded {A} p.
Arguments raised {A} p.

(** [CompForValue.from_comp_for(parent_context, comp_for)]. *)
Definition from_comp_for (parent_context : Context) (comp_for : Node) : Context :=
  mkContext comp_for CompForContext false ∅ (Some parent_context).

(** What [_nested] reads from the tree before its loop:
    [comp_for.parent.type == 'comp_for'], [comp_for.children[3]] and
    [comp_for.children[1]]. *)
Definition comp_for_parts (comp_for : Node) : result (bool * Node * Node) :=
  parent_ ← not_None (parent comp_for);
  let is_async := String.eqb (type parent_) "comp_for" in
  cs ← children comp_for;
  input_node ← getitem cs 3;
  exprlist ← getitem cs 1;
  Ok (is_async, input_node, exprlist).

Section Comprehensions.
Variable inference_state : InferenceState.
(** [input_types.iterate(cn, is_async=True)] *)
Variable iterate_async : ValueSet → list LazyValue.
(** [parser_utils.get_sync_comp_fors] *)
Variable get_sync_comp_fors : Node → list Node.

(** The [except IndexError] branch of [_nested]. *)
Definition infer_entry (self : Comprehension) (value_ : Context) : Yielded :=
  let iterated := infer_node inference_state value_ (_entry_node self) in
  match comprehension_class self with
  | DictComprehension value_node =>
      Item iterated (infer_node inference_state value_ value_node)
  | _ => Values iterated
  end.

(** [ComprehensionMixin._nested(comp_fors, parent_context)], with the
    calls of [analysis.add] that unpacking makes appended to [issues]. *)
Fixpoint _nested (self : Comprehension) (comp_fors : list Node)
    (parent_context : option Context) (issues : list Issue)
    : produced Yielded * list Issue :=
  match comp_fors with
  | [] => (Produced [] (Some (Exception IndexError)), issues)
  | comp_for :: comp_fors' =>
      match comp_for_parts comp_for with
      | Raise e => (Produced [] (Some (Exception e)), issues)
      | Ok (is_async, input_node, exprlist) =>
          let parent_context := default (_defining_context self) parent_context in
          let input_types := infer_node inference_state parent_context input_node in
          let iterated :=
            if is_async then iterate_async input_types
            else iterate_values inference_state input_types in
          (fix loop (iterated : list LazyValue) (issues : list Issue)
               : produced Yielded * list Issue :=
             match iterated with
             | [] => (Produced [] None, issues)
             | lazy_value :: iterated' =>
                 let types := lazy_infer inference_state lazy_value in
                 match unpack_tuple_to_dict inference_state parent_context
                         types exprlist issues with
                 | (Threw e, issues) => (Produced [] (Some e), issues)
                 | (Done dct, issues) =>
                     let value_ :=
                       predefine_names (from_comp_for parent_context comp_for)
                                       comp_for dct in
                     let continue (results : list Yielded) (issues : list Issue) :=
                       let '(later, issues) := loop iterated' issues in
                       (Produced (results ++ yielded later) (raised later),
                        issues) in
                     match _nested self comp_fors' (Some value_) issues with
                     | (Produced results None, issues) => continue results issues
                     | (Produced results (Some (Exception IndexError)), issues) =>
                         continue (results ++ [infer_entry self value_]) issues
                     | (Produced results (Some e), issues) =>
                         (Produced results (Some e), issues)
                     end
                 end
             end) iterated issues
      end
  end.

(** [_iterate]: [to_list] drains the generator, so that an exception
    loses what was yielded before it. *)
Definition _iterate (self : Comprehension) (issues : list Issue)
    : outcome (list Yielded) * list Issue :=
  let '(results, issues) :=
    _nested self (get_sync_comp_fors (_sync_comp_for_node self)) None issues in
  match raised results with
  | None => (Done (yielded results), issues)
  | Some e => (Threw e, issues)
  end.

(** [py__iter__], of [ComprehensionMixin] and of [DictComprehension]:
    the value sets, or the key sets of the pairs. *)
Definition Comprehension_py__iter__ (self : Comprehension) (issues : list Issue)
    : outcome (list LazyValue) * list Issue :=
  match _iterate self issues with
  | (Done results, issues) =>
      (Done ((λ result, match result with
                        | Values set_ => LazyKnownValues set_
                        | Item keys _ => LazyKnownValues keys
                        end) <$> results),
       issues)
  | (Threw e, issues) => (Threw e, issues)
  end.
End Comprehensions.

(** [comprehension_from_atom(inference_state, value, atom)]. *)
Definition comprehension_from_atom (value : Context) (atom : Node)
    : outcome Comprehension :=
  atom_children ← lift (children atom);
  bracket ← lift (getitem atom_children 0);
  test_list_comp ← lift (getitem atom_children 1);
  let skip_async (sync_comp_for : Node) : outcome Node :=
    if String.eqb (type sync_comp_for) "comp_for"
    then lift (cs ← children sync_comp_for; getitem cs 1)
    else Done sync_comp_for in
  let make (cls : option ComprehensionClass) :=
    comp_children ← lift (children test_list_comp);
    sync_comp_for ← lift (getitem comp_children 1);
    sync_comp_for ← skip_async sync_comp_for;
    match cls with
    | None => Threw UnboundLocalError
    | Some cls =>
        entry_node ← lift (getitem comp_children 0);
        if String.eqb (type sync_comp_for) "sync_comp_for"
        then Done (mkComprehension cls value sync_comp_for entry_node)
        else Threw (Exception AssertionError)
    end in
  if is_token bracket "{" then
    comp_children ← lift (children test_list_comp);
    colon ← lift (getitem comp_children 1);
    if is_token colon ":" then
      sync_comp_for ← lift (getitem comp_children 3);
      sync_comp_for ← skip_async sync_comp_for;
      key_node ← lift (getitem comp_children 0);
      value_node ← lift (getitem comp_children 2);
      if String.eqb (type sync_comp_for) "sync_comp_for"
      then Done (mkComprehension (DictComprehension value_node) value
                   sync_comp_for key_node)
      else Threw (Exception AssertionError)
    else make (Some SetComprehension)
  else if is_token bracket "(" then make (Some GeneratorComprehension)
  else if is_token bracket "[" then make (Some ListComprehension)
  else make None.

(** A clause whose parts can be read and whose target is a name or of a
    type that unpacking leaves out. *)
Definition plain_clause (comp_for : Node) : bool :=
  match comp_for_parts comp_for with
  | Ok (_, _, exprlist) => simple_target exprlist
  | Raise _ => false
  end.

(** The clauses as nested loops: the outermost clause is iterated in
    [context]; each of its values is bound to the target in a context of
    its own, in which the clauses that follow are iterated; after the
    last clause the entry is inferred. *)
Fixpoint nested_loops (inference_state : InferenceState)
    (iterate_async : ValueSet → list LazyValue) (self : Comprehension)
    (comp_fors : list Node) (context : Context) : list Yielded :=
  match comp_fors with
  | [] => [infer_entry inference_state self context]
  | comp_for :: comp_fors' =>
      match comp_for_parts comp_for with
      | Ok (is_async, input_node, exprlist) =>
          let input_types := infer_node inference_state context input_node in
          flat_map
            (λ lazy_value,
               nested_loops inference_state iterate_async self comp_fors'
                 (predefine_names (from_comp_for context comp_for) comp_for
                    (match bound_name exprlist with
                     | Some x => {[ x := lazy_infer inference_state lazy_value ]}
                     | None => ∅
                     end)))
            (if is_async then iterate_async input_types
             else iterate_values inference_state input_types)
      | Raise _ => []
      end
  end.

(** [[y for x in xs for y in x]] and [{k: 1 for k in xs}], where [xs]
    holds two rows, one of [1] and ['x'] and one of [2]. *)
Module ComprehensionModule.
Import Fixture.
Definition inner_clause : Tree :=
  BaseNode "sync_comp_for"
    [kw_ "for" 1 15; name_ "y" 1 19; kw_ "in" 1 21; name_ "x" 1 24].
Definition outer_clause : Tree :=
  BaseNode "sync_comp_for"
    [kw_ "for" 1 3; name_ "x" 1 7; kw_ "in" 1 9; name_ "xs" 1 12;
     inner_clause].
Definition list_atom : Tree :=
  BaseNode "atom"
    [op_ "[" 1 0; BaseNode "testlist_comp" [name_ "y" 1 1; outer_clause];
     op_ "]" 1 25].
Definition dict_clause : Tree :=
  BaseNode "sync_comp_for"
    [kw_ "for" 2 6; name_ "k" 2 10; kw_ "in" 2 12; name_ "xs" 2 15].
Definition dict_atom : Tree :=
  BaseNode "atom"
    [op_ "{" 2 0;
     BaseNode "dictorsetmaker"
       [name_ "k" 2 1; op_ ":" 2 2; number_ "1" 2 4; dict_clause];
     op_ "}" 2 17].
Definition module_node : Tree :=
  BaseNode "file_input" [list_atom; dict_atom; endmarker_ 3].
Definition context : Context := module_context module_node.
Definition the_list : Node := the_node module_node [0%nat].
Definition the_dict : Node := the_node module_node [1%nat].
Definition outer : Node := the_node module_node [0; 1; 1]%nat.
Definition inner : Node := the_node module_node [0; 1; 1; 4]%nat.
Definition rows : ValueSet := {[ TreeValue [0%nat] ]}.
Definition first_row : ValueSet := {[ TreeValue [1%nat] ]}.
Definition second_row : ValueSet := {[ TreeValue [2%nat] ]}.
Definition inference_state : InferenceState :=
  state [("xs", rows)] []
    (λ types, if bool_decide (types = rows)
              then [LazyKnownValues first_row; LazyKnownValues second_row]
              else if bool_decide (types = first_row)
              then [LazyKnownValue (int_ 1); LazyKnownValue (str_ "x")]
              else if bool_decide (types = second_row)
              then [LazyKnownValue (int_ 2)]
              else []).
(** [parser_utils.get_sync_comp_fors] on these trees. *)
Definition get_sync_comp_fors (sync_comp_for : Node) : list Node :=
  if bool_decide (path sync_comp_for = path outer) then [outer; inner]
  else [sync_comp_for].
End ComprehensionModule.

(** * Properties *)

(** ** The array-addition scanner *)

Section ScannerFacts.
Variable inference_state : InferenceState.

(** With the feature switched off the scanner answers with nothing and
    leaves the settings as they are. *)
Lemma scanner_disabled context sequence settings :
  dynamic_array_additions settings = false →
  _check_array_additions inference_state context sequence settings = (Ok [], settings).
Proof. intros Hoff. unfold _check_array_additions. by rewrite Hoff. Qed.

(** The same when the root of the context is a compiled module. *)
Lemma scanner_compiled_module context sequence settings :
  is_compiled (get_root_context context) = true →
  _check_array_additions inference_state context sequence settings = (Ok [], settings).
Proof.
  intros Hc. unfold _check_array_additions. rewrite Hc.
  by rewrite orb_true_r.
Qed.

Lemma search_additions_no_names context module_context sequence search_names added :
  Forall (λ n, get_used_names (tree_node module_context) n = Raise KeyError) search_names →
  search_additions inference_state context module_context sequence search_names added
    = Ok added.
Proof.
  induction 1 as [|n l Hn _ IH]; simpl; [done|]. by rewrite Hn.
Qed.

(** And when none of the method names occurs in the module: the scanner
    then also restores the setting it had switched off. *)
Lemma scanner_no_call_sites context sequence settings :
  (∀ n, n ∈ ["append"; "extend"; "insert"; "add"; "update"] →
        get_used_names (tree_node (get_root_context context)) n = Raise KeyError) →
  _check_array_additions inference_state context sequence settings = (Ok [], settings).
Proof.
  intros Hnone. unfold _check_array_additions.
  destruct (negb _ || _); [done|].
  rewrite search_additions_no_names.
  - by destruct settings.
  - destruct (String.eqb _ _); repeat constructor; apply Hnone; set_solver.
Qed.

(** Iterating a list, set or tuple literal with the feature switched off
    yields its literal elements and nothing else. *)
Lemma py__iter___disabled defining_context atom array_type settings entries :
  String.eqb array_type "dict" = false →
  dynamic_array_additions settings = false →
  get_tree_entries_of_atom atom = Ok entries →
  failure (literal_items defining_context entries) = None →
  py__iter__ inference_state (SequenceLiteralValue defining_context atom array_type) settings
    = (literal_items defining_context entries, settings).
Proof.
  intros Hty Hoff Hentries Hlit. simpl. rewrite Hty, Hentries, Hlit.
  unfold check_array_additions.
  destruct (negb _); simpl.
  - unfold gen_then. rewrite Hlit. simpl. rewrite app_nil_r.
    by destruct (literal_items _ _); simpl in *; subst.
  - rewrite scanner_disabled by done.
    unfold gen_then. rewrite Hlit. simpl. rewrite app_nil_r.
    by destruct (literal_items _ _); simpl in *; subst.
Qed.

(** A name that passes the position test and is followed by a call with
    arguments ends the scan with [NotImplementedError]: the statement
    after the checks raises before anything is inferred. *)
Lemma check_name_raises context sequence add_name name
    trailer power power_children trailer_pos execution_trailer c0 c1 cs :
  pos_lt (start_pos (tree_node context)) (start_pos name) = true →
  pos_lt (start_pos name) (end_pos (tree_node context)) = true →
  parent name = Some trailer →
  parent trailer = Some power →
  children power = Ok power_children →
  index_of power_children trailer = Ok trailer_pos →
  getitem power_children (trailer_pos + 1) = Ok execution_trailer →
  type execution_trailer = "trailer" →
  children execution_trailer = Ok (c0 :: c1 :: cs) →
  is_token c0 "(" = true →
  is_token c1 ")" = false →
  check_name inference_state context sequence add_name name = Raise NotImplementedError.
Proof.
  intros H1 H2 Ht Hp Hc Hi Hg Hty Hec H0 Hc1.
  unfold check_name. rewrite H1, H2, Ht. simpl. rewrite Hp. simpl.
  rewrite Hc. simpl. rewrite Hi. simpl. rewrite Hg, Hty. simpl.
  rewrite Hec. simpl. rewrite H0, Hc1. done.
Qed.
End ScannerFacts.

(** C2. The specification has no core operation abort the analysis: an
    unsupported case is to end in an empty value set or a recoverable
    signal. The scanner does not keep to this. Whenever the feature is
    enabled, the module is not compiled, and the first use of the name
    [append] in the module lies inside the context's span and is
    followed by a call with arguments (the shape of every
    [a.append(x)]), iterating a list literal stops with
    [NotImplementedError]: the loop body raises right after its
    structural checks, and the statements that were to infer the
    receiver and collect the arguments are never reached. *)
Theorem C2_scanner_aborts_at_call_site
    inference_state defining_context atom settings entries name rest
    trailer power power_children trailer_pos execution_trailer c0 c1 cs :
  dynamic_array_additions settings = true →
  is_compiled (get_root_context defining_context) = false →
  get_tree_entries_of_atom atom = Ok entries →
  failure (literal_items defining_context entries) = None →
  get_used_names (tree_node (get_root_context defining_context)) "append"
    = Ok (name :: rest) →
  pos_lt (start_pos (tree_node defining_context)) (start_pos name) = true →
  pos_lt (start_pos name) (end_pos (tree_node defining_context)) = true →
  parent name = Some trailer →
  parent trailer = Some power →
  children power = Ok power_children →
  index_of power_children trailer = Ok trailer_pos →
  getitem power_children (trailer_pos + 1) = Ok execution_trailer →
  type execution_trailer = "trailer" →
  children execution_trailer = Ok (c0 :: c1 :: cs) →
  is_token c0 "(" = true →
  is_token c1 ")" = false →
  failure (py__iter__ inference_state
             (SequenceLiteralValue defining_context atom "list") settings).1
    = Some NotImplementedError.
Proof.
  intros Hon Hmod Hentries Hlit Hnames H1 H2 Ht Hp Hc Hi Hg Hty Hec H0 Hc1.
  simpl. rewrite Hentries, Hlit.
  unfold check_array_additions, _check_array_additions. simpl.
  rewrite Hon, Hmod. simpl. rewrite Hnames. simpl.
  erewrite check_name_raises by eassumption. simpl.
  unfold gen_then. by rewrite Hlit.
Qed.

(** The theorem applies to [a = []; a.append(1); a.append('x'); a]. *)
Lemma C2_scanner_aborts_at_call_site_witness :
  failure (py__iter__ AppendModule.inference_state AppendModule.a Fixture.enabled).1
    = Some NotImplementedError.
Proof.
  set (t := AppendModule.module_node).
  eapply (C2_scanner_aborts_at_call_site
            AppendModule.inference_state AppendModule.context AppendModule.atom
            Fixture.enabled []
            (Fixture.the_node t [1; 0; 1; 1]%nat)
            [Fixture.the_node t [2; 0; 1; 1]%nat]
            (Fixture.the_node t [1; 0; 1]%nat)
            (Fixture.the_node t [1; 0]%nat)
            _ 1%nat
            (Fixture.the_node t [1; 0; 2]%nat));
    reflexivity.
Defined.

(** C1. For the module [a = []; a.append(1); a.append('x'); a] with the
    feature enabled, iterating [a] is specified to yield lazy elements
    for the int and the string. It yields no element at all and ends
    with [NotImplementedError]; the setting
    [dynamic_params_for_other_modules], switched off for the scan, is
    never restored. With the feature disabled the iteration is empty, as
    specified. *)
Theorem C1_append_calls_are_not_collected :
  py__iter__ AppendModule.inference_state AppendModule.a Fixture.enabled
    = (Generated [] (Some NotImplementedError), mkSettings true false)
  ∧ py__iter__ AppendModule.inference_state AppendModule.a Fixture.disabled
    = (Generated [] None, Fixture.disabled).
Proof. split; reflexivity. Qed.

(** C7. For the self-referential container [a = []; a.append(a)]
    inference of the elements of [a] is specified to end with a finite
    value set. It does end, but with an error: the scanner raises
    [NotImplementedError] at the call site, before the recursion guard
    that was to protect the inference of the receiver is entered. *)
Theorem C7_self_append_ends_in_an_error :
  py__iter__ SelfAppendModule.inference_state SelfAppendModule.a Fixture.enabled
    = (Generated [] (Some NotImplementedError), mkSettings true false).
Proof. reflexivity. Qed.

(** ** Dict literals *)

Lemma is_token_exclusive n s s' :
  is_token n s = true → s ≠ s' → is_token n s' = false.
Proof.
  unfold is_token. destruct (here n) as [ty v ? ?|]; [|done].
  intros [_ Hv%String.eqb_eq]%andb_true_iff Hne. subst v.
  apply andb_false_iff. right. by apply String.eqb_neq.
Qed.

(** [get_tree_entries] keeps the entries of a dict display in source
    order. *)
Lemma dictorsetmaker_entries_in_order es :
  Forall (λ e, is_token e.1.1.1 "**" = false ∧ is_token e.1.1.2 ":" = true) es →
  dictorsetmaker_entries (display_children es) = Ok (display_pairs es).
Proof.
  induction 1 as [|[[[k c] v] s] es [Hk Hc] _ IH]; [done|].
  change (display_children ((k, c, v, s) :: es))
    with (k :: c :: v :: s :: display_children es).
  simpl in Hk, Hc. cbn [dictorsetmaker_entries].
  rewrite Hk, (is_token_exclusive c ":" ",") by done. rewrite Hc.
  rewrite IH. done.
Qed.

Section DictFacts.
Variable inference_state : InferenceState.

Lemma key_equals_index_spec ks index :
  key_equals_index ks (create_simple_object index)
    = Ok (existsb (λ k, equals_index k index) ks).
Proof.
  induction ks as [|k ks IH]; [done|].
  destruct k as [a| | |]; simpl; try apply IH.
  destruct (py_eq a index); simpl; [done|apply IH].
Qed.

Lemma key_matches_elements context index key :
  existsb (λ k, equals_index k index)
          (elements (infer_node inference_state context key)) = true
  ↔ key_matches inference_state context index key.
Proof.
  rewrite existsb_exists. unfold key_matches.
  split; intros (k & Hin & Heq); exists k; split; try done.
  - apply elem_of_elements. by apply list_elem_of_In.
  - apply list_elem_of_In. by apply elem_of_elements.
Qed.

Lemma dict_getitem_first_match context index pre key value post :
  (∀ kv, kv ∈ pre → ¬ key_matches inference_state context index kv.1) →
  key_matches inference_state context index key →
  dict_getitem inference_state context
    (uncurry KeyValue <$> (pre ++ (key, value) :: post)) (create_simple_object index)
    = Ok (infer_node inference_state context value).
Proof.
  intros Hpre Hkey. induction pre as [|[k v] pre IH]; simpl.
  - rewrite key_equals_index_spec. simpl.
    apply key_matches_elements in Hkey. by rewrite Hkey.
  - rewrite key_equals_index_spec. simpl.
    destruct (existsb _ _) eqn:Hex.
    + apply key_matches_elements in Hex. exfalso.
      apply (Hpre (k, v)); [left|done].
    + apply IH. intros kv Hin. apply Hpre. by right.
Qed.

Lemma dict_getitem_not_found context index kvs :
  (∀ kv, kv ∈ kvs → ¬ key_matches inference_state context index kv.1) →
  dict_getitem inference_state context (uncurry KeyValue <$> kvs)
    (create_simple_object index) = Raise SimpleGetItemNotFound.
Proof.
  induction kvs as [|[k v] kvs IH]; intros Hnone; simpl; [done|].
  rewrite key_equals_index_spec. simpl.
  destruct (existsb _ _) eqn:Hex.
  - apply key_matches_elements in Hex. exfalso. apply (Hnone (k, v)); [left|done].
  - apply IH. intros kv Hin. apply Hnone. by right.
Qed.

Lemma dict_key_types_spec context kvs types :
  dict_key_types inference_state context (uncurry KeyValue <$> kvs) types
    = Ok (types ∪ key_types inference_state context kvs).
Proof.
  revert types. induction kvs as [|[k v] kvs IH]; intros types; simpl.
  - f_equal. unfold key_types. simpl. by rewrite (right_id_L ∅ (∪)).
  - rewrite IH. f_equal. unfold key_types. simpl. by rewrite (assoc_L (∪)).
Qed.
End DictFacts.

(** C3. Indexing a dict literal goes through the key expressions in
    source order: when the entries are [pre], then [(key, value)], then
    [post], no key of [pre] has an inferred value equal to the index and
    [key] has one, the result is what is inferred for [value], whatever
    follows in [post]; when no key has one, the lookup raises
    [SimpleGetItemNotFound]. *)
Theorem C3_dict_getitem_first_match
    inference_state defining_context atom index kvs :
  get_tree_entries_of_atom atom = Ok (uncurry KeyValue <$> kvs) →
  (∀ pre key value post,
     kvs = pre ++ (key, value) :: post →
     (∀ kv, kv ∈ pre → ¬ key_matches inference_state defining_context index kv.1) →
     key_matches inference_state defining_context index key →
     SequenceLiteralValue_py__simple_getitem__
       inference_state defining_context atom "dict" index
       = Ok (infer_node inference_state defining_context value))
  ∧ ((∀ kv, kv ∈ kvs → ¬ key_matches inference_state defining_context index kv.1) →
     SequenceLiteralValue_py__simple_getitem__
       inference_state defining_context atom "dict" index
       = Raise SimpleGetItemNotFound).
Proof.
  intros Hentries. unfold SequenceLiteralValue_py__simple_getitem__.
  simpl. rewrite Hentries. simpl. split.
  - intros pre key value post -> Hpre Hkey. by apply dict_getitem_first_match.
  - apply dict_getitem_not_found.
Qed.

(** [{'a': 1, 'a': 2}['a']] is [{1}], and [{'a': 1, 'a': 2}['b']]
    raises. *)
Lemma C3_dict_getitem_first_match_witness :
  SequenceLiteralValue_py__simple_getitem__ DictModule.inference_state
    DictModule.context DictModule.duplicate_keys "dict" (PyStr "a")
    = Ok {[ Fixture.int_ 1 ]}
  ∧ SequenceLiteralValue_py__simple_getitem__ DictModule.inference_state
      DictModule.context DictModule.duplicate_keys "dict" (PyStr "b")
      = Raise SimpleGetItemNotFound.
Proof.
  set (t := DictModule.module_node).
  set (k1 := Fixture.the_node t [0; 0; 1; 0]%nat).
  set (v1 := Fixture.the_node t [0; 0; 1; 2]%nat).
  set (k2 := Fixture.the_node t [0; 0; 1; 4]%nat).
  set (v2 := Fixture.the_node t [0; 0; 1; 6]%nat).
  destruct (C3_dict_getitem_first_match DictModule.inference_state
              DictModule.context DictModule.duplicate_keys (PyStr "a")
              [(k1, v1); (k2, v2)] eq_refl) as [Hfirst _].
  destruct (C3_dict_getitem_first_match DictModule.inference_state
              DictModule.context DictModule.duplicate_keys (PyStr "b")
              [(k1, v1); (k2, v2)] eq_refl) as [_ Hnone].
  split.
  - apply (Hfirst [] k1 v1 [(k2, v2)] eq_refl).
    + intros kv Hin. by apply elem_of_nil in Hin.
    + exists (Fixture.str_ "a"). split; [|reflexivity].
      apply elem_of_singleton. reflexivity.
  - assert (infer_node DictModule.inference_state DictModule.context k1
            = {[ Fixture.str_ "a" ]}) as Hk1 by reflexivity.
    assert (infer_node DictModule.inference_state DictModule.context k2
            = {[ Fixture.str_ "a" ]}) as Hk2 by reflexivity.
    apply Hnone. intros kv Hin (k & Hk & Heq).
    assert (k = Fixture.str_ "a") as ->.
    { apply elem_of_cons in Hin as [->|Hin]; cbn [fst] in Hk.
      - rewrite Hk1 in Hk. by apply elem_of_singleton in Hk.
      - apply elem_of_cons in Hin as [->|Hin]; [|by apply elem_of_nil in Hin].
        cbn [fst] in Hk. rewrite Hk2 in Hk. by apply elem_of_singleton in Hk. }
    discriminate Heq.
Defined.

(** A dict comprehension is indexed the same way: the first pair with
    a key equal to the index decides. *)
Lemma DictComprehension_getitem_first_match pre keys values post index :
  Forall (λ kv : ValueSet * ValueSet,
            ∀ k, k ∈ kv.1 → equals_index k index = false) pre →
  (∃ k, k ∈ keys ∧ equals_index k index = true) →
  DictComprehension_py__simple_getitem__ (pre ++ (keys, values) :: post) index
  = Ok values.
Proof.
  intros Hpre (k & Hk & Heq).
  induction Hpre as [|[ks vs] pre Hks _ IH]; simpl.
  - assert (existsb (λ k, equals_index k index) (elements keys) = true) as Hex.
    { apply existsb_exists. exists k. split; [|done].
      apply list_elem_of_In. by apply elem_of_elements. }
    unfold equals_index in Hex. by rewrite Hex.
  - assert (existsb (λ k, equals_index k index) (elements ks) = false) as Hex.
    { apply not_true_is_false. intros (k' & Hin & Hk')%existsb_exists.
      apply list_elem_of_In, elem_of_elements in Hin.
      rewrite (Hks k' Hin) in Hk'. discriminate Hk'. }
    unfold equals_index in Hex. by rewrite Hex.
Qed.




(** ** Synthetic and merged containers *)

(** Induction on containers, with the hypothesis for every array of a
    merged one. *)
Lemma Sequence_nested_ind (P : Sequence → Prop) :
  (∀ c a ty, P (SequenceLiteralValue c a ty)) →
  (∀ ty l, P (FakeSequence ty l)) →
  (∀ arrays ty, Forall P arrays → P (MergedArray arrays ty)) →
  ∀ s, P s.
Proof.
  intros Hlit Hfake Hmerged. fix IH 1.
  intros [c a ty|ty l|arrays ty]; [apply Hlit|apply Hfake|].
  apply Hmerged. induction arrays as [|a arrays IHl]; constructor; [apply IH|exact IHl].
Qed.


Lemma gen_then_nil_l {A} (g : generated A) : gen_then (finished []) g = g.
Proof. by destruct g. Qed.

Section IterationFacts.
Variable inference_state : InferenceState.

Lemma py__iter___merged_nil ty settings :
  py__iter__ inference_state (MergedArray [] ty) settings = (finished [], settings).
Proof. reflexivity. Qed.

Lemma py__iter___merged_cons array arrays ty settings :
  py__iter__ inference_state (MergedArray (array :: arrays) ty) settings
  = let (g, settings1) := py__iter__ inference_state array settings in
    match failure g with
    | Some _ => (g, settings1)
    | None =>
        let (g', settings2) :=
          py__iter__ inference_state (MergedArray arrays ty) settings1 in
        (gen_then g g', settings2)
    end.
Proof. reflexivity. Qed.

(** The scanner reads one setting, [dynamic_array_additions], and never
    changes it. *)
Lemma scanner_reads_one_setting context sequence settings settings' :
  dynamic_array_additions settings' = dynamic_array_additions settings →
  (check_array_additions inference_state context sequence settings').1
    = (check_array_additions inference_state context sequence settings).1
  ∧ dynamic_array_additions
      (check_array_additions inference_state context sequence settings).2
    = dynamic_array_additions settings.
Proof.
  intros Heq. unfold check_array_additions, _check_array_additions.
  rewrite Heq.
  destruct (negb (bool_decide _)); [done|].
  destruct (negb (dynamic_array_additions settings) || _); [done|].
  simpl. by destruct (search_additions _ _ _ _ _ _).
Qed.

(** So does iteration, for every container. *)
Lemma py__iter___reads_one_setting self :
  ∀ settings,
    dynamic_array_additions (py__iter__ inference_state self settings).2
      = dynamic_array_additions settings
    ∧ ∀ settings',
        dynamic_array_additions settings' = dynamic_array_additions settings →
        (py__iter__ inference_state self settings').1
          = (py__iter__ inference_state self settings).1.
Proof.
  induction self as [c a ty|ty l|arrays ty IH] using Sequence_nested_ind;
    intros settings.
  - simpl. destruct (String.eqb ty "dict"); [done|].
    destruct (get_tree_entries_of_atom a) as [entries|e]; [|done].
    destruct (failure (literal_items c entries)); [done|].
    split.
    + destruct (scanner_reads_one_setting c (SequenceLiteralValue c a ty)
                  settings settings eq_refl) as [_ H].
      by destruct (check_array_additions _ _ _ settings).
    + intros settings' Heq.
      destruct (scanner_reads_one_setting c (SequenceLiteralValue c a ty)
                  settings settings' Heq) as [H _].
      destruct (check_array_additions _ _ _ settings),
               (check_array_additions _ _ _ settings'); cbn [fst snd] in *. by subst.
  - done.
  - revert settings. induction IH as [|array arrays Harray _ IHl]; intros settings.
    + done.
    + rewrite py__iter___merged_cons.
      destruct (Harray settings) as [Hkeep Hsame].
      destruct (py__iter__ inference_state array settings) as [g s1] eqn:Hg.
      cbn [fst snd] in Hkeep.
      split.
      * destruct (failure g); [done|].
        destruct (IHl s1) as [Hkeep1 _].
        destruct (py__iter__ inference_state (MergedArray arrays ty) s1); cbn [fst snd] in *.
        congruence.
      * intros settings' Heq. rewrite py__iter___merged_cons.
        specialize (Hsame settings' Heq).
        destruct (Harray settings') as [Hkeep' _].
        destruct (py__iter__ inference_state array settings') as [g' s1'].
        cbn [fst snd] in *. subst g'.
        destruct (failure g); [done|].
        destruct (IHl s1) as [_ Hsame1].
        assert (dynamic_array_additions s1' = dynamic_array_additions s1) as Hs
          by congruence.
        specialize (Hsame1 s1' Hs).
        destruct (py__iter__ inference_state (MergedArray arrays ty) s1),
                 (py__iter__ inference_state (MergedArray arrays ty) s1');
          cbn [fst snd] in *. by subst.
Qed.

Lemma py__iter___merged_fold arrays ty settings :
  (py__iter__ inference_state (MergedArray arrays ty) settings).1
  = foldr (λ array rest, gen_then (py__iter__ inference_state array settings).1 rest)
          (finished []) arrays.
Proof.
  revert settings. induction arrays as [|array arrays IH]; intros settings; [done|].
  rewrite py__iter___merged_cons. cbn [foldr].
  destruct (py__iter___reads_one_setting array settings) as [Hkeep _].
  destruct (py__iter__ inference_state array settings) as [g s1]. cbn [fst snd] in *.
  destruct (failure g) eqn:Hf.
  - unfold gen_then. by rewrite Hf.
  - rewrite <- IH.
    destruct (py__iter___reads_one_setting (MergedArray arrays ty) settings)
      as [_ Hsame].
    rewrite <- (Hsame s1 Hkeep).
    by destruct (py__iter__ inference_state (MergedArray arrays ty) s1).
Qed.

Lemma gen_then_fold_finished (gs : list (generated LazyValue)) :
  Forall (λ g, failure g = None) gs →
  foldr gen_then (finished []) gs = finished (concat (items <$> gs)).
Proof.
  induction 1 as [|g gs Hg _ IH]; [done|]. simpl. rewrite IH.
  destruct g as [l f]. simpl in Hg. subst f. reflexivity.
Qed.
End IterationFacts.

(** C8. A synthetic sequence built from a list of lazy values iterates to
    exactly that list, so that forcing the items of one built from [N]
    known value sets gives back these [N] sets in order. The iteration of
    a merged container is the iterations of its arrays one after the
    other, in the order of the arrays (stopping with the first that
    fails): when all of them finish it is the concatenation of their
    items. *)
Theorem C8_synthetic_and_merged_iteration inference_state :
  (∀ array_type lazy_value_list settings,
     py__iter__ inference_state (FakeSequence array_type lazy_value_list) settings
       = (finished lazy_value_list, settings))
  ∧ (∀ array_type (sets : list ValueSet) settings,
       lazy_infer inference_state
         <$> items (py__iter__ inference_state
                      (FakeSequence array_type (LazyKnownValues <$> sets)) settings).1
       = sets)
  ∧ (∀ arrays array_type settings,
       (py__iter__ inference_state (MergedArray arrays array_type) settings).1
       = foldr gen_then (finished [])
           ((λ array, (py__iter__ inference_state array settings).1) <$> arrays))
  ∧ (∀ arrays array_type settings,
       Forall (λ array, failure (py__iter__ inference_state array settings).1 = None)
              arrays →
       (py__iter__ inference_state (MergedArray arrays array_type) settings).1
       = finished
           (concat ((λ array, items (py__iter__ inference_state array settings).1)
                      <$> arrays))).
Proof.
  assert (∀ arrays array_type settings,
       (py__iter__ inference_state (MergedArray arrays array_type) settings).1
       = foldr gen_then (finished [])
           ((λ array, (py__iter__ inference_state array settings).1) <$> arrays))
    as Hfold.
  { intros arrays ty settings. rewrite py__iter___merged_fold.
    induction arrays as [|a arrays IH]; simpl; [done|by rewrite IH]. }
  split; [done|]. split; [|split; [exact Hfold|]].
  - intros ty sets settings. simpl.
    rewrite <- list_fmap_compose.
    induction sets as [|s sets IH]; simpl; [done|by f_equal].
  - intros arrays ty settings Hall. rewrite Hfold.
    rewrite gen_then_fold_finished.
    + by rewrite <- list_fmap_compose.
    + by apply Forall_fmap.
Qed.

(** Merging the synthetic sequences of [{1}] and of [{2}; {1}]. *)
Lemma C8_synthetic_and_merged_iteration_witness :
  let one := LazyKnownValues {[ Fixture.int_ 1 ]} in
  let two := LazyKnownValues {[ Fixture.int_ 2 ]} in
  (py__iter__ AppendModule.inference_state
     (MergedArray [FakeSequence "list" [one]; FakeSequence "list" [two; one]] "list")
     Fixture.enabled).1
  = finished [one; two; one].
Proof.
  intros one two.
  apply (proj2 (proj2 (proj2
           (C8_synthetic_and_merged_iteration AppendModule.inference_state)))
           [FakeSequence "list" [one]; FakeSequence "list" [two; one]]
           "list" Fixture.enabled).
  repeat constructor.
Defined.

(** ** Return values *)

Section ReturnFacts.
Variable inference_state : InferenceState.
Variable collaborators : Collaborators.

(** The loop with its [break] computes the union over the contributing
    statements of the specification. *)
Lemma scan_returns_spec self funcdef check_yields vals returns : ∀ value_set,
  (∀ r, r ∈ spec_contributing_returns
              (reachability_check collaborators self funcdef) returns →
        return_contribution inference_state self check_yields r = Ok (vals r)) →
  scan_returns inference_state collaborators self funcdef check_yields returns value_set
  = Ok (value_set
        ∪ ⋃ (vals <$> spec_contributing_returns
                       (reachability_check collaborators self funcdef) returns)).
Proof.
  unfold spec_contributing_returns.
  induction returns as [|r returns IH]; intros value_set; simpl.
  - intros _. by rewrite (right_id_L ∅ (∪)).
  - destruct (reachability_check collaborators self funcdef r) eqn:Hcheck;
      simpl; rewrite ?Hcheck; simpl; intros Hvals.
    + rewrite (Hvals r) by left. simpl.
      by rewrite (right_id_L ∅ (∪)).
    + apply IH. exact Hvals.
    + rewrite (Hvals r) by left. simpl. rewrite IH.
      * by rewrite (assoc_L (∪)).
      * intros r' Hr'. apply Hvals. by right.
Qed.

(** Statements before the first reachable one are all scanned. *)
Lemma scan_returns_app self funcdef check_yields pre rest : ∀ value_set value_set',
  Forall (λ r, reachability_check collaborators self funcdef r ≠ REACHABLE) pre →
  scan_returns inference_state collaborators self funcdef check_yields pre value_set
    = Ok value_set' →
  scan_returns inference_state collaborators self funcdef check_yields
    (pre ++ rest) value_set
  = scan_returns inference_state collaborators self funcdef check_yields rest value_set'.
Proof.
  induction pre as [|r pre IH]; intros value_set value_set' Hpre Hscan; simpl in *.
  - by inversion Hscan.
  - apply Forall_cons in Hpre as [Hr Hpre].
    destruct (bool_decide (_ = UNREACHABLE)); simpl in *.
    + rewrite bool_decide_eq_false_2 in * by done. by apply IH.
    + destruct (return_contribution _ _ _ r) as [vs|e]; simpl in *; [|done].
      rewrite bool_decide_eq_false_2 in * by done. by apply IH.
Qed.

(** A [return] without an expression is the keyword leaf itself: it has
    no children, and the builtin [None] is what it stands for. *)
Lemma bare_return_contribution self r s e :
  here r = Leaf "keyword" "return" s e →
  return_contribution inference_state self false r = Ok {[ builtin_None ]}.
Proof. intros Hr. unfold return_contribution, children. by rewrite Hr. Qed.
End ReturnFacts.

(** C5. For a function definition (not a lambda): a non-empty set from
    the annotation subsystem is the result, whatever the docstring says
    and whatever return statements there are; otherwise the result is the
    docstring hints together with the values of the return statements
    that are scanned and not classified unreachable, the scan ending
    with the first statement classified reachable. *)
Theorem C5_return_values inference_state collaborators self vals :
  let funcdef := fv_tree_node (function_value self) in
  let check := reachability_check collaborators self funcdef in
  let annotated := annotation_infer_return_types collaborators self in
  let returns := iter_return_stmts collaborators funcdef in
  type funcdef ≠ "lambdef" →
  (annotated ≠ ∅ →
     get_return_values inference_state collaborators self false = Ok annotated)
  ∧ (annotated = ∅ →
     (∀ r, r ∈ spec_contributing_returns check returns →
           return_contribution inference_state self false r = Ok (vals r)) →
     get_return_values inference_state collaborators self false
     = Ok (docstrings_infer_return_types collaborators (function_value self)
           ∪ ⋃ (vals <$> spec_contributing_returns check returns))).
Proof.
  intros funcdef check annotated returns Hdef.
  unfold get_return_values. fold funcdef. fold annotated.
  apply String.eqb_neq in Hdef. rewrite Hdef. split.
  - intros Hann. by rewrite bool_decide_eq_false_2.
  - intros Hann Hvals. rewrite bool_decide_eq_true_2 by done. simpl.
    rewrite (scan_returns_spec _ _ _ _ _ vals) by exact Hvals.
    rewrite Hann. by rewrite (left_id_L ∅ (∪)).
Qed.

(** For [def f(): return 1; return; return 2] with the second statement
    reachable: the annotation alone when there is one, and the values of
    the first two statements when there is none. *)
Lemma C5_return_values_witness :
  get_return_values ReturnModule.inference_state
    (ReturnModule.the_collaborators (λ _, {[ Fixture.str_ "a" ]}))
    ReturnModule.execution false = Ok {[ Fixture.str_ "a" ]}
  ∧ get_return_values ReturnModule.inference_state
      (ReturnModule.the_collaborators (λ _, ∅))
      ReturnModule.execution false = Ok {[ Fixture.int_ 1; builtin_None ]}.
Proof.
  set (vals := λ r : Node,
         if node_eqb r ReturnModule.return_1 then ({[ Fixture.int_ 1 ]} : ValueSet)
         else {[ builtin_None ]}).
  assert (type (fv_tree_node (function_value ReturnModule.execution)) ≠ "lambdef")
    as Hdef by discriminate.
  split.
  - refine (proj1 (C5_return_values ReturnModule.inference_state
                     (ReturnModule.the_collaborators (λ _, {[ Fixture.str_ "a" ]}))
                     ReturnModule.execution vals Hdef) _).
    intros Hempty. apply (f_equal size) in Hempty. discriminate Hempty.
  - refine (proj2 (C5_return_values ReturnModule.inference_state
                     (ReturnModule.the_collaborators (λ _, ∅))
                     ReturnModule.execution vals Hdef) eq_refl _).
    intros r Hr.
    apply elem_of_cons in Hr as [->|Hr]; [reflexivity|].
    apply elem_of_cons in Hr as [->|Hr]; [reflexivity|].
    by apply elem_of_nil in Hr.
Defined.

(** C10. A [return] without an expression contributes the builtin [None]
    and nothing else; when it is classified reachable and the scan gets
    to it, the result of the execution is what the statements before it
    gave, and [None]. *)
Theorem C10_bare_return_is_None
    inference_state collaborators self pre r post s e value_set :
  let funcdef := fv_tree_node (function_value self) in
  type funcdef ≠ "lambdef" →
  annotation_infer_return_types collaborators self = ∅ →
  iter_return_stmts collaborators funcdef = pre ++ r :: post →
  here r = Leaf "keyword" "return" s e →
  reachability_check collaborators self funcdef r = REACHABLE →
  Forall (λ r', reachability_check collaborators self funcdef r' ≠ REACHABLE) pre →
  scan_returns inference_state collaborators self funcdef false pre
    (docstrings_infer_return_types collaborators (function_value self))
    = Ok value_set →
  return_contribution inference_state self false r = Ok {[ builtin_None ]}
  ∧ get_return_values inference_state collaborators self false
    = Ok (value_set ∪ {[ builtin_None ]}).
Proof.
  intros funcdef Hdef Hann Hreturns Hr Hcheck Hpre Hscan.
  pose proof (bare_return_contribution inference_state self r s e Hr) as Hnone.
  split; [exact Hnone|].
  unfold get_return_values. fold funcdef.
  apply String.eqb_neq in Hdef. rewrite Hdef, Hann.
  rewrite bool_decide_eq_true_2 by done. simpl.
  rewrite (left_id_L ∅ (∪)), Hreturns.
  rewrite (scan_returns_app _ _ _ _ _ pre (r :: post) _ value_set) by done.
  cbn [scan_returns]. rewrite Hcheck, Hnone. reflexivity.
Qed.

(** In [def f(): return 1; return; return 2] the bare [return] is
    reachable: the result is [{1, None}]. *)
Lemma C10_bare_return_is_None_witness :
  return_contribution ReturnModule.inference_state ReturnModule.execution false
    ReturnModule.bare_return = Ok {[ builtin_None ]}
  ∧ get_return_values ReturnModule.inference_state
      (ReturnModule.the_collaborators (λ _, ∅)) ReturnModule.execution false
    = Ok ({[ Fixture.int_ 1 ]} ∪ {[ builtin_None ]}).
Proof.
  apply (C10_bare_return_is_None ReturnModule.inference_state
           (ReturnModule.the_collaborators (λ _, ∅)) ReturnModule.execution
           [ReturnModule.return_1] ReturnModule.bare_return [ReturnModule.return_2]
           (3, 4)%nat (3, 10)%nat {[ Fixture.int_ 1 ]}).
  - discriminate.
  - reflexivity.
  - reflexivity.
  - reflexivity.
  - reflexivity.
  - repeat constructor. discriminate.
  - reflexivity.
Defined.

(** ** Overloads *)

Section OverloadFacts.
Variable inference_state : InferenceState.
Variable collaborators : Collaborators.



(** Discovery yields the definition itself first when it carries the
    marker, whatever the name filter answers afterwards. *)
Lemma discovery_starts_with_the_definition fuel value tree_node found :
  String.eqb (type tree_node) "lambdef" = false →
  _is_overload_decorated tree_node = Ok true →
  _find_overload_functions collaborators fuel value tree_node = Some (Ok found) →
  ∃ more, found = tree_node :: more.
Proof.
  intros Hdef Hdec. unfold _find_overload_functions. rewrite Hdef, Hdec.
  destruct (find_overloads_loop _ _ _ _) as [[more|e]|]; intros [=<-].
  by exists more.
Qed.
End OverloadFacts.




(** The same with the implementation after the two overloads: the
    candidates are found from the implementation backward. *)
Example overloads_before_an_implementation :
  let t := OverloadModule.module_node in
  let cs := OverloadModule.the_collaborators t OverloadModule.all_match in
  let candidate := λ p, mkFunctionValue (Fixture.module_context t)
                                        (Fixture.the_node t p) None in
  from_context cs 3 (Fixture.module_context t)
    (Fixture.the_node t OverloadModule.implementation)
  = Some (Ok (Overloaded
                (mkOverloaded (candidate OverloadModule.implementation)
                   [candidate OverloadModule.second_overload;
                    candidate OverloadModule.first_overload]))).
Proof. reflexivity. Qed.

(** ** Yields *)



Section YieldFacts.
Variable inference_state : InferenceState.
Variable collaborators : Collaborators.





(** The yields of a loop for one turn, when they are plain
    [yield expr]: lazy values over the execution as predefined for
    that turn. *)
Lemma yield_values_of_plain self yields exprs :
  Forall2 (λ y expr, String.eqb (type y) "keyword" = false
                     ∧ yielded_expression y = Ok expr
                     ∧ String.eqb (type expr) "yield_arg" = false) yields exprs →
  yield_values_of inference_state self yields
  = finished (LazyTreeValue (as_context self) <$> exprs).
Proof.
  induction 1 as [|y expr yields exprs (Hkw & Hexpr & Harg) _ IH]; simpl; [done|].
  rewrite IH. unfold _get_yield_lazy_value. rewrite Hkw.
  unfold yielded_expression in Hexpr.
  destruct (children y) as [c|]; simpl in *; [|done].
  rewrite Hexpr. simpl. by rewrite Harg.
Qed.


End YieldFacts.



(** Forced, the two lazy values are [{1}] and then [{2}], and the merged
    result is [{1, 2}]. *)
Example yield_in_loop_per_iteration :
  lazy_infer YieldModule.inference_state
    <$> items (get_yield_lazy_values YieldModule.inference_state
                 YieldModule.the_collaborators YieldModule.execution)
  = [{[ Fixture.int_ 1 ]}; {[ Fixture.int_ 2 ]}]
  ∧ merge_yield_values YieldModule.inference_state YieldModule.the_collaborators
      YieldModule.execution
    = Ok {[ Fixture.int_ 1; Fixture.int_ 2 ]}.
Proof. split; reflexivity. Qed.

(** For [def g(): if c: yield 1] the yield lies in a conditional: the
    generator yields the aggregate [{1}] as one lazy value. *)
Example yield_in_conditional_is_unordered :
  nearest_scope ConditionalYieldModule.yield_expr
    = Some (Fixture.the_node ConditionalYieldModule.module_node [0; 4; 1]%nat)
  ∧ get_yield_lazy_values ConditionalYieldModule.inference_state
      ConditionalYieldModule.the_collaborators ConditionalYieldModule.execution
    = finished [LazyKnownValues {[ Fixture.int_ 1 ]}].
Proof. split; reflexivity. Qed.

(** * Further properties *)

(** ** What the scanner never does *)

Section ScannerNeverCollects.
Variable inference_state : InferenceState.

Lemma check_name_continue_or_raise context sequence add_name name :
  check_name inference_state context sequence add_name name = Ok []
  ∨ ∃ e, check_name inference_state context sequence add_name name = Raise e.
Proof.
  unfold check_name.
  destruct (negb _); [by left|].
  destruct (parent name) as [trailer|]; simpl; [|by right; eexists].
  destruct (parent trailer) as [power|]; simpl; [|by right; eexists].
  destruct (children power) as [pc|]; simpl; [|by right; eexists].
  destruct (index_of pc trailer) as [i|]; simpl; [|by right; eexists].
  destruct (getitem pc (i + 1)) as [et|[]]; try (by right; eexists); [|by left].
  destruct (negb (String.eqb (type et) "trailer")); simpl; [by left|].
  destruct (children et) as [c|]; simpl; [|by right; eexists].
  destruct (getitem c 0) as [c0|]; simpl; [|by right; eexists].
  destruct (negb (is_token c0 "(")); simpl; [by left|].
  destruct (getitem c 1) as [c1|]; simpl; [|by right; eexists].
  destruct (is_token c1 ")"); simpl; [by left|by right; eexists].
Qed.

Lemma check_names_keep context sequence add_name names : ∀ added_types r,
  check_names inference_state context sequence add_name names added_types = Ok r →
  r = added_types.
Proof.
  induction names as [|name names IH]; intros added r; simpl.
  - by intros [=].
  - destruct (check_name_continue_or_raise context sequence add_name name)
      as [-> | [e ->]]; simpl; [|done].
    rewrite (right_id_L [] (++)). apply IH.
Qed.

Lemma search_additions_keep context module_context sequence search_names :
  ∀ added_types r,
    search_additions inference_state context module_context sequence
      search_names added_types = Ok r →
    r = added_types.
Proof.
  induction search_names as [|n l IH]; intros added r; simpl.
  - by intros [=].
  - destruct (get_used_names _ n) as [names|[]]; try done; [|apply IH].
    destruct (check_names _ _ _ _ names added) as [added'|] eqn:Hnames;
      simpl; [|done].
    apply check_names_keep in Hnames as ->. apply IH.
Qed.

Lemma scanner_outcome context sequence settings :
  match _check_array_additions inference_state context sequence settings with
  | (Ok added_types, settings') => added_types = [] ∧ settings' = settings
  | (Raise _, settings') =>
      settings' = mkSettings (dynamic_array_additions settings) false
  end.
Proof.
  unfold _check_array_additions.
  destruct (negb _ || _); [done|].
  destruct (search_additions _ _ _ _ _ _) as [added|] eqn:Hsearch; [|done].
  apply search_additions_keep in Hsearch as ->. by destruct settings.
Qed.

End ScannerNeverCollects.

(** X1. The scanner never reports an addition. When it returns, it
    returns nothing and has put the settings back as they were; when it
    does not, it leaves [dynamic_params_for_other_modules] switched off:
    every use of a method name that passes its checks makes it raise. *)
Theorem X1_scanner_never_collects inference_state context sequence settings :
  match _check_array_additions inference_state context sequence settings with
  | (Ok added_types, settings') => added_types = [] ∧ settings' = settings
  | (Raise _, settings') =>
      dynamic_array_additions settings' = dynamic_array_additions settings
      ∧ dynamic_params_for_other_modules settings' = false
  end.
Proof.
  pose proof (scanner_outcome inference_state context sequence settings) as H.
  destruct (_check_array_additions _ _ _ _) as [[added|e] settings']; [done|].
  by subst.
Qed.





(** ** Indexing a list, set or tuple literal *)

Lemma list_index_in_range len i :
  (i < len)%nat →
  list_index len (PyInt (Z.of_nat i)) = Ok i
  ∧ list_index len (PyInt (Z.of_nat i - Z.of_nat len)) = Ok i.
Proof.
  intros Hi. unfold list_index. split.
  - rewrite bool_decide_eq_true_2 by lia. by rewrite Nat2Z.id.
  - rewrite bool_decide_eq_false_2 by lia.
    rewrite bool_decide_eq_true_2 by lia. f_equal. lia.
Qed.

Lemma list_index_out_of_range len z :
  (Z.of_nat len ≤ z ∨ z < - Z.of_nat len)%Z →
  list_index len (PyInt z) = Raise IndexError.
Proof.
  intros Hz. unfold list_index.
  rewrite bool_decide_eq_false_2 by lia. by rewrite bool_decide_eq_false_2 by lia.
Qed.

(** X4. Indexing a list, set or tuple literal with a position in range
    gives what is inferred for the entry at that position; a negative
    index counts from the end, as in Python. *)
Theorem X4_sequence_getitem_in_range
    inference_state defining_context atom array_type nodes i node :
  String.eqb array_type "dict" = false →
  get_tree_entries_of_atom atom = Ok (Elem <$> nodes) →
  nodes !! i = Some node →
  SequenceLiteralValue_py__simple_getitem__ inference_state defining_context atom
    array_type (PyInt (Z.of_nat i))
  = Ok (infer_node inference_state defining_context node)
  ∧ SequenceLiteralValue_py__simple_getitem__ inference_state defining_context atom
      array_type (PyInt (Z.of_nat i - Z.of_nat (length nodes)))
    = Ok (infer_node inference_state defining_context node).
Proof.
  intros Hdict Hentries Hnode.
  pose proof (lookup_lt_Some _ _ _ Hnode) as Hlt.
  destruct (list_index_in_range (length nodes) i Hlt) as [Hpos Hneg].
  unfold SequenceLiteralValue_py__simple_getitem__.
  rewrite Hdict, Hentries. cbn -[list_index Z.of_nat Z.sub getitem].
  rewrite length_fmap, Hpos, Hneg. cbn -[getitem].
  unfold getitem. rewrite list_lookup_fmap, Hnode. simpl. done.
Qed.

(** The tuple [(1, 2)]: index [1] and index [-1] both give [{2}]. *)
Lemma X4_sequence_getitem_in_range_witness :
  SequenceLiteralValue_py__simple_getitem__ YieldModule.inference_state
    (Fixture.module_context YieldModule.module_node) YieldModule.iterable
    "tuple" (PyInt 1) = Ok {[ Fixture.int_ 2 ]}
  ∧ SequenceLiteralValue_py__simple_getitem__ YieldModule.inference_state
      (Fixture.module_context YieldModule.module_node) YieldModule.iterable
      "tuple" (PyInt (-1)) = Ok {[ Fixture.int_ 2 ]}.
Proof.
  set (t := YieldModule.module_node).
  apply (X4_sequence_getitem_in_range YieldModule.inference_state
           (Fixture.module_context t) YieldModule.iterable "tuple"
           [Fixture.the_node t [0; 4; 1; 3; 1; 0]%nat;
            Fixture.the_node t [0; 4; 1; 3; 1; 2]%nat]
           1%nat (Fixture.the_node t [0; 4; 1; 3; 1; 2]%nat));
    reflexivity.
Defined.

(** X5. Indexing a list, set or tuple literal never lets [IndexError] or
    [TypeError] out: a position out of range, a string or [None] as
    index, and a literal whose entries cannot be read all end in
    [SimpleGetItemNotFound]. A slice gives the literal itself, without
    looking at the entries. *)
Theorem X5_sequence_getitem_not_found
    inference_state defining_context atom array_type :
  String.eqb array_type "dict" = false →
  (∀ entries z,
     get_tree_entries_of_atom atom = Ok entries →
     (Z.of_nat (length entries) ≤ z ∨ z < - Z.of_nat (length entries))%Z →
     SequenceLiteralValue_py__simple_getitem__ inference_state defining_context atom
       array_type (PyInt z) = Raise SimpleGetItemNotFound)
  ∧ (∀ entries index,
       get_tree_entries_of_atom atom = Ok entries →
       (index = PyNone ∨ ∃ s, index = PyStr s) →
       SequenceLiteralValue_py__simple_getitem__ inference_state defining_context atom
         array_type index = Raise SimpleGetItemNotFound)
  ∧ (∀ index,
       get_tree_entries_of_atom atom = Raise IndexError →
       index ≠ PySlice →
       SequenceLiteralValue_py__simple_getitem__ inference_state defining_context atom
         array_type index = Raise SimpleGetItemNotFound)
  ∧ SequenceLiteralValue_py__simple_getitem__ inference_state defining_context atom
      array_type PySlice = Ok {[ TreeValue (path atom) ]}.
Proof.
  intros Hdict. unfold SequenceLiteralValue_py__simple_getitem__. rewrite Hdict.
  repeat split.
  - intros entries z Hentries Hz. rewrite Hentries. cbn -[list_index].
    by rewrite list_index_out_of_range.
  - intros entries index Hentries [-> | [s ->]]; by rewrite Hentries.
  - intros index Hentries Hindex. rewrite Hentries.
    by rewrite bool_decide_eq_false_2.
Qed.

(** The tuple [(1, 2)] has no entry [2] and none for ['a']. *)
Lemma X5_sequence_getitem_not_found_witness :
  SequenceLiteralValue_py__simple_getitem__ YieldModule.inference_state
    (Fixture.module_context YieldModule.module_node) YieldModule.iterable
    "tuple" (PyInt 2) = Raise SimpleGetItemNotFound
  ∧ SequenceLiteralValue_py__simple_getitem__ YieldModule.inference_state
      (Fixture.module_context YieldModule.module_node) YieldModule.iterable
      "tuple" (PyStr "a") = Raise SimpleGetItemNotFound.
Proof.
  set (t := YieldModule.module_node).
  destruct (X5_sequence_getitem_not_found YieldModule.inference_state
              (Fixture.module_context t) YieldModule.iterable "tuple" eq_refl)
    as (Hrange & Htype & _).
  split.
  - apply (Hrange [Elem (Fixture.the_node t [0; 4; 1; 3; 1; 0]%nat);
                   Elem (Fixture.the_node t [0; 4; 1; 3; 1; 2]%nat)] 2%Z eq_refl).
    left. simpl. lia.
  - apply (Htype [Elem (Fixture.the_node t [0; 4; 1; 3; 1; 0]%nat);
                  Elem (Fixture.the_node t [0; 4; 1; 3; 1; 2]%nat)] (PyStr "a") eq_refl).
    right. by exists "a".
Defined.

(** ** The entries of a literal *)

Lemma dictorsetmaker_entries_item item separator rest :
  well_formed_item item →
  dictorsetmaker_entries (item_children item ++ separator :: rest)
  = (kv ← dictorsetmaker_entries rest; Ok (item_entries item ++ kv)).
Proof.
  destruct item as [key colon value|stars mapping]; simpl.
  - intros [Hkey Hcolon].
    rewrite Hkey, (is_token_exclusive colon ":" ",") by done. by rewrite Hcolon.
  - intros ->. by destruct (dictorsetmaker_entries rest).
Qed.

Lemma dictorsetmaker_entries_last_item item :
  well_formed_item item →
  dictorsetmaker_entries (item_children item) = Ok (item_entries item).
Proof.
  destruct item as [key colon value|stars mapping]; simpl.
  - intros [Hkey Hcolon].
    rewrite Hkey, (is_token_exclusive colon ":" ",") by done. by rewrite Hcolon.
  - by intros ->.
Qed.

Lemma dictorsetmaker_entries_items items tail tail_entries :
  Forall (λ i : DisplayItem * Node, well_formed_item i.1) items →
  dictorsetmaker_entries tail = Ok tail_entries →
  dictorsetmaker_entries (separated_children items ++ tail)
  = Ok (flat_map (λ i, item_entries i.1) items ++ tail_entries).
Proof.
  intros Hitems Htail. induction Hitems as [|[item separator] items Hitem _ IH].
  - done.
  - change (separated_children ((item, separator) :: items))
      with ((item_children item ++ [separator]) ++ separated_children items).
    rewrite <- !(assoc_L (++)). cbn [app].
    rewrite dictorsetmaker_entries_item by done. rewrite IH. simpl.
    by rewrite <- (assoc_L (++)).
Qed.

(** X6. The entries of a dict display are its [key: value] pairs, in
    source order; [**mapping] items contribute no entry, and a comma
    after the last item changes nothing. *)
Theorem X6_dict_display_entries atom opening array_node closing items last_item :
  bool_decide (type atom ∈ _TUPLE_LIKE) = false →
  children atom = Ok [opening; array_node; closing] →
  is_token array_node "]" || is_token array_node "}" || is_token array_node ")"
    = false →
  type array_node = "dictorsetmaker" →
  Forall (λ i : DisplayItem * Node, well_formed_item i.1) items →
  well_formed_item last_item →
  (children array_node = Ok (separated_children items ++ item_children last_item) →
   get_tree_entries_of_atom atom
   = Ok (flat_map (λ i, item_entries i.1) items ++ item_entries last_item))
  ∧ (children array_node = Ok (separated_children items) →
     get_tree_entries_of_atom atom = Ok (flat_map (λ i, item_entries i.1) items)).
Proof.
  intros Htuple Hatom Hclosing Hty Hitems Hlast.
  unfold get_tree_entries_of_atom. rewrite Hatom. simpl. rewrite Htuple.
  simpl. rewrite Hclosing, Hty. simpl. split; intros ->; simpl.
  - apply dictorsetmaker_entries_items; [done|].
    by apply dictorsetmaker_entries_last_item.
  - rewrite <- (right_id_L [] (++) (separated_children items)).
    rewrite (dictorsetmaker_entries_items items [] []) by done.
    by rewrite (right_id_L [] (++)).
Qed.

(** [{'a': 1, 'a': 2}] has the two pairs, in this order. *)
Lemma X6_dict_display_entries_witness :
  let t := DictModule.module_node in
  get_tree_entries_of_atom DictModule.duplicate_keys
  = Ok [KeyValue (Fixture.the_node t [0; 0; 1; 0]%nat)
                 (Fixture.the_node t [0; 0; 1; 2]%nat);
        KeyValue (Fixture.the_node t [0; 0; 1; 4]%nat)
                 (Fixture.the_node t [0; 0; 1; 6]%nat)].
Proof.
  intros t.
  set (n := λ p, Fixture.the_node t ([0; 0]%nat ++ p)).
  refine (proj1 (X6_dict_display_entries DictModule.duplicate_keys
                   (n [0]%nat) (n [1]%nat) (n [2]%nat)
                   [(PairItem (n [1; 0]%nat) (n [1; 1]%nat) (n [1; 2]%nat),
                     n [1; 3]%nat)]
                   (PairItem (n [1; 4]%nat) (n [1; 5]%nat) (n [1; 6]%nat))
                   eq_refl eq_refl eq_refl eq_refl _ _) eq_refl).
  - repeat constructor.
  - by split.
Defined.




(** ** Dict values, synthetic sequences and merged arrays *)

Section MoreContainerFacts.
Variable inference_state : InferenceState.

Lemma inferred_pairs_of_pairs defining_context kvs :
  inferred_pairs inference_state defining_context (uncurry KeyValue <$> kvs)
  = Ok ((λ kv, (infer_node inference_state defining_context kv.1,
                infer_node inference_state defining_context kv.2)) <$> kvs).
Proof.
  induction kvs as [|[k v] kvs IH]; [done|].
  change (uncurry KeyValue <$> (k, v) :: kvs)
    with (KeyValue k v :: (uncurry KeyValue <$> kvs)).
  cbn [inferred_pairs]. by rewrite IH.
Qed.

Lemma dict_getitem_is_a_value defining_context kvs compiled_obj_index vs :
  dict_getitem inference_state defining_context (uncurry KeyValue <$> kvs)
    compiled_obj_index = Ok vs →
  ∃ kv, kv ∈ kvs ∧ vs = infer_node inference_state defining_context kv.2.
Proof.
  induction kvs as [|[k v] kvs IH]; simpl; [done|].
  destruct (key_equals_index _ _) as [[]|]; simpl; [| |done].
  - intros [= <-]. exists (k, v). split; [left|done].
  - intros (kv & Hin & ->)%IH. exists kv. split; [by right|done].
Qed.

Lemma from_sets_elem (sets : list ValueSet) vs : vs ∈ sets → vs ⊆ from_sets sets.
Proof.
  intros Hin v Hv. unfold from_sets. apply elem_of_union_list. by exists vs.
Qed.

Lemma DictComprehension_getitem_is_a_value iterated index vs :
  DictComprehension_py__simple_getitem__ iterated index = Ok vs →
  ∃ kv, kv ∈ iterated ∧ vs = kv.2.
Proof.
  induction iterated as [|[keys values] iterated IH]; simpl; [done|].
  destruct (existsb _ _).
  - intros [= <-]. exists (keys, values). split; [left|done].
  - intros (kv & Hin & ->)%IH. exists kv. split; [by right|done].
Qed.

Lemma DictComprehension_getitem_none iterated index :
  Forall (λ kv : ValueSet * ValueSet,
            ∀ k, k ∈ kv.1 → equals_index k index = false) iterated →
  DictComprehension_py__simple_getitem__ iterated index
  = Raise SimpleGetItemNotFound.
Proof.
  induction 1 as [|[ks vs] iterated Hks _ IH]; simpl; [done|].
  assert (existsb (λ k, equals_index k index) (elements ks) = false) as Hex.
  { apply not_true_is_false. intros (k' & Hin & Hk')%existsb_exists.
    apply list_elem_of_In, elem_of_elements in Hin.
    rewrite (Hks k' Hin) in Hk'. discriminate Hk'. }
  unfold equals_index in Hex. by rewrite Hex.
Qed.
End MoreContainerFacts.

(** X8. What the precise lookup in a dict literal returns is always part
    of what the general lookup [py__getitem__] returns, which is the
    union of the values inferred for all the value expressions. *)
Theorem X8_dict_getitem_within_dict_values
    inference_state defining_context atom index kvs vs :
  get_tree_entries_of_atom atom = Ok (uncurry KeyValue <$> kvs) →
  SequenceLiteralValue_py__simple_getitem__ inference_state defining_context atom
    "dict" index = Ok vs →
  Sequence_py__getitem__ inference_state defining_context atom "dict"
    = Ok (⋃ ((λ kv, infer_node inference_state defining_context kv.2) <$> kvs))
  ∧ vs ⊆ ⋃ ((λ kv, infer_node inference_state defining_context kv.2) <$> kvs).
Proof.
  intros Hentries.
  unfold SequenceLiteralValue_py__simple_getitem__, Sequence_py__getitem__,
    _dict_values.
  simpl. rewrite Hentries. simpl. rewrite inferred_pairs_of_pairs. simpl.
  intros (kv & Hin & ->)%dict_getitem_is_a_value. split.
  - unfold from_sets. by rewrite <- list_fmap_compose.
  - apply from_sets_elem.
    apply list_elem_of_fmap. by exists kv.
Qed.

(** [{'a': 1, 'a': 2}['a']] is [{1}], within all values [{1, 2}]. *)
Lemma X8_dict_getitem_within_dict_values_witness :
  Sequence_py__getitem__ DictModule.inference_state DictModule.context
    DictModule.duplicate_keys "dict" = Ok {[ Fixture.int_ 1; Fixture.int_ 2 ]}.
Proof.
  set (t := DictModule.module_node).
  refine (proj1 (X8_dict_getitem_within_dict_values DictModule.inference_state
                   DictModule.context DictModule.duplicate_keys (PyStr "a")
                   [(Fixture.the_node t [0; 0; 1; 0]%nat,
                     Fixture.the_node t [0; 0; 1; 2]%nat);
                    (Fixture.the_node t [0; 0; 1; 4]%nat,
                     Fixture.the_node t [0; 0; 1; 6]%nat)]
                   {[ Fixture.int_ 1 ]} eq_refl eq_refl)).
Defined.

(** X9. The keys of a dict literal as [_dict_keys] gives them are what
    the iteration of the literal yields, taken together; and
    [get_mapping_item_values] pairs them with the values. *)
Theorem X9_dict_keys_are_the_iterated_keys
    inference_state defining_context atom settings kvs :
  get_tree_entries_of_atom atom = Ok (uncurry KeyValue <$> kvs) →
  _dict_keys inference_state defining_context atom
  = Ok (from_sets
          (lazy_infer inference_state
             <$> items (py__iter__ inference_state
                          (DictLiteralValue defining_context atom) settings).1))
  ∧ get_mapping_item_values inference_state defining_context atom
    = Ok (key_types inference_state defining_context kvs,
          ⋃ ((λ kv, infer_node inference_state defining_context kv.2) <$> kvs)).
Proof.
  intros Hentries.
  assert (_dict_keys inference_state defining_context atom
          = Ok (key_types inference_state defining_context kvs)) as Hkeys.
  { unfold _dict_keys. rewrite Hentries. simpl.
    rewrite inferred_pairs_of_pairs. simpl.
    unfold from_sets, key_types. by rewrite <- list_fmap_compose. }
  split.
  - rewrite Hkeys. f_equal.
    unfold DictLiteralValue. cbn [py__iter__]. simpl. rewrite Hentries. simpl.
    rewrite dict_key_types_spec. simpl. rewrite (left_id_L ∅ (∪)).
    set (types := key_types inference_state defining_context kvs).
    rewrite <- list_fmap_compose.
    apply set_eq. intros v. unfold from_sets. rewrite elem_of_union_list.
    split.
    + intros Hv. exists types. split; [|done].
      apply list_elem_of_fmap. exists v. split; [done|].
      by apply elem_of_elements.
    + intros (X & (w & -> & _)%list_elem_of_fmap & Hv). exact Hv.
  - unfold get_mapping_item_values. rewrite Hkeys. simpl.
    unfold _dict_values. rewrite Hentries. simpl.
    rewrite inferred_pairs_of_pairs. simpl.
    unfold from_sets. by rewrite <- list_fmap_compose.
Qed.

(** The keys of [{'a': 1, 'a': 2}] are [{'a'}]. *)
Lemma X9_dict_keys_are_the_iterated_keys_witness :
  get_mapping_item_values DictModule.inference_state DictModule.context
    DictModule.duplicate_keys
  = Ok ({[ Fixture.str_ "a" ]}, {[ Fixture.int_ 1; Fixture.int_ 2 ]}).
Proof.
  set (t := DictModule.module_node).
  refine (proj2 (X9_dict_keys_are_the_iterated_keys DictModule.inference_state
                   DictModule.context DictModule.duplicate_keys Fixture.enabled
                   [(Fixture.the_node t [0; 0; 1; 0]%nat,
                     Fixture.the_node t [0; 0; 1; 2]%nat);
                    (Fixture.the_node t [0; 0; 1; 4]%nat,
                     Fixture.the_node t [0; 0; 1; 6]%nat)] eq_refl)).
Defined.

(** X10. Indexing a dict comprehension: the result is always the value
    set of one of the iterated pairs, hence within [_dict_values]; it is
    the one of the first pair that has a compiled key equal to the
    index; and there is none exactly when no pair has such a key. *)
Theorem X10_dict_comprehension_getitem iterated index :
  (∀ vs, DictComprehension_py__simple_getitem__ iterated index = Ok vs →
         vs ⊆ DictComprehension__dict_values iterated)
  ∧ (∀ pre keys values post,
       iterated = pre ++ (keys, values) :: post →
       Forall (λ kv : ValueSet * ValueSet,
                 ∀ k, k ∈ kv.1 → equals_index k index = false) pre →
       (∃ k, k ∈ keys ∧ equals_index k index = true) →
       DictComprehension_py__simple_getitem__ iterated index = Ok values)
  ∧ (Forall (λ kv : ValueSet * ValueSet,
               ∀ k, k ∈ kv.1 → equals_index k index = false) iterated
     ↔ DictComprehension_py__simple_getitem__ iterated index
       = Raise SimpleGetItemNotFound).
Proof.
  split; [|split].
  - intros vs (kv & Hin & ->)%DictComprehension_getitem_is_a_value.
    unfold DictComprehension__dict_values. apply from_sets_elem.
    apply list_elem_of_fmap. by exists kv.
  - intros pre keys values post -> Hpre Hkey.
    by apply DictComprehension_getitem_first_match.
  - split; [apply DictComprehension_getitem_none|].
    induction iterated as [|[keys values] iterated IH]; simpl; [constructor|].
    destruct (existsb _ _) eqn:Hex; [done|].
    intros Hrest. constructor; [|by apply IH].
    intros k Hk. apply not_true_is_false. intros Heq.
    apply not_true_iff_false in Hex. apply Hex.
    apply existsb_exists. exists k. split; [|exact Heq].
    apply list_elem_of_In. by apply elem_of_elements.
Qed.

(** A comprehension that gives ['a'] twice as key, with [1] and then [2]
    as value: the value for ['a'] is [{1}]. *)
Lemma X10_dict_comprehension_getitem_witness :
  DictComprehension_py__simple_getitem__
    [({[ Fixture.str_ "a" ]}, {[ Fixture.int_ 1 ]});
     ({[ Fixture.str_ "a" ]}, {[ Fixture.int_ 2 ]})] (PyStr "a")
  = Ok {[ Fixture.int_ 1 ]}.
Proof.
  apply (proj1 (proj2 (X10_dict_comprehension_getitem _ (PyStr "a")))
           [] {[ Fixture.str_ "a" ]} {[ Fixture.int_ 1 ]}
           [({[ Fixture.str_ "a" ]}, {[ Fixture.int_ 2 ]})] eq_refl).
  - constructor.
  - exists (Fixture.str_ "a"). split; [by apply elem_of_singleton|reflexivity].
Defined.

(** X11. Indexing a synthetic sequence agrees with iterating it: the
    position [i] gives the forced [i]-th item of the iteration, the index
    [i - len] the same from the end, a position out of range raises
    [SimpleGetItemNotFound]; and its truth value is whether the
    iteration yields anything. *)
Theorem X11_fake_sequence_getitem
    inference_state self_value array_type lazy_value_list settings :
  let iterated :=
    items (py__iter__ inference_state
             (FakeSequence array_type lazy_value_list) settings).1 in
  (∀ i lazy_value,
     iterated !! i = Some lazy_value →
     FakeSequence_py__simple_getitem__ inference_state self_value lazy_value_list
       (PyInt (Z.of_nat i)) = Ok (lazy_infer inference_state lazy_value)
     ∧ FakeSequence_py__simple_getitem__ inference_state self_value lazy_value_list
         (PyInt (Z.of_nat i - Z.of_nat (length iterated)))
       = Ok (lazy_infer inference_state lazy_value))
  ∧ (∀ z,
       (Z.of_nat (length iterated) ≤ z ∨ z < - Z.of_nat (length iterated))%Z →
       FakeSequence_py__simple_getitem__ inference_state self_value lazy_value_list
         (PyInt z) = Raise SimpleGetItemNotFound)
  ∧ (FakeSequence_py__bool__ lazy_value_list = true ↔ iterated ≠ []).
Proof.
  intros iterated. subst iterated. cbn [py__iter__ fst items finished].
  split; [|split].
  - intros i lazy_value Hi.
    pose proof (lookup_lt_Some _ _ _ Hi) as Hlt.
    destruct (list_index_in_range (length lazy_value_list) i Hlt) as [Hpos Hneg].
    unfold FakeSequence_py__simple_getitem__.
    rewrite !bool_decide_eq_false_2 by done.
    rewrite Hpos, Hneg. cbn -[getitem]. unfold getitem. by rewrite Hi.
  - intros z Hz. unfold FakeSequence_py__simple_getitem__.
    rewrite bool_decide_eq_false_2 by done.
    by rewrite list_index_out_of_range.
  - unfold FakeSequence_py__bool__. by destruct lazy_value_list.
Qed.

(** The synthetic sequence of [{1}] and [{2}]. *)
Lemma X11_fake_sequence_getitem_witness :
  FakeSequence_py__simple_getitem__ AppendModule.inference_state Slice
    [LazyKnownValues {[ Fixture.int_ 1 ]}; LazyKnownValues {[ Fixture.int_ 2 ]}]
    (PyInt 1) = Ok {[ Fixture.int_ 2 ]}.
Proof.
  refine (proj1 (proj1 (X11_fake_sequence_getitem AppendModule.inference_state Slice
                          "list"
                          [LazyKnownValues {[ Fixture.int_ 1 ]};
                           LazyKnownValues {[ Fixture.int_ 2 ]}] Fixture.enabled)
                   1%nat (LazyKnownValues {[ Fixture.int_ 2 ]}) eq_refl)).
Defined.

(** X12. Indexing a merged array does not depend on the index: when the
    iterations of its arrays all finish, every index gives the union of
    the values of all their items; when one of them fails, indexing
    fails the same way. *)
Theorem X12_merged_array_getitem inference_state arrays array_type index settings :
  (Forall (λ array, failure (py__iter__ inference_state array settings).1 = None)
          arrays →
   (MergedArray_py__simple_getitem__ inference_state arrays array_type index
      settings).1
   = Ok (from_sets
           (lazy_infer inference_state
              <$> concat ((λ array, items (py__iter__ inference_state array settings).1)
                            <$> arrays))))
  ∧ (∀ e, failure (py__iter__ inference_state
                     (MergedArray arrays array_type) settings).1 = Some e →
          (MergedArray_py__simple_getitem__ inference_state arrays array_type index
             settings).1 = Raise e).
Proof.
  unfold MergedArray_py__simple_getitem__. split.
  - intros Hall.
    pose proof (py__iter___merged_fold inference_state arrays array_type settings)
      as Hfold.
    destruct (py__iter__ inference_state (MergedArray arrays array_type) settings)
      as [g settings'].
    cbn [fst] in Hfold. subst g.
    assert (foldr (λ array rest,
                     gen_then (py__iter__ inference_state array settings).1 rest)
                  (finished []) arrays
            = finished (concat ((λ array,
                         items (py__iter__ inference_state array settings).1)
                                  <$> arrays))) as ->.
    { induction Hall as [|array arrays Harray _ IH]; [done|].
      cbn [foldr fmap list_fmap concat]. rewrite IH.
      destruct (py__iter__ inference_state array settings).1 as [l f].
      simpl in Harray. by subst f. }
    done.
  - intros e He.
    destruct (py__iter__ inference_state (MergedArray arrays array_type) settings)
      as [g settings'].
    cbn [fst] in He. by rewrite He.
Qed.

(** Merging the synthetic sequences of [{1}] and of [{2}]: every index
    gives [{1, 2}]. *)
Lemma X12_merged_array_getitem_witness :
  (MergedArray_py__simple_getitem__ AppendModule.inference_state
     [FakeSequence "list" [LazyKnownValues {[ Fixture.int_ 1 ]}];
      FakeSequence "list" [LazyKnownValues {[ Fixture.int_ 2 ]}]]
     "list" (PyInt 7) Fixture.enabled).1
  = Ok {[ Fixture.int_ 1; Fixture.int_ 2 ]}.
Proof.
  refine (proj1 (X12_merged_array_getitem AppendModule.inference_state
                   [FakeSequence "list" [LazyKnownValues {[ Fixture.int_ 1 ]}];
                    FakeSequence "list" [LazyKnownValues {[ Fixture.int_ 2 ]}]]
                   "list" (PyInt 7) Fixture.enabled) _).
  repeat constructor.
Defined.

(** ** More on yields, return values and overload discovery *)

Lemma gen_then_nil_r {A} (g : generated A) : gen_then g (finished []) = g.
Proof.
  destruct g as [l [e|]]; unfold gen_then; simpl; [done|].
  by rewrite (right_id_L [] (++)).
Qed.

Lemma gen_then_assoc {A} (g h k : generated A) :
  gen_then (gen_then g h) k = gen_then g (gen_then h k).
Proof.
  destruct g as [l [e|]], h as [m [e'|]]; unfold gen_then; simpl; try done.
  by rewrite (assoc_L (++)).
Qed.

Section BodyYieldFacts.
Variable inference_state : InferenceState.
Variable collaborators : Collaborators.

Lemma order_yields_in_body self scope rest : ∀ yields_order last_for_stmt,
  yield_position self scope = Ok InBody →
  order_yields self ((λ y, (y, Some scope)) <$> rest) yields_order last_for_stmt
  = Ok (Some (yields_order ++ ((λ y, (None, [y])) <$> rest))).
Proof.
  induction rest as [|y rest IH]; intros yields_order last_for Hpos; simpl.
  - by rewrite (right_id_L [] (++)).
  - rewrite Hpos. simpl. rewrite IH by done. by rewrite <- (assoc_L (++)).
Qed.

Lemma yield_groups_in_body self yields :
  yield_groups inference_state self ((λ y, (None, [y])) <$> yields)
  = yield_values_of inference_state self yields.
Proof.
  induction yields as [|y yields IH]; [done|].
  cbn [fmap list_fmap yield_groups yield_values_of]. rewrite IH.
  by rewrite gen_then_nil_r.
Qed.

Lemma scan_returns_grows self funcdef check_yields returns : ∀ value_set result,
  scan_returns inference_state collaborators self funcdef check_yields returns
    value_set = Ok result →
  value_set ⊆ result.
Proof.
  induction returns as [|r returns IH]; intros value_set result; simpl.
  - by intros [= <-].
  - destruct (bool_decide (_ = UNREACHABLE)); simpl.
    + destruct (bool_decide (_ = REACHABLE)); [by intros [= <-]|apply IH].
    + destruct (return_contribution _ _ _ r) as [vs|]; simpl; [|done].
      destruct (bool_decide (_ = REACHABLE)).
      * intros [= <-]. set_solver.
      * intros Hscan%IH. set_solver.
Qed.
End BodyYieldFacts.

(** X13. When every yield of a function lies directly in the function
    body, the generator yields the lazy values of the yields one after
    the other in source order, and the names predefined for the
    execution are not touched; for plain [yield expr] these are the lazy
    tree values of the expressions. *)
Theorem X13_yields_in_body_keep_their_order
    inference_state collaborators self scope :
  let yields := get_yield_exprs collaborators (fv_tree_node (function_value self)) in
  Forall (λ y, nearest_scope y = Some scope) yields →
  yield_position self scope = Ok InBody →
  get_yield_lazy_values inference_state collaborators self
    = yield_values_of inference_state self yields
  ∧ (∀ exprs,
       Forall2 (λ y expr, String.eqb (type y) "keyword" = false
                          ∧ yielded_expression y = Ok expr
                          ∧ String.eqb (type expr) "yield_arg" = false) yields exprs →
       get_yield_lazy_values inference_state collaborators self
       = finished (LazyTreeValue (as_context self) <$> exprs)).
Proof.
  intros yields Hscope Hpos.
  assert (get_yield_lazy_values inference_state collaborators self
          = yield_values_of inference_state self yields) as Heq.
  { unfold get_yield_lazy_values. fold yields.
    assert ((λ y, (y, search_ancestor y
                        ["for_stmt"; "funcdef"; "while_stmt"; "if_stmt"])) <$> yields
            = (λ y, (y, Some scope)) <$> yields) as ->.
    { apply list_fmap_ext. intros i y Hy. f_equal.
      eapply Forall_lookup_1 in Hscope; [exact Hscope|exact Hy]. }
    rewrite (order_yields_in_body self scope yields [] None Hpos).
    cbn [app]. apply yield_groups_in_body. }
  split; [exact Heq|].
  intros exprs Hplain. rewrite Heq. by apply yield_values_of_plain.
Qed.

(** [def g(): yield 1; yield 2] yields the lazy values of [1] and of [2],
    in this order. *)
Lemma X13_yields_in_body_keep_their_order_witness :
  let t := SiblingYieldModule.module_node in
  get_yield_lazy_values SiblingYieldModule.inference_state
    SiblingYieldModule.the_collaborators SiblingYieldModule.execution
  = finished
      [LazyTreeValue (as_context SiblingYieldModule.execution)
         (Fixture.the_node t [0; 4; 1; 0; 1]%nat);
       LazyTreeValue (as_context SiblingYieldModule.execution)
         (Fixture.the_node t [0; 4; 2; 0; 1]%nat)].
Proof.
  intros t.
  refine (proj2 (X13_yields_in_body_keep_their_order
                   SiblingYieldModule.inference_state
                   SiblingYieldModule.the_collaborators SiblingYieldModule.execution
                   SiblingYieldModule.funcdef _ eq_refl)
            [Fixture.the_node t [0; 4; 1; 0; 1]%nat;
             Fixture.the_node t [0; 4; 2; 0; 1]%nat] _);
    repeat constructor.
Defined.

(** X14. The scan of the return statements only ever adds to the value
    set: without an annotation, the return values of a function
    definition contain all the docstring hints. *)
Theorem X14_docstring_hints_are_kept inference_state collaborators self result :
  type (fv_tree_node (function_value self)) ≠ "lambdef" →
  annotation_infer_return_types collaborators self = ∅ →
  get_return_values inference_state collaborators self false = Ok result →
  docstrings_infer_return_types collaborators (function_value self) ⊆ result.
Proof.
  intros Hdef%String.eqb_neq Hann. unfold get_return_values.
  rewrite Hdef, Hann. rewrite bool_decide_eq_true_2 by done. simpl.
  rewrite (left_id_L ∅ (∪)). apply scan_returns_grows.
Qed.

(** [def f(): return 1; return; return 2] documented to return a
    string. *)
Lemma X14_docstring_hints_are_kept_witness :
  let cs :=
    {| get_executed_params_and_issues := λ _, ([], []);
       annotation_infer_return_types := λ _, ∅;
       docstrings_infer_return_types := λ _, {[ Fixture.str_ "a" ]};
       reachability_check := λ _ _ r, ReturnModule.reachability r;
       get_yield_exprs := λ _, [];
       iter_return_stmts := λ _, [ReturnModule.return_1; ReturnModule.bare_return;
                                  ReturnModule.return_2];
       filter_get := λ _ _ _, [];
       version_info := (3, 8)%nat;
       async_generator_of := id;
       coroutine_of := id |} in
  ({[ Fixture.str_ "a" ]} : ValueSet)
  ⊆ {[ Fixture.str_ "a"; Fixture.int_ 1; builtin_None ]}.
Proof.
  intros cs.
  refine (X14_docstring_hints_are_kept ReturnModule.inference_state cs
            ReturnModule.execution
            {[ Fixture.str_ "a"; Fixture.int_ 1; builtin_None ]} _ eq_refl eq_refl).
  discriminate.
Defined.

Section DiscoveryFacts.
Variable collaborators : Collaborators.

Lemma overloads_among_decorated names : ∀ tree_node found yielded r,
  Forall (λ f, _is_overload_decorated f = Ok true) yielded →
  overloads_among names tree_node found yielded = Ok r →
  Forall (λ f, _is_overload_decorated f = Ok true) r.2.
Proof.
  induction names as [|name names IH]; intros tree_node found yielded r Hy; simpl.
  - by intros [= <-].
  - destruct (parent name) as [funcdef|]; simpl; [|done].
    destruct (String.eqb (type funcdef) "funcdef"); simpl; [|by apply IH].
    destruct (_is_overload_decorated funcdef) as [[]|] eqn:Hdec; simpl;
      [|by apply IH|done].
    apply IH. apply Forall_app. split; [done|]. by constructor.
Qed.

Lemma find_overloads_loop_decorated fuel : ∀ value tree_node found,
  find_overloads_loop collaborators fuel value tree_node = Some (Ok found) →
  Forall (λ f, _is_overload_decorated f = Ok true) found.
Proof.
  induction fuel as [|fuel IH]; intros value tree_node found; simpl; [done|].
  destruct (funcdef_name tree_node) as [name|]; [|done].
  destruct (filter_get collaborators value (start_pos tree_node) name)
    as [|n names] eqn:Hnames.
  { intros [= <-]. constructor. }
  destruct (overloads_among (n :: names) tree_node false []) as [[[tn fd] yd]|]
    eqn:Hamong; [|done].
  pose proof (overloads_among_decorated _ _ _ _ _ (Forall_nil_2 _) Hamong) as Hyd.
  simpl in Hyd.
  destruct fd; simpl.
  - destruct (find_overloads_loop collaborators fuel value tn) as [[more|]|] eqn:Hmore;
      try done.
    intros [= <-]. apply Forall_app. split; [done|]. by eapply IH.
  - by intros [= <-].
Qed.
End DiscoveryFacts.

(** X15. Overload discovery only ever yields definitions that carry the
    overload marker. A function value made by [from_context] wraps the
    definition it was asked for; it is an overloaded one exactly when
    discovery found something, and then all its candidates are marked
    and there is at least one. *)
Theorem X15_discovered_overloads_are_marked
    collaborators fuel context tree_node callable :
  from_context collaborators fuel context tree_node = Some (Ok callable) →
  match callable with
  | PlainFunction f =>
      fv_tree_node f = tree_node
      ∧ _find_overload_functions collaborators fuel context tree_node = Some (Ok [])
  | Overloaded o =>
      fv_tree_node (_wrapped_value o) = tree_node
      ∧ _overloaded_functions o ≠ []
      ∧ Forall (λ f, _is_overload_decorated (fv_tree_node f) = Ok true)
               (_overloaded_functions o)
  end.
Proof.
  unfold from_context.
  destruct (_find_overload_functions collaborators fuel context tree_node)
    as [[found|]|] eqn:Hfound; try done.
  assert (Forall (λ f, _is_overload_decorated f = Ok true) found) as Hmarked.
  { revert Hfound. unfold _find_overload_functions.
    destruct (String.eqb (type tree_node) "lambdef"); [intros [= <-]; constructor|].
    destruct (_is_overload_decorated tree_node) as [decorated|] eqn:Hdec; [|done].
    destruct (find_overloads_loop _ _ _ _) as [[more|]|] eqn:Hmore; try done.
    intros [= <-]. apply find_overloads_loop_decorated in Hmore.
    apply Forall_app. split; [|done].
    destruct decorated; repeat constructor. exact Hdec. }
  destruct (lexical_parent context) as [parent_context|]; simpl; [|done].
  destruct found as [|f found]; intros [= <-].
  - split; [|done]. unfold create. by destruct (is_class context).
  - split; [unfold create; by destruct (is_class context)|]. split; [done|].
    cbn [_overloaded_functions].
    apply Forall_cons in Hmarked as [Hf Hrest]. constructor.
    + unfold create. by destruct (is_class context).
    + apply Forall_fmap. eapply Forall_impl; [exact Hrest|].
      intros g Hg. unfold create. simpl. by destruct (is_class context).
Qed.

(** The two overloads before the implementation of [f]. *)
Lemma X15_discovered_overloads_are_marked_witness :
  let t := OverloadModule.module_node in
  Forall (λ f, _is_overload_decorated (fv_tree_node f) = Ok true)
    [mkFunctionValue (Fixture.module_context t)
       (Fixture.the_node t OverloadModule.second_overload) None;
     mkFunctionValue (Fixture.module_context t)
       (Fixture.the_node t OverloadModule.first_overload) None].
Proof.
  intros t.
  exact (proj2 (proj2
    (X15_discovered_overloads_are_marked
       (OverloadModule.the_collaborators t OverloadModule.all_match) 3
       (Fixture.module_context t)
       (Fixture.the_node t OverloadModule.implementation)
       (Overloaded
          (mkOverloaded
             (mkFunctionValue (Fixture.module_context t)
                (Fixture.the_node t OverloadModule.implementation) None)
             [mkFunctionValue (Fixture.module_context t)
                (Fixture.the_node t OverloadModule.second_overload) None;
              mkFunctionValue (Fixture.module_context t)
                (Fixture.the_node t OverloadModule.first_overload) None]))
       eq_refl))).
Defined.

Lemma lexical_parent_not_a_class : ∀ context parent_context,
  lexical_parent context = Ok parent_context →
  is_class parent_context = false ∧ is_instance parent_context = false.
Proof.
  fix IH 1. intros [tn k comp pre par] p. simpl.
  destruct (is_class _ || is_instance _) eqn:Hkind.
  - destruct par as [c|]; [|done]. apply IH.
  - intros [= <-]. by apply orb_false_iff in Hkind.
Qed.

(** X16. The parent context of a function value made by [from_context]
    is never a class or an instance: it is the first enclosing context
    that is neither. The class the definition stands in is kept as the
    class context of the value, which is then a method. *)
Theorem X16_function_parent_is_not_a_class
    collaborators fuel context tree_node callable :
  from_context collaborators fuel context tree_node = Some (Ok callable) →
  let functions :=
    match callable with
    | PlainFunction f => [f]
    | Overloaded o => _wrapped_value o :: _overloaded_functions o
    end in
  Forall (λ f, is_class (fv_parent_context f) = false
               ∧ is_instance (fv_parent_context f) = false
               ∧ lexical_parent context = Ok (fv_parent_context f)
               ∧ fv_class_context f
                 = (if is_class context then Some context else None))
         functions.
Proof.
  unfold from_context.
  destruct (_find_overload_functions collaborators fuel context tree_node)
    as [[found|]|]; try done.
  destruct (lexical_parent context) as [parent_context|] eqn:Hparent;
    simpl; [|done].
  destruct (lexical_parent_not_a_class _ _ Hparent) as [Hclass Hinstance].
  assert (∀ n, is_class (fv_parent_context (create context parent_context n)) = false
               ∧ is_instance (fv_parent_context (create context parent_context n))
                 = false
               ∧ Ok parent_context
                 = Ok (fv_parent_context (create context parent_context n))
               ∧ fv_class_context (create context parent_context n)
                 = (if is_class context then Some context else None)) as Hcreate.
  { intros n. unfold create. by destruct (is_class context). }
  destruct found as [|f found]; intros [= <-]; cbn [_wrapped_value _overloaded_functions].
  - repeat constructor; apply Hcreate.
  - constructor; [apply Hcreate|]. constructor; [apply Hcreate|].
    apply Forall_fmap. apply Forall_forall. intros g _. apply Hcreate.
Qed.

(** A method of a class nested in a class: its parent context is the
    module, its class context the inner class. *)
Lemma X16_function_parent_is_not_a_class_witness :
  from_context MethodModule.the_collaborators 1 MethodModule.class_B
    MethodModule.method
  = Some (Ok (PlainFunction
                (mkFunctionValue MethodModule.module_ctx MethodModule.method
                   (Some MethodModule.class_B))))
  ∧ is_class MethodModule.module_ctx = false.
Proof.
  split; [reflexivity|].
  pose proof (X16_function_parent_is_not_a_class MethodModule.the_collaborators 1
                MethodModule.class_B MethodModule.method
                (PlainFunction
                   (mkFunctionValue MethodModule.module_ctx MethodModule.method
                      (Some MethodModule.class_B))) eq_refl) as H.
  apply Forall_cons in H as [(H & _) _]. exact H.
Defined.

(** ** The text before the cursor *)

Section CompletionPartsFacts.
Variables (word digit : ascii → bool).

Let in_class (c : ascii) : Prop := word c || digit c = true.

Lemma at_end_cases (rest : list ascii) :
  at_end rest = true ↔ rest = [] ∨ rest = [newline].
Proof.
  destruct rest as [|c [|c' rest]]; simpl.
  - naive_solver.
  - rewrite Ascii.eqb_eq. naive_solver.
  - naive_solver.
Qed.

Lemma class_star_end_split (rest m left_over : list ascii) :
  class_star_end word digit rest = Some (m, left_over) →
  rest = m ++ left_over ∧ Forall in_class m ∧ at_end left_over = true.
Proof.
  revert m left_over. induction rest as [|c rest IH]; intros m left_over.
  - simpl. intros [= <- <-]. by repeat split.
  - cbn [class_star_end].
    destruct (word c || digit c) eqn:Hc.
    + destruct (class_star_end word digit rest) as [[m' t']|].
      * intros [= <- <-]. destruct (IH _ _ eq_refl) as (-> & ? & ?).
        repeat split; [by constructor|done].
      * destruct (at_end (c :: rest)) eqn:He; intros [= <- <-].
        by repeat split.
    + destruct (at_end (c :: rest)) eqn:He; intros [= <- <-].
      by repeat split.
Qed.

Lemma class_star_end_matches (m left_over : list ascii) :
  Forall in_class m → at_end left_over = true →
  is_Some (class_star_end word digit (m ++ left_over)).
Proof.
  intros Hm Hend. induction Hm as [|c m Hc _ IH]; simpl.
  - apply at_end_cases in Hend as [->| ->]; simpl; [done|].
    destruct (word newline || digit newline); done.
  - unfold in_class in Hc. rewrite Hc. destruct IH as [[m' t'] ->]. done.
Qed.

Lemma like_end_split (rest like left_over : list ascii) :
  like_end word digit rest = Some (like, left_over) →
  rest = like ++ left_over ∧ Forall in_class like ∧ at_end left_over = true.
Proof.
  unfold like_end. destruct rest as [|c rest].
  - apply class_star_end_split.
  - destruct (word c) eqn:Hc; [|apply class_star_end_split].
    destruct (class_star_end word digit rest) as [[m t]|] eqn:Hstar;
      [|apply class_star_end_split].
    intros [= <- <-]. apply class_star_end_split in Hstar as (-> & ? & ?).
    repeat split; [|done]. constructor; [|done].
    unfold in_class. by rewrite Hc.
Qed.

Lemma like_end_matches (m left_over : list ascii) :
  Forall in_class m → at_end left_over = true →
  is_Some (like_end word digit (m ++ left_over)).
Proof.
  intros Hm Hend. pose proof (class_star_end_matches _ _ Hm Hend) as Hstar.
  unfold like_end. destruct (m ++ left_over) as [|c rest]; [done|].
  destruct (word c); [|done].
  destruct (class_star_end word digit rest) as [[??]|]; done.
Qed.

Lemma dot_like_end_split (rest dot like left_over : list ascii) :
  dot_like_end word digit rest = Some (dot, like, left_over) →
  rest = dot ++ like ++ left_over ∧ (dot = [] ∨ dot = [full_stop]) ∧
  Forall in_class like ∧ at_end left_over = true.
Proof.
  assert (Hwithout :
    match like_end word digit rest with
    | Some (like, left_over) => Some ([], like, left_over)
    | None => None
    end = Some (dot, like, left_over) →
    rest = dot ++ like ++ left_over ∧ (dot = [] ∨ dot = [full_stop]) ∧
    Forall in_class like ∧ at_end left_over = true).
  { destruct (like_end word digit rest) as [[l t]|] eqn:Hlike; [|done].
    intros [= <- <- <-]. apply like_end_split in Hlike as (-> & ? & ?).
    repeat split; auto. }
  unfold dot_like_end. destruct rest as [|c rest]; [done|].
  destruct (Ascii.eqb c full_stop) eqn:Hc; [|done].
  destruct (like_end word digit rest) as [[l t]|] eqn:Hlike; [|done].
  intros [= <- <- <-]. apply Ascii.eqb_eq in Hc as ->.
  apply like_end_split in Hlike as (-> & ? & ?). repeat split; auto.
Qed.

Lemma dot_like_end_matches (m left_over : list ascii) :
  Forall in_class m → at_end left_over = true →
  is_Some (dot_like_end word digit (m ++ left_over)).
Proof.
  intros Hm Hend. destruct (like_end_matches _ _ Hm Hend) as [[l t] Hlike].
  unfold dot_like_end. rewrite Hlike.
  destruct (m ++ left_over) as [|c rest]; [done|].
  destruct (Ascii.eqb c full_stop); [|done].
  destruct (like_end word digit rest) as [[??]|]; done.
Qed.

(** After a full stop, too, the rest of the pattern matches what the
    third group can match. *)
Lemma dot_like_end_matches_dot (m left_over : list ascii) :
  Forall in_class m → at_end left_over = true →
  is_Some (dot_like_end word digit (full_stop :: m ++ left_over)).
Proof.
  intros Hm Hend. destruct (like_end_matches _ _ Hm Hend) as [[l t] Hlike].
  unfold dot_like_end. rewrite Ascii.eqb_refl, Hlike. done.
Qed.

(** The search for the first group stops at the first prefix that lets
    the rest match: no shorter prefix does. *)
Lemma shortest_prefix_first (consumed rest path dot like : list ascii) :
  shortest_prefix word digit consumed rest = Some (path, dot, like) →
  ∃ pre rest' left_over,
    rest = pre ++ rest' ∧ path = rev consumed ++ pre ∧
    dot_like_end word digit rest' = Some (dot, like, left_over) ∧
    ∀ shorter c longer, pre = shorter ++ c :: longer →
      dot_like_end word digit (c :: longer ++ rest') = None.
Proof.
  revert consumed. induction rest as [|c rest IH]; intros consumed.
  - cbn [shortest_prefix].
    destruct (dot_like_end word digit []) as [[[d l] t]|] eqn:Hhere; [|done].
    intros [= <- <- <-]. exists [], [], t.
    split_and!; [done|by rewrite (right_id_L [] (++))|done|].
    intros [|??] ?? ?; done.
  - cbn [shortest_prefix].
    destruct (dot_like_end word digit (c :: rest)) as [[[d l] t]|] eqn:Hhere.
    + intros [= <- <- <-]. exists [], (c :: rest), t.
      split_and!; [done|by rewrite (right_id_L [] (++))|done|].
      intros [|??] ?? ?; done.
    + intros Hrec.
      destruct (IH _ Hrec) as (pre & rest' & t & -> & -> & Hmatch & Hmin).
      exists (c :: pre), rest', t. split_and!; [done| |done|].
      * simpl. by rewrite <- (assoc_L (++)).
      * intros [|c' shorter] c'' longer.
        -- intros [= <- <-]. done.
        -- intros [= <- ->]. by eapply Hmin.
Qed.

Lemma shortest_prefix_matches (consumed rest : list ascii) :
  is_Some (shortest_prefix word digit consumed rest).
Proof.
  revert consumed. induction rest as [|c rest IH]; intros consumed;
    cbn [shortest_prefix].
  - done.
  - destruct (dot_like_end word digit (c :: rest)) as [[[??]?]|]; [done|].
    apply IH.
Qed.

(** X17. [completion_parts] succeeds on every text: the pattern always
    matches, so [groups()] is never called on [None].  The three groups
    are consecutive pieces of the text and cover all of it except,
    possibly, one newline that ends it; the second group is empty or a
    full stop, and the third consists of word characters and digits
    only. *)
Theorem X17_completion_parts_split (path_until_cursor : list ascii) :
  ∃ path dot like,
    completion_parts word digit path_until_cursor = Ok (path, dot, like) ∧
    (path_until_cursor = path ++ dot ++ like ∨
     path_until_cursor = path ++ dot ++ like ++ [newline]) ∧
    (dot = [] ∨ dot = [full_stop]) ∧
    Forall (λ c, word c || digit c = true) like.
Proof.
  unfold completion_parts.
  destruct (shortest_prefix_matches [] path_until_cursor) as [[[p d] l] Hsome].
  exists p, d, l. rewrite Hsome. split; [done|].
  apply shortest_prefix_first in Hsome as (pre & rest' & t & -> & -> & Hm & _).
  apply dot_like_end_split in Hm as (-> & Hd & Hl & Hend).
  simpl. repeat split; [|done|done].
  apply at_end_cases in Hend as [->| ->].
  - left. by rewrite (right_id_L [] (++)).
  - by right.
Qed.

(** X18. With classes that hold neither the full stop nor the newline
    (as [\w] and [\d] do), the split is the one a reader expects: a
    newline that ends the text is always left out of the groups and
    nothing else is, the third group is as long as it can be (what
    stands before it is not a word character or digit), and a full stop
    before the third group is always taken by the second group and not
    left at the end of the first. *)
Theorem X18_completion_parts_longest_suffix
    (path_until_cursor path dot like : list ascii)
    (Hstop : word full_stop || digit full_stop = false)
    (Hnewline : word newline || digit newline = false)
    (Hparts : completion_parts word digit path_until_cursor
              = Ok (path, dot, like)) :
  path_until_cursor
    = path ++ dot ++ like
      ++ (if bool_decide (last path_until_cursor = Some newline)
          then [newline] else []) ∧
  (∀ c, last (path ++ dot) = Some c → word c || digit c = false) ∧
  (dot = [] → last path ≠ Some full_stop).
Proof.
  unfold completion_parts in Hparts.
  destruct (shortest_prefix word digit [] path_until_cursor)
    as [[[p d] l]|] eqn:Hsome; [|done].
  injection Hparts as -> -> ->.
  apply shortest_prefix_first in Hsome as (pre & rest' & t & -> & -> & Hm & Hmin).
  cbn [rev app] in *.
  apply dot_like_end_split in Hm as Hsplit.
  destruct Hsplit as (-> & Hd & Hl & Hend).
  assert (Hshorter : ∀ shorter c, pre = shorter ++ [c] →
            dot_like_end word digit (c :: dot ++ like ++ t) = None).
  { intros shorter c ->. by apply (Hmin shorter c []). }
  assert (Hpre_class : dot = [] → ∀ c, last pre = Some c →
            word c || digit c = false).
  { intros -> c Hlast. apply last_Some in Hlast as [shorter ->].
    specialize (Hshorter _ _ eq_refl). cbn [app] in Hshorter.
    destruct (word c || digit c) eqn:Hc; [|done].
    destruct (dot_like_end_matches (c :: like) t) as [? Hsome]; [|done|].
    - by constructor.
    - cbn [app] in Hsome. congruence. }
  assert (Hpre_stop : dot = [] → last pre ≠ Some full_stop).
  { intros -> Hlast. apply last_Some in Hlast as [shorter ->].
    specialize (Hshorter _ _ eq_refl). cbn [app] in Hshorter.
    destruct (dot_like_end_matches_dot like t) as [? Hsome]; [done..|].
    congruence. }
  repeat split; [|intros c Hc|done].
  - apply at_end_cases in Hend as [->| ->].
    + rewrite (right_id_L [] (++)).
      rewrite bool_decide_eq_false_2; [by rewrite (right_id_L [] (++))|].
      intros Hlast.
      destruct (decide (like = [])) as [->|Hne].
      * rewrite (right_id_L [] (++)) in Hlast.
        destruct Hd as [->| ->].
        -- rewrite (right_id_L [] (++)) in Hlast.
           apply last_Some in Hlast as Hpre. destruct Hpre as [shorter ->].
           specialize (Hshorter _ _ eq_refl).
           destruct (dot_like_end_matches [] [newline]) as [? Hsome];
             [done..|].
           cbn [app] in *. congruence.
        -- rewrite last_snoc in Hlast. done.
      * rewrite !(assoc_L (++)) in Hlast.
        destruct (exists_last Hne) as (l' & c & ->).
        rewrite (assoc_L (++)), last_snoc in Hlast. injection Hlast as ->.
        rewrite Forall_app, Forall_singleton in Hl. destruct Hl as [_ Hc].
        unfold in_class in Hc. congruence.
    + rewrite bool_decide_eq_true_2; [done|].
      by rewrite !(assoc_L (++)), last_snoc.
  - destruct Hd as [->| ->].
    + rewrite (right_id_L [] (++)) in Hc. by apply Hpre_class.
    + rewrite last_snoc in Hc. by injection Hc as <-.
Qed.

End CompletionPartsFacts.

Lemma X18_completion_parts_longest_suffix_witness :
  let text := String.list_ascii_of_string "os.pa" ++ [newline] in
  let path := String.list_ascii_of_string "os" in
  let like := String.list_ascii_of_string "pa" in
  completion_parts ascii_word ascii_digit text = Ok (path, [full_stop], like) ∧
  text = path ++ [full_stop] ++ like ++ [newline] ∧
  (∀ c, last (path ++ [full_stop]) = Some c →
        ascii_word c || ascii_digit c = false).
Proof.
  intros text path like.
  assert (Hparts : completion_parts ascii_word ascii_digit text
                   = Ok (path, [full_stop], like)) by reflexivity.
  pose proof (X18_completion_parts_longest_suffix ascii_word ascii_digit
                text path [full_stop] like eq_refl eq_refl Hparts)
    as (Hsplit & Hlongest & _).
  split; [exact Hparts|]. split; [exact Hsplit|exact Hlongest].
Defined.

(** ** Import statements that failed to parse *)

Lemma check_dotted_before (pos : Pos) (nodes : list Node) :
  Forall (λ name, pos_lt (end_pos name) pos = true) (check_dotted pos nodes).
Proof.
  unfold check_dotted. induction (every_second nodes) as [|name l IH];
    simpl; [constructor|].
  destruct (pos_lt (end_pos name) pos) eqn:Hname; [|done].
  by constructor.
Qed.

Lemma sum_list_append (l k : list nat) :
  sum_list (l ++ k) = sum_list l + sum_list k.
Proof. induction l as [|n l IH]; simpl; [done|]. rewrite IH. unfold id. lia. Qed.

Lemma is_token_inv (node : Node) (s : string) :
  is_token node s = true →
  value node = Ok s ∧ isinstance_Node node = false ∧
  isinstance_Name node = false.
Proof.
  unfold is_token, value, isinstance_Node, isinstance_Name.
  destruct (here node) as [ty v ??|]; [|done].
  intros [Hty ->%String.eqb_eq]%andb_true_iff. repeat split.
  apply orb_true_iff in Hty as [->%String.eqb_eq| ->%String.eqb_eq]; done.
Qed.

(** One turn of the inner loop: it cannot fail, it adds only names that
    end before the position, it counts the dots of the node, and it
    clears the flag exactly at an [import] that ends before the
    position. *)
Lemma import_from_node_step (pos : Pos) (request : ImporterRequest)
    (node : Node) :
  ∃ added,
    import_from_node pos request node
    = Ok (mkImporterRequest
            (import_names request ++ added)
            (import_level request + leading_dots node)
            (only_modules request
             && negb (is_token node "import" && pos_lt (end_pos node) pos))) ∧
    Forall (λ name, pos_lt (end_pos name) pos = true) added.
Proof.
  destruct request as [names level only]. unfold import_from_node, leading_dots.
  cbn [import_names import_level only_modules].
  destruct (is_token node ".") eqn:Hdot.
  { apply is_token_inv in Hdot as Hinv. destruct Hinv as (Hv & -> & _).
    assert (is_token node "import" = false) as ->.
    { unfold is_token, value in *. destruct (here node); [|done].
      injection Hv as ->. by rewrite andb_false_r. }
    exists []. rewrite Hv. simpl.
    by rewrite (right_id_L [] (++)), andb_true_r. }
  destruct (is_token node "...") eqn:Hdots.
  { apply is_token_inv in Hdots as Hinv. destruct Hinv as (Hv & -> & _).
    assert (is_token node "import" = false) as ->.
    { unfold is_token, value in *. destruct (here node); [|done].
      injection Hv as ->. by rewrite andb_false_r. }
    exists []. rewrite Hv. simpl.
    by rewrite (right_id_L [] (++)), andb_true_r. }
  rewrite Nat.add_0_r. cbn [orb].
  destruct (isinstance_Node node) eqn:Hnode.
  { assert (is_token node "import" = false) as ->.
    { unfold is_token, isinstance_Node in *. by destruct (here node). }
    cbn [andb negb]. rewrite andb_true_r.
    assert (∃ cs, children node = Ok cs) as [cs Hcs].
    { unfold children, isinstance_Node in *. destruct (here node); [done|].
      by eexists. }
    destruct (String.eqb (type node) "dotted_name").
    - rewrite Hcs. eexists. split; [done|]. apply check_dotted_before.
    - assert (isinstance_Name node = false) as ->.
      { unfold isinstance_Name, isinstance_Node in *. by destruct (here node). }
      exists []. by rewrite (right_id_L [] (++)). }
  cbn [andb].
  destruct (isinstance_Name node) eqn:Hname.
  { assert (is_token node "import" = false) as ->.
    { unfold is_token, isinstance_Name in *.
      destruct (here node); [|done]. apply String.eqb_eq in Hname as ->. done. }
    cbn [andb negb]. rewrite andb_true_r.
    destruct (pos_lt (end_pos node) pos) eqn:Hbefore; cbn [andb].
    - exists [node]. split; [done|]. by apply Forall_singleton.
    - exists []. by rewrite (right_id_L [] (++)). }
  cbn [andb].
  destruct (is_token node "import" && pos_lt (end_pos node) pos);
    exists []; rewrite (right_id_L [] (++)); cbn [negb].
  - by rewrite andb_false_r.
  - by rewrite andb_true_r.
Qed.

Lemma import_from_nodes_steps (pos : Pos) (nodes : list Node)
    (request : ImporterRequest) :
  ∃ added,
    import_from_nodes pos request nodes
    = Ok (mkImporterRequest
            (import_names request ++ added)
            (import_level request + sum_list (leading_dots <$> nodes))
            (only_modules request
             && negb (existsb (λ node, is_token node "import"
                                       && pos_lt (end_pos node) pos) nodes))) ∧
    Forall (λ name, pos_lt (end_pos name) pos = true) added.
Proof.
  revert request. induction nodes as [|node nodes IH]; intros request.
  - exists []. destruct request. simpl.
    by rewrite (right_id_L [] (++)), Nat.add_0_r, andb_true_r.
  - cbn [import_from_nodes].
    destruct (import_from_node_step pos request node) as (added & -> & Hadded).
    cbn [mbind result_bind].
    destruct (IH (mkImporterRequest (import_names request ++ added)
                    (import_level request + leading_dots node)
                    (only_modules request
                     && negb (is_token node "import"
                              && pos_lt (end_pos node) pos))))
      as (added' & -> & Hadded').
    exists (added ++ added'). split; [|by apply Forall_app].
    cbn [import_names import_level only_modules fmap list_fmap sum_list
         existsb].
    f_equal. f_equal.
    + by rewrite (assoc_L (++)).
    + unfold id. lia.
    + rewrite negb_orb. by rewrite andb_assoc.
Qed.

Lemma importer_from_stack_steps (pos : Pos)
    (entries : list (string * list Node)) (request : ImporterRequest) :
  ∃ added,
    importer_from_stack pos request entries
    = Ok (mkImporterRequest
            (import_names request ++ added)
            (import_level request + relative_level entries)
            (only_modules request
             && negb (import_keyword_before pos entries))) ∧
    Forall (λ name, pos_lt (end_pos name) pos = true) added.
Proof.
  revert request. induction entries as [|[typ nodes] entries IH];
    intros request.
  - exists []. destruct request. simpl.
    by rewrite (right_id_L [] (++)), Nat.add_0_r, andb_true_r.
  - cbn [importer_from_stack].
    unfold relative_level, import_keyword_before.
    cbn [flat_map existsb fst snd]. rewrite sum_list_append.
    destruct (String.eqb typ "dotted_name") eqn:Hdotted.
    + assert (String.eqb typ "import_from" = false) as ->.
      { apply String.eqb_eq in Hdotted as ->. done. }
      cbn [mbind result_bind].
      destruct (IH (mkImporterRequest
                      (import_names request ++ check_dotted pos nodes)
                      (import_level request) (only_modules request)))
        as (added' & -> & Hadded').
      exists (check_dotted pos nodes ++ added').
      split; [|apply Forall_app; split; [apply check_dotted_before|done]].
      cbn [import_names import_level only_modules sum_list andb orb].
      f_equal. f_equal. by rewrite (assoc_L (++)).
    + destruct (String.eqb typ "import_from").
      * destruct (import_from_nodes_steps pos nodes request)
          as (added & -> & Hadded).
        cbn [mbind result_bind].
        destruct (IH (mkImporterRequest (import_names request ++ added)
                        (import_level request
                         + sum_list (leading_dots <$> nodes))
                        (only_modules request
                         && negb (existsb
                                    (λ node, is_token node "import"
                                             && pos_lt (end_pos node) pos)
                                    nodes))))
          as (added' & -> & Hadded').
        exists (added ++ added'). split; [|by apply Forall_app].
        cbn [import_names import_level only_modules andb].
        f_equal. f_equal.
        -- by rewrite (assoc_L (++)).
        -- unfold relative_level, id. lia.
        -- rewrite negb_orb. by rewrite andb_assoc.
      * cbn [mbind result_bind].
        destruct (IH request) as (added' & -> & Hadded').
        exists added'. split; [|done].
        cbn [sum_list andb orb]. done.
Qed.

(** X19. Looking for the import under the cursor among the error
    statements never raises.  When it finds one, that statement is an
    import ([import_from] or [import_name]) that begins strictly before
    the position and whose following token does not start before it,
    and every name handed to the importer ends strictly before the
    position: nothing at or behind the cursor is imported. *)
Theorem X19_import_names_end_before_the_cursor
    (error_statement_stacks : list ErrorStatement) (pos : Pos) :
  ∃ found,
    check_error_statements error_statement_stacks pos = Ok found ∧
    ∀ request, found = Some request →
      Forall (λ name, pos_lt (end_pos name) pos = true)
             (import_names request) ∧
      ∃ error_statement,
        error_statement ∈ error_statement_stacks ∧
        importer_from_error_statement error_statement pos = Ok request ∧
        (first_type error_statement = "import_from"
         ∨ first_type error_statement = "import_name") ∧
        pos_lt (first_pos error_statement) pos = true ∧
        pos_lt (next_start_pos error_statement) pos = false.
Proof.
  induction error_statement_stacks as [|es rest IH].
  - exists None. split; [done|]. done.
  - cbn [check_error_statements].
    destruct (is_import_at pos es) eqn:Hat.
    + unfold importer_from_error_statement at 1.
      destruct (importer_from_stack_steps pos (stack es)
                  (mkImporterRequest [] 0 true)) as (added & Hrun & Hadded).
      rewrite Hrun. eexists. split; [done|].
      intros request [= <-]. split; [done|].
      exists es. split; [apply list_elem_of_here|].
      split; [exact Hrun|].
      unfold is_import_at in Hat.
      apply andb_true_iff in Hat as [[Hty Hfirst]%andb_true_iff Hnext].
      split; [|split; [done|by apply negb_true_iff]].
      apply orb_true_iff in Hty as [?%String.eqb_eq|?%String.eqb_eq]; auto.
    + destruct IH as (found & -> & Hfound). exists found. split; [done|].
      intros request Hreq. destruct (Hfound _ Hreq) as (? & es' & ? & ?).
      split; [done|]. exists es'. split; [by apply list_elem_of_further|done].
Qed.

(** X20. The level of the import is the number of dots in the
    [import_from] entries of the stack (a token [.] counts one, a token
    [...] three, wherever the cursor is), and the importer is limited to
    modules unless an [import_from] entry holds the keyword [import]
    ending before the position.  Entries of other types add nothing. *)
Theorem X20_import_level_counts_the_dots
    (error_statement : ErrorStatement) (pos : Pos) :
  ∃ request,
    importer_from_error_statement error_statement pos = Ok request ∧
    import_level request = relative_level (stack error_statement) ∧
    only_modules request
    = negb (import_keyword_before pos (stack error_statement)).
Proof.
  unfold importer_from_error_statement.
  destruct (importer_from_stack_steps pos (stack error_statement)
              (mkImporterRequest [] 0 true)) as (added & -> & _).
  eexists. split; [done|]. done.
Qed.

Lemma filter_all {A} (f : A → bool) (l : list A) :
  Forall (λ a, f a = true) l → List.filter f l = l.
Proof.
  induction 1 as [|a l Ha _ IH]; simpl; [done|]. by rewrite Ha, IH.
Qed.

(** X21. A dotted name is read differently in the two places where it
    can stand.  As a stack entry of type [dotted_name], whose nodes are
    the names and the dots between them, every name before the position
    is handed to the importer.  As a [dotted_name] node inside an
    [import_from] entry, its children are thinned out twice, so that
    only every second name is: of [a.b.c] the names [a] and [c]. *)
Theorem X21_dotted_name_inside_import_from (pos : Pos) (node : Node)
    (dotted : list Node) (request : ImporterRequest)
    (Htype : type node = "dotted_name")
    (Hchildren : children node = Ok dotted)
    (Hbefore : Forall (λ name, pos_lt (end_pos name) pos = true)
                      (every_second dotted)) :
  importer_from_stack pos request [("dotted_name", dotted)]
  = Ok (mkImporterRequest (import_names request ++ every_second dotted)
          (import_level request) (only_modules request)) ∧
  importer_from_stack pos request [("import_from", [node])]
  = Ok (mkImporterRequest
          (import_names request ++ every_second (every_second dotted))
          (import_level request) (only_modules request)).
Proof.
  assert (Hthinned : Forall (λ name, pos_lt (end_pos name) pos = true)
                            (every_second (every_second dotted))).
  { revert Hbefore. generalize (every_second dotted) as names.
    fix IH 1. intros [|a [|b names]] Hall; simpl.
    - constructor.
    - done.
    - apply Forall_cons in Hall as [Ha Hall].
      apply Forall_cons in Hall as [_ Hall].
      constructor; [done|]. by apply IH. }
  split.
  - cbn [importer_from_stack String.eqb]. simpl.
    unfold check_dotted. by rewrite (filter_all _ _ Hbefore).
  - destruct request as [names level only].
    assert (isinstance_Node node = true) as Hnode.
    { unfold children, isinstance_Node in *. by destruct (here node). }
    cbn [importer_from_stack import_from_nodes]. simpl.
    unfold import_from_node. rewrite Hnode, Htype, Hchildren. simpl.
    unfold check_dotted. by rewrite (filter_all _ _ Hthinned).
Qed.

Lemma X21_dotted_name_inside_import_from_witness :
  let node := mkNode ImportModule.dotted [] ImportModule.dotted in
  ∃ pkg dot mod_,
    children node = Ok [pkg; dot; mod_] ∧
    importer_from_stack ImportModule.cursor (mkImporterRequest [] 0 true)
      [("dotted_name", [pkg; dot; mod_])]
    = Ok (mkImporterRequest [pkg; mod_] 0 true) ∧
    importer_from_stack ImportModule.cursor (mkImporterRequest [] 0 true)
      [("import_from", [node])]
    = Ok (mkImporterRequest [pkg] 0 true).
Proof.
  intros node. eexists _, _, _. split; [reflexivity|].
  refine (X21_dotted_name_inside_import_from ImportModule.cursor node _
            (mkImporterRequest [] 0 true) eq_refl eq_refl _).
  repeat constructor.
Defined.

(** ** Tuple unpacking *)

Section UnpackingFacts.
Variable inference_state : InferenceState.

Lemma children_handles (n : Node) (ty : string) (cs : list Tree) :
  here n = BaseNode ty cs →
  children n = Ok (handles (root n) (path n) 0%nat cs).
Proof.
  unfold children. intros ->. f_equal.
  change (λ i c, mkNode (root n) (path n ++ [i]) c)
    with (λ i c, mkNode (root n) (path n ++ [(0 + i)%nat]) c).
  generalize 0%nat. induction cs as [|c cs IH]; intros i; simpl; [done|].
  rewrite Nat.add_0_r. f_equal. rewrite <- IH. apply imap_ext.
  intros j c' _. simpl. do 3 f_equal. lia.
Qed.

Lemma too_many_values_reports (context : Context) (part : Node)
    (left_over : list LazyValue) (n : nat) (issues : list Issue) :
  too_many_values context (Some part) left_over n issues
  = (Done (),
     issues ++ ((λ k, mkIssue context "value-error-too-many-values" part k)
                <$> seq (S n) (length left_over))).
Proof.
  revert n issues. induction left_over as [|l left_over IH]; intros n issues.
  - simpl. by rewrite (right_id_L [] (++)).
  - cbn [too_many_values]. rewrite IH. simpl.
    by rewrite <- (assoc_L (++)).
Qed.

Lemma unsupported_target_cases (ty : string) :
  unsupported_target ty = true →
  ty = "power" ∨ ty = "atom_expr" ∨ ty = "star_expr".
Proof.
  unfold unsupported_target. rewrite !orb_true_iff, !String.eqb_eq. tauto.
Qed.

(** A target that is a name binds it to the whole value set; a target
    of a type that is left out binds nothing; neither reports. *)
Lemma unpack_tree_simple (context : Context) (rt t : Tree) (p : Path)
    (types : ValueSet) (issues : list Issue) :
  simple_target (mkNode rt p t) = true →
  unpack_tree inference_state context rt t p types issues
  = (Done (match bound_name (mkNode rt p t) with
           | Some x => {[ x := types ]}
           | None => ∅
           end), issues).
Proof.
  unfold simple_target, bound_name. cbn [here].
  destruct t as [ty v s e|ty cs]; cbn [unpack_tree].
  - destruct (String.eqb ty "name"); [done|]. cbn [orb].
    intros [->|[->| ->]]%unsupported_target_cases; done.
  - intros [->|[->| ->]]%unsupported_target_cases; done.
Qed.

Lemma bindings_cons (part : Node) (parts : list Node) (v : ValueSet)
    (values : list ValueSet) :
  bindings (part :: parts) (v :: values)
  = match bound_name part with
    | Some x => (x, v) :: bindings parts values
    | None => bindings parts values
    end.
Proof. unfold bindings. simpl. by destruct (bound_name part). Qed.

(** The loop over a list of such targets. *)
Lemma unpack_parts_simple (context : Context) (rt : Tree) (p : Path)
    (types : ValueSet) (cs : list Tree) :
  ∀ i part iterated n dct issues,
    Forall (λ part, simple_target part = true)
           (every_second (handles rt p i cs)) →
    (part = None → cs = [] → iterated = []) →
    unpack_parts inference_state (unpack_tree inference_state context rt)
      context rt p types cs i part iterated n dct issues
    = (Done (list_to_map
               (reverse (bindings (every_second (handles rt p i cs))
                           (lazy_infer inference_state <$> iterated)))
             ∪ dct),
       issues ++ reports context types (every_second (handles rt p i cs))
                   part (length iterated) n).
Proof.
  induction cs as [cs IH] using (induction_ltof1 _ length).
  unfold ltof in IH. intros i part iterated n dct issues Hsimple Hbound.
  destruct cs as [|c cs].
  - cbn [unpack_parts every_second handles]. unfold bindings at 1.
    cbn [zip zip_with omap list_omap].
    rewrite reverse_nil, list_to_map_nil, (left_id_L ∅ (∪)).
    destruct part as [part|].
    + by rewrite too_many_values_reports.
    + rewrite (Hbound eq_refl eq_refl). simpl.
      by rewrite (right_id_L [] (++)).
  - set (rest := match cs with [] => cs | _ :: cs'' => cs'' end).
    assert (Hhandles :
      every_second (handles rt p i (c :: cs))
      = mkNode rt (p ++ [i]) c
        :: every_second (handles rt p (S (S i)) rest)).
    { subst rest. by destruct cs. }
    rewrite Hhandles in *. apply Forall_cons in Hsimple as [Hc Hrest].
    cbn [unpack_parts].
    destruct iterated as [|lazy_value iterated].
    + unfold bindings. cbn [fmap list_fmap zip zip_with omap list_omap length
                             reports].
      rewrite reverse_nil, list_to_map_nil, (left_id_L ∅ (∪)).
      destruct (bool_decide (types ≠ ∅)); [done|].
      by rewrite (right_id_L [] (++)).
    + rewrite (unpack_tree_simple _ _ _ _ _ _ Hc).
      fold rest.
      rewrite (IH rest); [| subst rest; destruct cs; simpl; lia | done | done].
      rewrite fmap_cons, bindings_cons. cbn [length reports].
      f_equal. destruct (bound_name (mkNode rt (p ++ [i]) c)) as [x|].
      * rewrite reverse_cons, list_to_map_app. cbn [list_to_map foldr].
        rewrite insert_empty. by rewrite (assoc_L (∪)).
      * by rewrite (left_id_L ∅ (∪)).
Qed.

Lemma reports_by_count (context : Context) (types : ValueSet)
    (exprlist : Node) (parts : list Node) :
  ∀ part count n,
    (part = None → parts ≠ []) →
    reports context types parts part count n
    = if (count <? length parts)%nat then
        if bool_decide (types ≠ ∅) then
          [mkIssue context "value-error-too-few-values"
             (default exprlist (parts !! count)) (n + count)]
        else []
      else
        (λ k, mkIssue context "value-error-too-many-values"
                (default exprlist (last (option_list part ++ parts))) k)
        <$> seq (S (n + length parts)) (count - length parts).
Proof.
  induction parts as [|next_part parts IH]; intros part count n Hpart.
  - destruct part as [part|]; [|by destruct Hpart].
    cbn [reports length]. rewrite Nat.add_0_r, Nat.sub_0_r. done.
  - cbn [reports length]. destruct count as [|count].
    + simpl. by rewrite Nat.add_0_r.
    + rewrite IH by done.
      change (S count <? S (length parts))%nat with (count <? length parts)%nat.
      replace (S n + count)%nat with (n + S count)%nat by lia.
      replace (S n + length parts)%nat with (n + S (length parts))%nat by lia.
      cbn [lookup list_lookup Nat.sub].
      unfold option_list, option_rect.
      destruct part as [part|]; cbn [app]; [|done].
      by rewrite !last_cons_cons.
Qed.

(** X22. Unpacking into a list of targets that are names or are of a
    type that is left out ([power], [atom_expr], [star_expr]) never
    raises.  The targets take the values of the iteration by position: a
    name is bound to the value at its position, a later binding of the
    same name replaces an earlier one, and a target that is left out
    takes its value without binding anything.  What is reported depends
    only on the two lengths: nothing if they agree; with fewer values
    than targets one report at the first target left without a value
    (none if the value set is empty); with more values one report for
    each value too many, numbered on, all at the last target.  Reports
    made before are kept. *)
Theorem X22_unpack_by_position (context : Context) (types : ValueSet)
    (exprlist : Node) (parts : list Node) (issues : list Issue)
    (Htype : tuple_like_target (type exprlist) = true)
    (Hparts : every_second <$> children exprlist = Ok parts)
    (Hne : parts ≠ [])
    (Hsimple : Forall (λ part, simple_target part = true) parts) :
  let values := lazy_infer inference_state
                <$> iterate_values inference_state types in
  unpack_tuple_to_dict inference_state context types exprlist issues
  = (Done (list_to_map (reverse (bindings parts values))),
     issues ++ arity_reports context types exprlist parts (length values)).
Proof.
  intros values. subst values. rewrite length_fmap.
  unfold unpack_tuple_to_dict.
  destruct (here exprlist) as [|ty cs] eqn:Hhere.
  { unfold children in Hparts. by rewrite Hhere in Hparts. }
  rewrite (children_handles _ _ _ Hhere) in Hparts.
  injection Hparts as <-.
  unfold type in Htype. rewrite Hhere in Htype.
  cbn [unpack_tree].
  assert (String.eqb ty "name" = false) as ->.
  { destruct (String.eqb ty "name") eqn:E; [|done].
    apply String.eqb_eq in E as ->. done. }
  assert (String.eqb ty "atom" = false) as ->.
  { destruct (String.eqb ty "atom") eqn:E; [|done].
    apply String.eqb_eq in E as ->. done. }
  rewrite Htype.
  rewrite unpack_parts_simple; [|done|by intros _ ->].
  rewrite (right_id_L ∅ (∪)). f_equal. f_equal.
  rewrite (reports_by_count _ _ exprlist) by done.
  unfold arity_reports, option_list, option_rect. cbn [app]. done.
Qed.

End UnpackingFacts.

Lemma X22_unpack_by_position_witness :
  let unpack := unpack_tuple_to_dict UnpackModule.inference_state
                  UnpackModule.context in
  unpack UnpackModule.pair UnpackModule.exprlist []
  = (Done {[ "a" := UnpackModule.one; "b" := UnpackModule.text ]}, []) ∧
  unpack UnpackModule.triple UnpackModule.subscript []
  = (Done {[ "a" := UnpackModule.one; "b" := UnpackModule.one ]}, []) ∧
  unpack UnpackModule.triple UnpackModule.exprlist []
  = (Done {[ "a" := UnpackModule.one; "b" := UnpackModule.text ]},
     [mkIssue UnpackModule.context "value-error-too-many-values"
        (mkNode UnpackModule.exprlist_tree [2%nat] (Fixture.name_ "b" 1 7))
        3]) ∧
  unpack UnpackModule.pair UnpackModule.subscript []
  = (Done {[ "a" := UnpackModule.one ]},
     [mkIssue UnpackModule.context "value-error-too-few-values"
        (mkNode UnpackModule.subscript_tree [4%nat] (Fixture.name_ "b" 1 13))
        2]).
Proof.
  intros unpack. subst unpack. split_and!.
  - rewrite (X22_unpack_by_position UnpackModule.inference_state
               UnpackModule.context UnpackModule.pair UnpackModule.exprlist
               _ [] eq_refl eq_refl); [|done|repeat constructor].
    vm_compute. done.
  - rewrite (X22_unpack_by_position UnpackModule.inference_state
               UnpackModule.context UnpackModule.triple UnpackModule.subscript
               _ [] eq_refl eq_refl); [|done|repeat constructor].
    vm_compute. done.
  - rewrite (X22_unpack_by_position UnpackModule.inference_state
               UnpackModule.context UnpackModule.triple UnpackModule.exprlist
               _ [] eq_refl eq_refl); [|done|repeat constructor].
    vm_compute. done.
  - rewrite (X22_unpack_by_position UnpackModule.inference_state
               UnpackModule.context UnpackModule.pair UnpackModule.subscript
               _ [] eq_refl eq_refl); [|done|repeat constructor].
    vm_compute. done.
Defined.

Lemma Tree_nested_ind (P : Tree → Prop) :
  (∀ ty v s e, P (Leaf ty v s e)) →
  (∀ ty cs, Forall P cs → P (BaseNode ty cs)) →
  ∀ t, P t.
Proof.
  intros Hleaf Hnode. fix IH 1. intros [ty v s e|ty cs]; [apply Hleaf|].
  apply Hnode. induction cs as [|c cs IHcs]; constructor; [apply IH|done].
Qed.

Lemma name_leaves_children (ty : string) (cs : list Tree) (rt : Tree)
    (p : Path) :
  name_leaves (BaseNode ty cs) rt p = name_leaves_below rt p cs 0%nat.
Proof.
  cbn [name_leaves]. generalize 0%nat.
  induction cs as [|c cs IH]; intros i; [done|].
  cbn [name_leaves_below]. by rewrite <- IH.
Qed.

Section UnpackingInvariants.
Variable inference_state : InferenceState.
Variable context : Context.

(** Reports are only added, and all in the context that was given. *)
Let grows (issues issues' : list Issue) : Prop :=
  ∃ new, issues' = issues ++ new ∧
         Forall (λ issue, issue_context issue = context) new.

Lemma grows_refl (issues : list Issue) : grows issues issues.
Proof. exists []. by rewrite (right_id_L [] (++)). Qed.

Lemma grows_trans (a b c : list Issue) : grows a b → grows b c → grows a c.
Proof.
  intros (new & -> & Hnew) (new' & -> & Hnew'). exists (new ++ new').
  split; [by rewrite (assoc_L (++))|by apply Forall_app].
Qed.

Lemma grows_one (issues : list Issue) (name : string) (node : Node) (n : nat) :
  grows issues (issues ++ [mkIssue context name node n]).
Proof. eexists. split; [done|]. by apply Forall_singleton. Qed.

Lemma too_many_values_grows (part : option Node) (left_over : list LazyValue) :
  ∀ n issues, grows issues (too_many_values context part left_over n issues).2.
Proof.
  induction left_over as [|l left_over IH]; intros n issues;
    cbn [too_many_values]; [apply grows_refl|].
  destruct part as [part|]; [|apply grows_refl].
  eapply grows_trans; [apply grows_one|apply IH].
Qed.

(** What one call keeps: the reports made before, and for the names it
    binds, that each is the text of a name in [names]. *)
Let kept (names : list Node) (issues : list Issue)
    (result : outcome (gmap string ValueSet) * list Issue) : Prop :=
  grows issues result.2 ∧
  ∀ dct x, result.1 = Done dct → is_Some (dct !! x) →
    ∃ name, name ∈ names ∧ value name = Ok x.

Lemma unpack_parts_kept (rt : Tree) (p : Path) (types : ValueSet)
    (cs : list Tree) :
  ∀ i part iterated n dct issues names,
    Forall (λ t, ∀ p' types' issues',
              kept (name_leaves t rt p') issues'
                (unpack_tree inference_state context rt t p' types' issues'))
           cs →
    (∀ x, is_Some (dct !! x) → ∃ name, name ∈ names ∧ value name = Ok x) →
    kept (names ++ name_leaves_below rt p cs i) issues
      (unpack_parts inference_state (unpack_tree inference_state context rt)
         context rt p types cs i part iterated n dct issues).
Proof.
  induction cs as [cs IH] using (induction_ltof1 _ length).
  unfold ltof in IH. intros i part iterated n dct issues names Hcs Hdct.
  destruct cs as [|c cs].
  - cbn [unpack_parts name_leaves_below]. rewrite (right_id_L [] (++)).
    pose proof (too_many_values_grows part iterated n issues) as Hgrows.
    destruct (too_many_values context part iterated n issues) as [[[]|e] issues'].
    + split; [done|]. intros dct' x [= <-]. apply Hdct.
    + split; [done|]. done.
  - apply Forall_cons in Hcs as [Hc Hcs]. cbn [unpack_parts].
    destruct iterated as [|lazy_value iterated].
    + assert (Hnames : ∀ dct' x, Done dct = Done dct' → is_Some (dct' !! x) →
                ∃ name, name ∈ names ++ name_leaves_below rt p (c :: cs) i
                        ∧ value name = Ok x).
      { intros dct' x [= <-] Hx. destruct (Hdct x Hx) as (name & Hin & Hv).
        exists name. split; [|done]. apply elem_of_app. by left. }
      destruct (bool_decide (types ≠ ∅)); split; cbn [fst snd];
        [apply grows_one|done|apply grows_refl|done].
    + specialize (Hc (p ++ [i]) (lazy_infer inference_state lazy_value) issues).
      destruct (unpack_tree inference_state context rt c (p ++ [i])
                  (lazy_infer inference_state lazy_value) issues)
        as [[update|e] issues'].
      * destruct Hc as [Hgrows Hupdate]. cbn [fst snd] in *.
        set (rest := match cs with [] => cs | _ :: cs'' => cs'' end).
        assert (Hrest : Forall (λ t, ∀ p' types' issues',
                  kept (name_leaves t rt p') issues'
                    (unpack_tree inference_state context rt t p' types' issues'))
                  rest).
        { subst rest. destruct cs; [done|]. by apply Forall_cons in Hcs as [_ ?]. }
        destruct (IH rest) with (i := S (S i)) (part := Some (mkNode rt (p ++ [i]) c))
          (iterated := iterated) (n := S n) (dct := update ∪ dct)
          (issues := issues')
          (names := names ++ name_leaves c rt (p ++ [i])) as [Hgrows' Hnames'].
        { subst rest. destruct cs; simpl; lia. }
        { done. }
        { intros x [Hx|Hx]%lookup_union_is_Some.
          - destruct (Hupdate update x eq_refl Hx) as (name & Hin & Hv).
            exists name. split; [|done]. apply elem_of_app. by right.
          - destruct (Hdct x Hx) as (name & Hin & Hv).
            exists name. split; [|done]. apply elem_of_app. by left. }
        split; [by eapply grows_trans|].
        intros dct' x Hdone Hx.
        destruct (Hnames' dct' x Hdone Hx) as (name & Hin & Hv).
        exists name. split; [|done].
        cbn [name_leaves_below].
        rewrite <- (assoc_L (++)) in Hin.
        apply elem_of_app in Hin as [Hin|Hin]; [apply elem_of_app; by left|].
        apply elem_of_app in Hin as [Hin|Hin].
        -- apply elem_of_app. right. apply elem_of_app. by left.
        -- apply elem_of_app. right. apply elem_of_app. right.
           subst rest. destruct cs as [|sep cs]; [done|].
           cbn [name_leaves_below]. apply elem_of_app. by right.
      * destruct Hc as [Hgrows _]. split; [done|]. done.
Qed.

Lemma unpack_tree_kept (rt : Tree) (t : Tree) :
  ∀ p types issues,
    kept (name_leaves t rt p) issues
      (unpack_tree inference_state context rt t p types issues).
Proof.
  induction t as [ty v s e|ty cs IH] using Tree_nested_ind;
    intros p types issues.
  - cbn [unpack_tree name_leaves].
    destruct (String.eqb ty "name").
    + split; [apply grows_refl|]. intros dct x [= <-] Hx.
      apply lookup_singleton_is_Some in Hx as <-.
      eexists. split; [apply list_elem_of_here|]. done.
    + destruct (String.eqb ty "atom" || tuple_like_target ty);
        [split; [apply grows_refl|done]|].
      destruct (unsupported_target ty); split;
        [apply grows_refl|intros dct x [= <-] [? Hx]; by rewrite lookup_empty in Hx
        |apply grows_refl|done].
  - rewrite name_leaves_children. cbn [unpack_tree].
    assert (Hotherwise :
      kept (name_leaves_below rt p cs 0) issues
        (if unsupported_target ty then (Done ∅, issues)
         else (Threw (Exception NotImplementedError), issues))).
    { destruct (unsupported_target ty); split;
        [apply grows_refl|intros dct x [= <-] [? Hx]; by rewrite lookup_empty in Hx
        |apply grows_refl|done]. }
    destruct (String.eqb ty "name"); [split; [apply grows_refl|done]|].
    destruct (String.eqb ty "atom").
    + destruct cs as [|bracket cs]; [split; [apply grows_refl|done]|].
      destruct (is_token _ "(" || is_token _ "["); [|done].
      destruct cs as [|inner cs]; [split; [apply grows_refl|done]|].
      apply Forall_cons in IH as [_ IH]. apply Forall_cons in IH as [IH _].
      destruct (IH (p ++ [1%nat]) types issues) as [Hgrows Hnames].
      split; [done|]. intros dct x Hdone Hx.
      destruct (Hnames dct x Hdone Hx) as (name & Hin & Hv).
      exists name. split; [|done]. cbn [name_leaves_below].
      apply elem_of_app. right. apply elem_of_app. by left.
    + destruct (tuple_like_target ty); [|done].
      apply (unpack_parts_kept rt p types cs 0%nat None
               (iterate_values inference_state types) 0%nat ∅ issues []);
        [done|].
      intros x [? Hx]. by rewrite lookup_empty in Hx.
Qed.

(** X23. Whatever the target looks like and however the call ends,
    [unpack_tuple_to_dict] keeps the reports made before it and adds
    only reports in the context it was given; and when it returns a
    dict, every key of the dict is the text of a name that occurs in the
    target: it binds nothing else. *)
Theorem X23_unpack_binds_only_names_of_the_target (types : ValueSet)
    (exprlist : Node) (issues : list Issue) :
  let result :=
    unpack_tuple_to_dict inference_state context types exprlist issues in
  (∃ new, result.2 = issues ++ new ∧
          Forall (λ issue, issue_context issue = context) new) ∧
  ∀ dct x, result.1 = Done dct → is_Some (dct !! x) →
    ∃ name, name ∈ names_in exprlist ∧ value name = Ok x.
Proof.
  apply unpack_tree_kept.
Qed.

End UnpackingInvariants.

(** ** Comprehensions *)

Section ComprehensionFacts.
Variable inference_state : InferenceState.
Variable iterate_async : ValueSet → list LazyValue.

Lemma unpack_simple_target (context : Context) (types : ValueSet)
    (exprlist : Node) (issues : list Issue) :
  simple_target exprlist = true →
  unpack_tuple_to_dict inference_state context types exprlist issues
  = (Done (match bound_name exprlist with
           | Some x => {[ x := types ]}
           | None => ∅
           end), issues).
Proof.
  destruct exprlist as [rt p t]. apply unpack_tree_simple.
Qed.

(** With plain clauses, [_nested] is the nested loops; without clauses
    it ends in the [IndexError] that the loop above it waits for. *)
Lemma _nested_plain (self : Comprehension) (comp_fors : list Node) :
  Forall (λ comp_for, plain_clause comp_for = true) comp_fors →
  ∀ parent_context issues,
    _nested inference_state iterate_async self comp_fors parent_context issues
    = (match comp_fors with
       | [] => Produced [] (Some (Exception IndexError))
       | _ :: _ =>
           Produced
             (nested_loops inference_state iterate_async self comp_fors
                (default (_defining_context self) parent_context))
             None
       end, issues).
Proof.
  induction 1 as [|comp_for comp_fors Hplain Hrest IH];
    intros parent_context issues; [done|].
  cbn [_nested nested_loops]. unfold plain_clause in Hplain.
  destruct (comp_for_parts comp_for) as [[[is_async input_node] exprlist]|];
    [|done].
  set (context := default (_defining_context self) parent_context).
  generalize (if is_async
              then iterate_async (infer_node inference_state context input_node)
              else iterate_values inference_state
                     (infer_node inference_state context input_node)).
  intros iterated. revert issues.
  induction iterated as [|lazy_value iterated IHloop]; intros issues; [done|].
  rewrite (unpack_simple_target _ _ _ _ Hplain), IH.
  cbn [flat_map default]. rewrite IHloop.
  destruct comp_fors; cbn [yielded raised nested_loops app]; done.
Qed.

(** X24. A comprehension whose clauses can all be read, with targets
    that are names (or of a type that unpacking leaves out), is
    evaluated as nested loops over its clauses.  The first clause is
    iterated in the defining context, or in the context that was passed;
    each value is bound to the target in a new context under it, and the
    next clause is iterated there; the entry is inferred once for each
    pass of the innermost loop, in the innermost context, and the
    results come in loop order.  The generator ends without an
    exception and reports nothing. *)
Theorem X24_comprehension_is_nested_loops (self : Comprehension)
    (comp_fors : list Node) (parent_context : option Context)
    (issues : list Issue)
    (Hclauses : comp_fors ≠ [])
    (Hplain : Forall (λ comp_for, plain_clause comp_for = true) comp_fors) :
  _nested inference_state iterate_async self comp_fors parent_context issues
  = (Produced
       (nested_loops inference_state iterate_async self comp_fors
          (default (_defining_context self) parent_context))
       None,
     issues).
Proof.
  rewrite (_nested_plain _ _ Hplain). by destruct comp_fors.
Qed.

(** X25. The end of the clauses is found by an [IndexError], and any
    [IndexError] is taken for it.  If a clause after a plain one cannot
    be read because its node has too few children, the comprehension
    gives what it gives without that clause and all that follow it, and
    no exception.  If the clause cannot be read for another reason, the
    generator ends with that exception as soon as the clause before it
    has a value, having yielded nothing. *)
Theorem X25_unreadable_clause (self : Comprehension)
    (comp_for broken : Node) (later : list Node)
    (parent_context : option Context) (issues : list Issue) (e : exn)
    (Hplain : plain_clause comp_for = true)
    (Hbroken : comp_for_parts broken = Raise e) :
  let run := _nested inference_state iterate_async self in
  (e = IndexError →
   run (comp_for :: broken :: later) parent_context issues
   = run [comp_for] parent_context issues) ∧
  (e ≠ IndexError →
   yielded (run [comp_for] parent_context issues).1 ≠ [] →
   run (comp_for :: broken :: later) parent_context issues
   = (Produced [] (Some (Exception e)), issues)).
Proof.
  intros run. subst run. cbn [_nested]. rewrite Hbroken.
  unfold plain_clause in Hplain.
  destruct (comp_for_parts comp_for) as [[[is_async input_node] exprlist]|];
    [|done].
  set (context := default (_defining_context self) parent_context).
  generalize (if is_async
              then iterate_async (infer_node inference_state context input_node)
              else iterate_values inference_state
                     (infer_node inference_state context input_node)).
  intros iterated. split.
  - intros ->. done.
  - intros He. destruct iterated as [|lazy_value iterated]; [done|].
    intros _. rewrite (unpack_simple_target _ _ _ _ Hplain).
    destruct e; done.
Qed.

End ComprehensionFacts.

Lemma X24_comprehension_is_nested_loops_witness :
  let self := mkComprehension ListComprehension ComprehensionModule.context
                ComprehensionModule.outer
                (Fixture.the_node ComprehensionModule.module_node [0; 1; 0]%nat) in
  _nested ComprehensionModule.inference_state (λ _, []) self
    [ComprehensionModule.outer; ComprehensionModule.inner] None []
  = (Produced [Values {[ Fixture.int_ 1 ]}; Values {[ Fixture.str_ "x" ]};
               Values {[ Fixture.int_ 2 ]}] None, []).
Proof.
  intros self.
  rewrite (X24_comprehension_is_nested_loops
             ComprehensionModule.inference_state (λ _, []) self
             [ComprehensionModule.outer; ComprehensionModule.inner] None []);
    [|done|repeat constructor].
  vm_compute. done.
Defined.

Lemma X25_unreadable_clause_witness :
  let self := mkComprehension ListComprehension ComprehensionModule.context
                ComprehensionModule.outer
                (Fixture.the_node ComprehensionModule.module_node [0; 1; 0]%nat) in
  let run := _nested ComprehensionModule.inference_state (λ _, []) self in
  let short := Fixture.the_node ComprehensionModule.module_node [0; 1]%nat in
  let leaf := Fixture.the_node ComprehensionModule.module_node [0; 0]%nat in
  run [ComprehensionModule.outer; short] None []
  = run [ComprehensionModule.outer] None [] ∧
  run [ComprehensionModule.outer; leaf] None []
  = (Produced [] (Some (Exception AttributeError)), []).
Proof.
  intros self run short leaf. split.
  - refine (proj1 (X25_unreadable_clause ComprehensionModule.inference_state
                     (λ _, []) self ComprehensionModule.outer short [] None []
                     IndexError eq_refl eq_refl) eq_refl).
  - refine (proj2 (X25_unreadable_clause ComprehensionModule.inference_state
                     (λ _, []) self ComprehensionModule.outer leaf [] None []
                     AttributeError eq_refl eq_refl) _ _); [done|].
    vm_compute. done.
Defined.

Ltac outcome_cases H :=
  repeat (cbn [mbind outcome_bind lift result_bind] in H;
          match type of H with
          | context [lift ?x] =>
              let E := fresh "E" in destruct x eqn:E; try discriminate H
          | context [match ?x with _ => _ end] =>
              let E := fresh "E" in destruct x eqn:E; try discriminate H
          | context [if ?x then _ else _] =>
              let E := fresh "E" in destruct x eqn:E; try discriminate H
          end).

Ltac getitem_cases :=
  repeat match goal with
         | H : match ?l !! ?i with _ => _ end = Ok _ |- _ =>
             let E := fresh "E" in
             destruct (l !! i) eqn:E; [injection H as ->|discriminate H]
         | H : String.eqb _ _ = true |- _ => apply String.eqb_eq in H
         end.

(** X26. What [comprehension_from_atom] returns, when it returns: a
    comprehension of the class that the bracket stands for (a list for
    [[], a generator for [(], a set or a dict for [{]), defined in the
    context that was given, whose entry is the first child of the node
    after the bracket and whose clause node is of type [sync_comp_for],
    the [comp_for] of an [async] clause being stepped over.  For a dict
    the second child of that node is a colon and the third its value
    node.  With any other bracket nothing is returned. *)
Theorem X26_comprehension_from_atom (value : Context) (atom : Node)
    (comprehension : Comprehension)
    (Hmade : comprehension_from_atom value atom = Done comprehension) :
  type (_sync_comp_for_node comprehension) = "sync_comp_for" ∧
  _defining_context comprehension = value ∧
  ∃ atom_children bracket test_list_comp comp_children,
    children atom = Ok atom_children ∧
    atom_children !! 0%nat = Some bracket ∧
    atom_children !! 1%nat = Some test_list_comp ∧
    children test_list_comp = Ok comp_children ∧
    comp_children !! 0%nat = Some (_entry_node comprehension) ∧
    match comprehension_class comprehension with
    | ListComprehension => is_token bracket "[" = true
    | GeneratorComprehension => is_token bracket "(" = true
    | SetComprehension =>
        is_token bracket "{" = true ∧
        ∃ second, comp_children !! 1%nat = Some second ∧
                  is_token second ":" = false
    | DictComprehension value_node =>
        is_token bracket "{" = true ∧
        comp_children !! 2%nat = Some value_node ∧
        ∃ colon, comp_children !! 1%nat = Some colon ∧
                 is_token colon ":" = true
    end.
Proof.
  unfold comprehension_from_atom, getitem in Hmade.
  outcome_cases Hmade; injection Hmade as <-; cbn; getitem_cases;
    (split; [done|]); (split; [done|]);
    eexists _, _, _, _; split_and!; eauto.
Qed.

Lemma X26_comprehension_from_atom_witness :
  ∃ comprehension,
    comprehension_from_atom ComprehensionModule.context
      ComprehensionModule.the_dict = Done comprehension ∧
    type (_sync_comp_for_node comprehension) = "sync_comp_for" ∧
    _defining_context comprehension = ComprehensionModule.context.
Proof.
  eexists. split; [reflexivity|].
  pose proof (X26_comprehension_from_atom ComprehensionModule.context
                ComprehensionModule.the_dict _ eq_refl) as (Hsync & Hctx & _).
  split; [exact Hsync|exact Hctx].
Defined.

Section ComprehensionIteration.
Variable inference_state : InferenceState.
Variable iterate_async : ValueSet → list LazyValue.
Variable get_sync_comp_fors : Node → list Node.

(** The results of a dict comprehension are pairs, those of the other
    comprehensions value sets. *)
Lemma nested_loops_shape (self : Comprehension) (comp_fors : list Node) :
  ∀ context,
    Forall (λ result,
              match comprehension_class self, result with
              | DictComprehension _, Item _ _ => True
              | DictComprehension _, Values _ => False
              | _, Values _ => True
              | _, Item _ _ => False
              end)
           (nested_loops inference_state iterate_async self comp_fors context).
Proof.
  induction comp_fors as [|comp_for comp_fors IH]; intros context.
  - cbn [nested_loops]. apply Forall_singleton. unfold infer_entry.
    by destruct (comprehension_class self).
  - cbn [nested_loops].
    destruct (comp_for_parts comp_for) as [[[is_async input_node] exprlist]|];
      [|constructor].
    generalize (if is_async
                then iterate_async (infer_node inference_state context input_node)
                else iterate_values inference_state
                       (infer_node inference_state context input_node)).
    intros iterated. induction iterated as [|lazy_value iterated IHloop];
      [constructor|].
    cbn [flat_map]. apply Forall_app. split; [apply IH|done].
Qed.

(** X27. Iterating a comprehension with plain clauses cannot fail and
    reports nothing.  [_iterate] gives the results of the nested loops,
    run in the defining context, and [py__iter__] gives one lazy value
    for each of them, whose value set is known: for a dict
    comprehension the key set of the pair, so that the keys iterated
    are those that [_dict_keys] merges; for the other comprehensions
    the result itself. *)
Theorem X27_comprehension_iteration (self : Comprehension)
    (issues : list Issue)
    (Hclauses : get_sync_comp_fors (_sync_comp_for_node self) ≠ [])
    (Hplain : Forall (λ comp_for, plain_clause comp_for = true)
                     (get_sync_comp_fors (_sync_comp_for_node self))) :
  let results :=
    nested_loops inference_state iterate_async self
      (get_sync_comp_fors (_sync_comp_for_node self))
      (_defining_context self) in
  _iterate inference_state iterate_async get_sync_comp_fors self issues
  = (Done results, issues) ∧
  ∃ lazy_values,
    Comprehension_py__iter__ inference_state iterate_async get_sync_comp_fors
      self issues
    = (Done lazy_values, issues) ∧
    match comprehension_class self with
    | DictComprehension _ =>
        ∃ items, results = (λ kv, Item kv.1 kv.2) <$> items ∧
                 lazy_values = LazyKnownValues <$> items.*1 ∧
                 from_sets (lazy_infer inference_state <$> lazy_values)
                 = DictComprehension__dict_keys items
    | _ => results = Values <$> (lazy_infer inference_state <$> lazy_values)
    end.
Proof.
  intros results.
  assert (Hiterate :
    _iterate inference_state iterate_async get_sync_comp_fors self issues
    = (Done results, issues)).
  { unfold _iterate. rewrite (_nested_plain _ _ _ _ Hplain).
    by destruct (get_sync_comp_fors (_sync_comp_for_node self)). }
  split; [done|]. unfold Comprehension_py__iter__. rewrite Hiterate.
  eexists. split; [done|].
  pose proof (nested_loops_shape self
                (get_sync_comp_fors (_sync_comp_for_node self))
                (_defining_context self)) as Hshape.
  fold results in Hshape. clearbody results. clear Hiterate.
  destruct (comprehension_class self) as [| | |value_node].
  1-3: induction Hshape as [|[set_|] results Hresult _ IH]; [done| |done];
       rewrite !fmap_cons; cbn [lazy_infer]; by rewrite <- IH.
  induction Hshape as [|[|keys values] results Hresult _ IH].
  - by exists [].
  - done.
  - destruct IH as (items & -> & Hlazy & Hkeys).
    exists ((keys, values) :: items). split; [done|].
    rewrite !fmap_cons. split; [by rewrite Hlazy|].
    unfold DictComprehension__dict_keys in *. rewrite !fmap_cons.
    cbn [lazy_infer fst]. unfold from_sets in *. cbn [union_list foldr].
    by rewrite Hkeys.
Qed.

End ComprehensionIteration.

Lemma X27_comprehension_iteration_witness :
  let self :=
    mkComprehension
      (DictComprehension
         (Fixture.the_node ComprehensionModule.module_node [1; 1; 2]%nat))
      ComprehensionModule.context
      (Fixture.the_node ComprehensionModule.module_node [1; 1; 3]%nat)
      (Fixture.the_node ComprehensionModule.module_node [1; 1; 0]%nat) in
  comprehension_from_atom ComprehensionModule.context
    ComprehensionModule.the_dict = Done self ∧
  _iterate ComprehensionModule.inference_state (λ _, [])
    ComprehensionModule.get_sync_comp_fors self []
  = (Done [Item ComprehensionModule.first_row {[ Fixture.int_ 1 ]};
           Item ComprehensionModule.second_row {[ Fixture.int_ 1 ]}], []).
Proof.
  intros self. split; [reflexivity|].
  rewrite (proj1 (X27_comprehension_iteration
                    ComprehensionModule.inference_state (λ _, [])
                    ComprehensionModule.get_sync_comp_fors self []
                    ltac:(done) ltac:(repeat constructor))).
  vm_compute. done.
Defined.
